(** * svg_stack: box layout and document composition

    A shallow embedding of [svg_stack.py]: the two-pass box layout
    ([BoxLayout.get_size], [BoxLayout._calc_box], [BoxLayout.render]), the
    composition accumulator ([LayoutAccumulator]), the identifier rewriter
    ([fix_ids]), and the reading of a source's size ([get_unit_attr],
    [convert_to_pixels], [SVGFileBase.__init__]).

    Numbers.  Python's ints and floats are modelled by exact rationals [Q]:
    rounding of binary floating point is outside the model, and numeric
    comparisons ([==], [!=], [>]) are the rational ones.

    Objects.  A layout tree is an inductive value that carries the mutable
    fields of every object; a method that mutates its receiver returns the
    updated value.  The model therefore covers trees in which every object
    occurs once (the accumulator rejects a leaf that is registered twice);
    likewise every decoration is an element of its own. *)

From Stdlib Require Import QArith Qminmax Lqa ZArith String Ascii DecimalString DecimalNat.
From stdpp Require Import gmap strings list.


Set Warnings "-register-all,-clear-no-such-hyp".

(** ** Exceptions and the result monad *)

Inductive Exception : Type :=
| NotImplementedError (msg : string)
| ValueError (msg : string)
| AssertionError
| TypeError
| AttributeError
| KeyError
| ZeroDivisionError
| RecursionLimit.

Inductive Result (A : Type) : Type :=
| Ok (a : A)
| Raise (e : Exception).
Arguments Ok {A} a.
Arguments Raise {A} e.

Definition bind {A B : Type} (m : Result A) (k : A -> Result B) : Result B :=
  match m with
  | Ok a => k a
  | Raise e => Raise e
  end.

#[export] Instance Result_ret : MRet Result := @Ok.
#[export] Instance Result_bind : MBind Result := fun A B k m => bind m k.
#[export] Instance Result_fmap : FMap Result :=
  fun A B f m => match m with Ok a => Ok (f a) | Raise e => Raise e end.

Definition succeeds {A : Type} (m : Result A) : bool :=
  match m with Ok _ => true | Raise _ => false end.

(** ** The markup tree

    An [lxml] element: its tag in Clark notation ([None] for a comment or a
    processing instruction, whose [tag] is not a string), its attributes in
    document order and its children.  Text content is not modelled. *)

Inductive Element : Type :=
| Elem (tag : option string) (attrib : list (string * string)) (children : list Element).

Definition tag (e : Element) : option string := let 'Elem t _ _ := e in t.
Definition attrib (e : Element) : list (string * string) := let 'Elem _ a _ := e in a.
Definition children (e : Element) : list Element := let 'Elem _ _ c := e in c.

(** ** Geometry *)

Record Size : Type := mkSize { width : Q; height : Q }.

(** Python's [max(a, b)]: the second argument only when it is strictly greater. *)
Definition pymax (a b : Q) : Q := if Qle_bool b a then a else b.

(** Python's [a > b] on numbers. *)
Definition Qgt_bool (a b : Q) : bool := negb (Qle_bool a b).

Inductive Direction : Type := LeftToRight | RightToLeft | TopToBottom | BottomToTop.

(** [self._direction in [LeftToRight, RightToLeft]] *)
Definition horizontal (d : Direction) : bool :=
  match d with LeftToRight | RightToLeft => true | _ => false end.

Definition direction_name (d : Direction) : string :=
  match d with
  | LeftToRight => "LeftToRight" | RightToLeft => "RightToLeft"
  | TopToBottom => "TopToBottom" | BottomToTop => "BottomToTop"
  end.

Definition AlignLeft : Z := 0x01.
Definition AlignRight : Z := 0x02.
Definition AlignHCenter : Z := 0x04.
Definition AlignTop : Z := 0x020.
Definition AlignBottom : Z := 0x040.
Definition AlignVCenter : Z := 0x080.
Definition AlignCenter : Z := Z.lor AlignHCenter AlignVCenter.

(** Truth value of [flag & alignment]. *)
Definition has_flag (flag alignment : Z) : bool := negb (Z.land flag alignment =? 0)%Z.

(** ** Leaves and layouts *)

(** The fields of [SVGFileBase].  [obj_id] stands for the identity of the
    Python object, which is what [in] compares on a list of leaves;
    [_root_nsmap] is [self._root.nsmap.items()]. *)
Record SVGFileBase : Type := mkSVGFileBase {
  obj_id : nat;
  _fname : string;
  _root : Element;
  _root_nsmap : list (option string * string);
  _width_px : Q;
  _height_px : Q;
  _orig_width_px : Q;
  _orig_height_px : Q;
  _coord : option (Q * Q)
}.

(** An entry of [BoxLayout._items] is the tuple [(item, stretch, alignment, xml)]. *)
Inductive Item : Type :=
| SVGFile (f : SVGFileBase)
| SVGFileNoLayout (f : SVGFileBase) (_x_offset _y_offset : Q)
| BoxLayout (_direction : Direction)
            (_items : list (Item * Q * Z * option Element))
            (_contents_margins _spacing : Q)
            (_coord : Q * Q)
            (_size : option Size).

Abbreviation Entry := (Item * Q * Z * option Element)%type.

Definition isinstance_SVGFileNoLayout (item : Item) : bool :=
  match item with SVGFileNoLayout _ _ _ => true | _ => false end.

(** [SVGFileBase._set_size] *)
Definition SVGFileBase_set_size (f : SVGFileBase) (size : Size) : SVGFileBase :=
  let w := if Qeq_bool (_width_px f) (width size) then _width_px f else width size in
  let h := if Qeq_bool (_height_px f) (height size) then _height_px f else height size in
  mkSVGFileBase (obj_id f) (_fname f) (_root f) (_root_nsmap f) w h
                (_orig_width_px f) (_orig_height_px f) (_coord f).

Definition SVGFileBase_with_coord (f : SVGFileBase) (c : Q * Q) : SVGFileBase :=
  mkSVGFileBase (obj_id f) (_fname f) (_root f) (_root_nsmap f) (_width_px f) (_height_px f)
                (_orig_width_px f) (_orig_height_px f) (Some c).

(** [item._set_coord(coord)], by class. *)
Definition _set_coord (item : Item) (coord : Q * Q) : Item :=
  match item with
  | SVGFile f => SVGFile (SVGFileBase_with_coord f coord)
  | SVGFileNoLayout f x y =>
      SVGFileNoLayout (SVGFileBase_with_coord f (fst coord + x, snd coord + y)%Q) x y
  | BoxLayout d items m s _ sz => BoxLayout d items m s coord sz
  end.

(** [item._set_size(size)], by class. *)
Definition _set_size (item : Item) (size : Size) : Item :=
  match item with
  | SVGFile f => SVGFile (SVGFileBase_set_size f size)
  | SVGFileNoLayout f x y => SVGFileNoLayout (SVGFileBase_set_size f size) x y
  | BoxLayout d items m s c _ => BoxLayout d items m s c (Some size)
  end.

(** The current coordinate of an item ([item._coord]). *)
Definition item_coord (item : Item) : option (Q * Q) :=
  match item with
  | SVGFile f => _coord f
  | SVGFileNoLayout f _ _ => _coord f
  | BoxLayout _ _ _ _ c _ => Some c
  end.

(** [BoxLayout._calc_box] *)
Definition _calc_box (in_pos : Q * Q) (in_sz item_sz : Size) (alignment : Z)
  : (Q * Q) * Size :=
  let '(left', width') :=
    if has_flag AlignLeft alignment then (fst in_pos, width item_sz)
    else if has_flag AlignRight alignment then
      (fst in_pos + width in_sz - width item_sz, width item_sz)%Q
    else if has_flag AlignHCenter alignment then
      (fst in_pos + (1 # 2) * (width in_sz - width item_sz), width item_sz)%Q
    else (fst in_pos, width in_sz) in
  let '(top', height') :=
    if has_flag AlignTop alignment then (snd in_pos, height item_sz)
    else if has_flag AlignBottom alignment then
      (snd in_pos + height in_sz - height item_sz, height item_sz)%Q
    else if has_flag AlignVCenter alignment then
      (snd in_pos + (1 # 2) * (height in_sz - height item_sz), height item_sz)%Q
    else (snd in_pos, height in_sz) in
  ((left', top'), mkSize width' height').

(** *** Pass 1 of [BoxLayout.get_size]: measurement *)

Section Passes.

(** The recursive call [item.get_size(min_size=..)] on a child. *)
Variable child_get_size : Item -> option Size -> Result (Item * Size).

Variable direction : Direction.
Variable contents_margins spacing : Q.

(** Main-axis and cross-axis extent of a size in this layout. *)
Definition main_extent (sz : Size) : Q :=
  if horizontal direction then width sz else height sz.
Definition orth_extent (sz : Size) : Q :=
  if horizontal direction then height sz else width sz.

(** The loop at lines 526-545: returns the children as the calls left them,
    [item_sizes], [cum_dim] and [max_orth_dim]. *)
Fixpoint step1 (dim_min_size : Size) (n_items item_number : nat)
         (items : list Entry) (cum_dim max_orth_dim : Q)
  : Result (list Entry * list Size * Q * Q) :=
  match items with
  | [] => Ok ([], [], cum_dim, max_orth_dim)
  | (item, stretch, alignment, xml) :: rest =>
      if isinstance_SVGFileNoLayout item then
        '(rest', sizes, cum, mo) ←
           step1 dim_min_size n_items (S item_number) rest cum_dim max_orth_dim;
        Ok ((item, stretch, alignment, xml) :: rest', mkSize 0 0 :: sizes, cum, mo)
      else
        '(item', item_size) ← child_get_size item (Some dim_min_size);
        let cum_dim := (cum_dim + main_extent item_size)%Q in
        let max_orth_dim := pymax max_orth_dim (orth_extent item_size) in
        let cum_dim :=
          if (item_number + 1 <? n_items)%nat then (cum_dim + spacing)%Q else cum_dim in
        '(rest', sizes, cum, mo) ←
           step1 dim_min_size n_items (S item_number) rest cum_dim max_orth_dim;
        Ok ((item', stretch, alignment, xml) :: rest', item_size :: sizes, cum, mo)
  end.

(** *** Pass 2: expansion *)

(** Lines 553-555. *)
Definition total_stretch (items : list Entry) : Q :=
  fold_left (fun acc (e : Entry) => (acc + snd (fst (fst e)))%Q) items 0%Q.

(** Lines 556-559. *)
Definition dim_unfilled_length (min_size : Size) (cum_dim : Q) : Q :=
  pymax 0 (main_extent min_size - cum_dim).

(** Lines 561-573: [stretch_hack] and [stretch_inc]. *)
Definition stretch_hack (unfilled total : Q) : bool :=
  Qgt_bool unfilled 0 && Qeq_bool total 0.

Definition stretch_inc (unfilled total : Q) : Q :=
  if Qgt_bool unfilled 0 then
    if Qeq_bool total 0 then 0 else unfilled / total
  else 0.

(** Lines 582-591: the box allotted to one entry. *)
Definition new_item_size (hack : bool) (inc unfilled orth_dim : Q)
           (is_last_item : bool) (stretch : Q) (old_item_size : Size) : Size :=
  if horizontal direction then
    let new_dim_length := (width old_item_size + stretch * inc)%Q in
    let new_dim_length :=
      if hack && is_last_item then (width old_item_size + unfilled)%Q
      else new_dim_length in
    mkSize new_dim_length orth_dim
  else
    let new_dim_length := (height old_item_size + stretch * inc)%Q in
    let new_dim_length :=
      if hack && is_last_item then (width old_item_size + unfilled)%Q
      else new_dim_length in
    mkSize orth_dim new_dim_length.

(** Lines 597-603. *)
Definition child_box_coord (cum_dim : Q) : Result (Q * Q) :=
  match direction with
  | LeftToRight => Ok (cum_dim, contents_margins)
  | TopToBottom => Ok (contents_margins, cum_dim)
  | d => Raise (NotImplementedError ("direction " +:+ direction_name d +:+ " not implemented"))
  end.

(** The loop at lines 578-626 over [zip(self._items, item_sizes)]: returns
    the placed children and [cum_dim]. *)
Fixpoint step2 (hack : bool) (inc unfilled orth_dim : Q) (self_coord : Q * Q)
         (n_items i : nat) (items : list Entry) (item_sizes : list Size) (cum_dim : Q)
  : Result (list Entry * Q) :=
  match items, item_sizes with
  | (item, stretch, alignment, xml) :: rest, old_item_size :: sizes =>
      let is_last_item := (n_items <=? i + 1)%nat in
      let new_sz := new_item_size hack inc unfilled orth_dim is_last_item stretch old_item_size in
      '(item, item_size) ←
         (if isinstance_SVGFileNoLayout item then Ok (item, mkSize 0 0)
          else child_get_size item (Some new_sz));
      cbc ← child_box_coord cum_dim;
      let cbc := (fst cbc + fst self_coord, snd cbc + snd self_coord)%Q in
      let '(item_pos, final_item_size) := _calc_box cbc new_sz item_size alignment in
      let item := _set_coord item item_pos in
      let item := _set_size item final_item_size in
      let cum_dim := (cum_dim + main_extent new_sz)%Q in
      let cum_dim := if is_last_item then cum_dim else (cum_dim + spacing)%Q in
      '(rest', cum) ←
         step2 hack inc unfilled orth_dim self_coord n_items (S i) rest sizes cum_dim;
      Ok ((item, stretch, alignment, xml) :: rest', cum)
  | _, _ => Ok ([], cum_dim)
  end.

(** Lines 511-546: pass 1 from its initial values. *)
Definition measure (items : list Entry) (min_size : Size)
  : Result (list Entry * list Size * Q * Q) :=
  let max_orth_dim := orth_extent min_size in
  let dim_min_size :=
    if horizontal direction then mkSize 0 max_orth_dim else mkSize max_orth_dim 0 in
  step1 dim_min_size (length items) 0 items (0 + contents_margins)%Q max_orth_dim.

End Passes.

(** Lines 511-512: [min_size], or [Size(0, 0)] when it is [None]. *)
Definition min_size_or_zero (min_size : option Size) : Size :=
  match min_size with Some s => s | None => mkSize 0 0 end.

(** [get_size] of every class ([SVGFileBase.get_size], [BoxLayout.get_size]);
    the parameters [box_align] and [level], which no class reads, are left
    out.  [fuel] bounds the nesting depth of layouts that the call may
    descend into; [fits] and [fits_depth] below say how much is enough. *)
Fixpoint get_size (fuel : nat) (self : Item) (min_size : option Size)
  : Result (Item * Size) :=
  match self with
  | SVGFile f => Ok (self, mkSize (_width_px f) (_height_px f))
  | SVGFileNoLayout f _ _ => Ok (self, mkSize (_width_px f) (_height_px f))
  | BoxLayout d items margins spacing coord _ =>
      match fuel with
      | O => Raise RecursionLimit
      | S fuel =>
          let min_size := min_size_or_zero min_size in
          '(items, item_sizes, cum_dim, max_orth_dim) ←
             measure (get_size fuel) d margins spacing items min_size;
          let cum_dim := (cum_dim + margins)%Q in
          let orth_dim := max_orth_dim in
          let max_orth_dim := (max_orth_dim + 2 * margins)%Q in
          let total := total_stretch items in
          let unfilled := dim_unfilled_length d min_size cum_dim in
          let hack := stretch_hack unfilled total in
          let inc := stretch_inc unfilled total in
          let cum_dim := (0 + margins)%Q in
          '(items, cum_dim) ←
             step2 (get_size fuel) d margins spacing hack inc unfilled orth_dim coord
                   (length items) 0 items item_sizes cum_dim;
          let cum_dim := (cum_dim + margins)%Q in
          let size :=
            if horizontal d then mkSize cum_dim max_orth_dim
            else mkSize max_orth_dim cum_dim in
          Ok (BoxLayout d items margins spacing coord (Some size), size)
      end
  end.

(** ** The identifier rewriter *)

Definition ns_svg : string := "{http://www.w3.org/2000/svg}".
Definition ns_xlink : string := "{http://www.w3.org/1999/xlink}".

(** [elem.attrib.get(key, None)] *)
Fixpoint attrib_get (key : string) (a : list (string * string)) : option string :=
  match a with
  | [] => None
  | (k, v) :: rest => if String.eqb key k then Some v else attrib_get key rest
  end.

(** [elem.attrib[key] = value]: in place when the key is present, appended otherwise. *)
Fixpoint attrib_set (key value : string) (a : list (string * string))
  : list (string * string) :=
  match a with
  | [] => [(key, value)]
  | (k, v) :: rest =>
      if String.eqb key k then (k, value) :: rest else (k, v) :: attrib_set key value rest
  end.

(** [elem.attrib.keys()] *)
Definition attrib_keys (a : list (string * string)) : list string := map fst a.

Definition newline : ascii := "010"%char.

(** The rest of [s] behind the prefix [p], when [s] starts with [p]. *)
Fixpoint strip_prefix (p s : string) : option string :=
  match p, s with
  | EmptyString, _ => Some s
  | String a p', String b s' => if Ascii.eqb a b then strip_prefix p' s' else None
  | _, _ => None
  end.

(** [s] split at the last closing parenthesis of its first line: the text
    before it, which is what the greedy group matches, and the text behind. *)
Fixpoint split_last_rparen (s : string) : option (string * string) :=
  match s with
  | EmptyString => None
  | String c s' =>
      if Ascii.eqb c newline then None
      else
        match split_last_rparen s' with
        | Some (group, rest) => Some (String c group, rest)
        | None => if Ascii.eqb c ")"%char then Some (EmptyString, s') else None
        end
  end.

(** The call [re.sub] of line 107 with the pattern [relIRI_re] of line 49
    (the text [url], an opening parenthesis, [#], a greedy group of any
    characters but newline, a closing parenthesis) and the template that
    puts [prefix] before the group, for a prefix without backslash (in a
    replacement template only a backslash is special).  The scan goes left to
    right; where the text starts with the five characters before the group,
    the greedy group runs to the last closing parenthesis before the next
    newline, the match is replaced and the scan resumes behind it; [skip]
    counts the characters of a match that are still to be passed over.
    Strings are byte strings: the pattern is ASCII and no byte of a
    multi-byte UTF-8 character is a newline or a parenthesis. *)
Fixpoint relIRI_sub (prefix : string) (skip : nat) (value : string) : string :=
  match value with
  | EmptyString => EmptyString
  | String c rest =>
      match skip with
      | S n => relIRI_sub prefix n rest
      | O =>
          match strip_prefix "url(#" value ≫= split_last_rparen with
          | Some (group, _) =>
              "url(#" +:+ prefix +:+ group +:+ ")"
                +:+ relIRI_sub prefix (5 + String.length group) rest
          | None => String c (relIRI_sub prefix 0 rest)
          end
      end
  end.

(** [value[1:]] *)
Definition str_tail (s : string) : string :=
  match s with EmptyString => EmptyString | String _ s' => s' end.

(** The body of the loop at lines 92-109 for one attribute key. *)
Definition fix_attrib (prefix key : string) (a : list (string * string))
  : list (string * string) :=
  match attrib_get key a with
  | Some value =>
      let relIRI := negb (String.prefix ns_xlink key) in
      if negb relIRI && String.prefix "#" value then
        let iri := str_tail value in
        attrib_set key ("#" +:+ prefix +:+ iri) a
      else if relIRI then
        let newvalue := relIRI_sub prefix 0 value in
        if negb (String.eqb newvalue value) then attrib_set key newvalue a else a
      else a
  | None => a
  end.

(** [isinstance(elem.tag, string_types) and elem.tag.startswith(ns)] *)
Definition in_svg_namespace (e : Element) : bool :=
  match tag e with
  | Some t => String.prefix ns_svg t
  | None => false
  end.

(** Lines 87-109: the attributes of one element of the SVG namespace. *)
Definition fix_attribs (prefix : string) (a : list (string * string))
  : list (string * string) :=
  let a :=
    match attrib_get "id" a with
    | Some i => attrib_set "id" (prefix +:+ i) a
    | None => a
    end in
  fold_left (fun a key => fix_attrib prefix key a) (attrib_keys a) a.

(** [fix_ids] (lines 80-114): the attributes of an element of the SVG
    namespace are rewritten, and the children of every element are visited.
    As for [relIRI_sub], the model holds for a prefix without backslash. *)
Fixpoint fix_ids (elem : Element) (prefix : string) (level : nat) : Element :=
  match elem with
  | Elem t a cs =>
      let a := if in_svg_namespace elem then fix_attribs prefix a else a in
      Elem t a (map (fun child => fix_ids child prefix (S level)) cs)
  end.

(** ** The composition accumulator *)

Record LayoutAccumulator : Type := mkLayoutAccumulator {
  _svgfiles : list SVGFileBase;
  _svgfiles_no_layout : list SVGFileBase;
  _raw_elements : list Element;
  _size : option Size
}.

Definition LayoutAccumulator_init : LayoutAccumulator := mkLayoutAccumulator [] [] [] None.

(** [svgfile in lst]: identity of objects. *)
Definition contains_obj (f : SVGFileBase) (l : list SVGFileBase) : bool :=
  existsb (fun g => Nat.eqb (obj_id g) (obj_id f)) l.

Definition add_svg_file (accum : LayoutAccumulator) (svgfile : SVGFileBase)
  : Result LayoutAccumulator :=
  if contains_obj svgfile (_svgfiles accum) then
    Raise (ValueError "cannot accumulate SVGFile instance twice")
  else Ok (mkLayoutAccumulator (_svgfiles accum ++ [svgfile]) (_svgfiles_no_layout accum)
                               (_raw_elements accum) (_size accum)).

Definition add_svg_file_no_layout (accum : LayoutAccumulator) (svgfile : SVGFileBase)
  : Result LayoutAccumulator :=
  if contains_obj svgfile (_svgfiles_no_layout accum) then
    Raise (ValueError "cannot accumulate SVGFileNoLayout instance twice")
  else Ok (mkLayoutAccumulator (_svgfiles accum) (_svgfiles_no_layout accum ++ [svgfile])
                               (_raw_elements accum) (_size accum)).

Definition add_raw_element (accum : LayoutAccumulator) (elem : Element) : LayoutAccumulator :=
  mkLayoutAccumulator (_svgfiles accum) (_svgfiles_no_layout accum)
                      (_raw_elements accum ++ [elem]) (_size accum).

Definition accum_set_size (accum : LayoutAccumulator) (size : Size) : LayoutAccumulator :=
  mkLayoutAccumulator (_svgfiles accum) (_svgfiles_no_layout accum)
                      (_raw_elements accum) (Some size).

(** *** Namespace table *)

Definition uri_svg : string := "http://www.w3.org/2000/svg".
Definition uri_sodipodi : string := "http://sodipodi.sourceforge.net/DTD/sodipodi-0.dtd".

(** The initial [NSMAP] of [_make_finalized_root]. *)
Definition NSMAP_init : gmap (option string) string :=
  <[Some "sodipodi" := uri_sodipodi]> (<[None := uri_svg]> ∅).

(** The inner loop at lines 294-304 over [origelem.nsmap.items()]. *)
Fixpoint merge_nsmap (items : list (option string * string))
         (NSMAP : gmap (option string) string) : Result (gmap (option string) string) :=
  match items with
  | [] => Ok NSMAP
  | (key, value) :: rest =>
      match NSMAP !! key with
      | Some bound =>
          if String.eqb value bound then merge_nsmap rest NSMAP else Raise AssertionError
      | None =>
          if bool_decide (key = Some "svg") then
            match NSMAP !! None with
            | Some dflt =>
                if String.eqb value dflt then merge_nsmap rest NSMAP else Raise AssertionError
            | None => Raise KeyError
            end
          else merge_nsmap rest (<[key := value]> NSMAP)
      end
  end.

(** The outer loop at lines 292-304 over [self._svgfiles]. *)
Fixpoint collect_nsmap (svgfiles : list SVGFileBase)
         (NSMAP : gmap (option string) string) : Result (gmap (option string) string) :=
  match svgfiles with
  | [] => Ok NSMAP
  | svgfile :: rest =>
      NSMAP ← merge_nsmap (_root_nsmap svgfile) NSMAP;
      collect_nsmap rest NSMAP
  end.

(** ** Rendering and the merge

    What the program takes from Python and [lxml] enters as the variables of
    this section. *)

Section Composition.

(** [repr(x)] and the [%s] of a number. *)
Variable repr : Q -> string.
(** Lines 377-381: the tokens of a [viewBox] value, split at commas or, when
    there is no comma, at white space. *)
Variable viewBox_tokens : string -> list string.
(** [float(v)]; [None] when it raises [ValueError]. *)
Variable float : string -> option Q.
(** [etree.tostring(root, pretty_print=True).decode()] of a root created
    with the given namespace table. *)
Variable tostring : gmap (option string) string -> Element -> string.

Definition svg_tag (name : string) : option string := Some (ns_svg +:+ name).

(** The outline rectangles of the debug mode. *)
Definition debug_box (style : string) (coord : Q * Q) (sz : Size) : Element :=
  Elem (svg_tag "rect")
       [("style", style); ("x", repr (fst coord)); ("y", repr (snd coord));
        ("width", repr (width sz)); ("height", repr (height sz))] [].

Definition translate_attr (x y : string) : string :=
  "translate(" +:+ x +:+ "," +:+ y +:+ ")".

(** [item._coord[0]], [item._coord[1]]: a [TypeError] while [_coord] is [None]. *)
Definition coord_of (c : option (Q * Q)) : Result (Q * Q) :=
  match c with Some c => Ok c | None => Raise TypeError end.

(** Lines 500-505. *)
Definition add_extra (accum : LayoutAccumulator) (item : Item) (xml : option Element)
  : Result LayoutAccumulator :=
  match xml with
  | Some x =>
      c ← coord_of (item_coord item);
      let extra :=
        Elem (svg_tag "g")
             [("transform", translate_attr (repr (fst c)) (repr (snd c)))] [x] in
      Ok (add_raw_element accum extra)
  | None => Ok accum
  end.

(** A leaf branch of the loop of [render] (lines 464-491). *)
Definition render_leaf (add : LayoutAccumulator -> SVGFileBase -> Result LayoutAccumulator)
           (style : string) (debug_boxes : Z) (accum : LayoutAccumulator) (f : SVGFileBase)
  : Result LayoutAccumulator :=
  accum ← add accum f;
  if (0 <? debug_boxes)%Z then
    c ← coord_of (_coord f);
    Ok (add_raw_element accum (debug_box style c (mkSize (_width_px f) (_height_px f))))
  else Ok accum.

(** The loop at lines 463-505; [child_render] is [item.render] on a nested layout. *)
Fixpoint render_items
         (child_render : Item -> LayoutAccumulator -> option Size -> Result (Item * LayoutAccumulator))
         (debug_boxes : Z) (items : list Entry) (accum : LayoutAccumulator)
  : Result (list Entry * LayoutAccumulator) :=
  match items with
  | [] => Ok ([], accum)
  | (item, stretch, alignment, xml) :: rest =>
      '(item, accum) ←
         match item with
         | SVGFile f =>
             accum ← render_leaf add_svg_file
                     "fill: none; stroke: red; stroke-width: 1.000000;" debug_boxes accum f;
             Ok (item, accum)
         | SVGFileNoLayout f _ _ =>
             accum ← render_leaf add_svg_file_no_layout
                     "fill: none; stroke: green; stroke-width: 1.000000;" debug_boxes accum f;
             Ok (item, accum)
         | BoxLayout _ _ _ _ _ sz => child_render item accum sz
         end;
      accum ← add_extra accum item xml;
      '(rest, accum) ← render_items child_render debug_boxes rest accum;
      Ok ((item, stretch, alignment, xml) :: rest, accum)
  end.

(** [BoxLayout.render]; only a layout has the method. *)
Fixpoint render (fuel : nat) (self : Item) (accum : LayoutAccumulator)
         (min_size : option Size) (level : nat) (debug_boxes : Z)
  : Result (Item * LayoutAccumulator) :=
  match fuel with
  | O => Raise RecursionLimit
  | S fuel' =>
      match self with
      | BoxLayout _ _ _ _ _ _ =>
          '(self, size) ← get_size fuel self min_size;
          match self with
          | BoxLayout d items margins spacing coord sz =>
              let accum := if Nat.eqb level 0 then accum_set_size accum size else accum in
              let accum :=
                if (0 <? debug_boxes)%Z then
                  add_raw_element accum
                    (debug_box "fill: none; stroke: black; stroke-width: 2.000000;" coord size)
                else accum in
              '(items, accum) ←
                 render_items
                   (fun item accum min_size =>
                      render fuel' item accum min_size (S level) debug_boxes)
                   debug_boxes items accum;
              Ok (BoxLayout d items margins spacing coord sz, accum)
          | _ => Raise AttributeError
          end
      | _ => Raise AttributeError
      end
  end.

(** *** [LayoutAccumulator._make_finalized_root] *)

(** Lines 314-323. *)
Fixpoint number_from (fname_num : nat) (do_layout : bool) (svgfiles : list SVGFileBase)
  : list (nat * bool * SVGFileBase) :=
  match svgfiles with
  | [] => []
  | svgfile :: rest => (fname_num, do_layout, svgfile) :: number_from (S fname_num) do_layout rest
  end.

Definition work_list (accum : LayoutAccumulator) : list (nat * bool * SVGFileBase) :=
  number_from 0 true (_svgfiles accum)
  ++ number_from (length (_svgfiles accum)) false (_svgfiles_no_layout accum).

(** [%d] of a natural number. *)
Definition decimal (n : nat) : string := NilEmpty.string_of_uint (Nat.to_uint n).

Definition fix_id_prefix (fname_num : nat) : string := "id" +:+ decimal fname_num +:+ ":".

Definition tag_is (child : Element) (t : string) : bool :=
  match tag child with Some t' => String.eqb t' t | None => false end.

(** The loop at lines 337-353 over the children of the source root: the
    children of [root_defs] and of the wrapper group as it leaves them.
    ([append] moves a node out of the source root; [lxml] steps to the next
    sibling before it hands a node out, so every child is visited.) *)
Fixpoint copy_children (prefix : string) (cs : list Element)
         (root_defs elem : list Element) : list Element * list Element :=
  match cs with
  | [] => (root_defs, elem)
  | child :: rest =>
      if tag_is child (ns_svg +:+ "defs") then
        copy_children prefix rest
          (root_defs ++ map (fun subchild => fix_ids subchild prefix 0) (children child)) elem
      else if tag_is child ("{" +:+ uri_sodipodi +:+ "}:namedview") then
        copy_children prefix rest root_defs elem
      else if tag_is child (ns_svg +:+ "metadata") then
        copy_children prefix rest root_defs elem
      else copy_children prefix rest root_defs (elem ++ [child])
  end.

(** Lines 374-393: the value of the wrapper's [transform] attribute. *)
Definition placement_transform (origelem : Element) (width_px height_px : Q)
           (translate_x translate_y : Q) : Result string :=
  match attrib_get "viewBox" (attrib origelem) with
  | Some orig_viewBox =>
      match viewBox_tokens orig_viewBox with
      | [a; b; c; d] =>
          match float a, float b, float c, float d with
          | Some vbminx, Some vbminy, Some vbwidth, Some vbheight =>
              if Qeq_bool vbwidth 0 || Qeq_bool vbheight 0 then Raise ZeroDivisionError
              else
                let sx := (width_px / vbwidth)%Q in
                let sy := (height_px / vbheight)%Q in
                let tx := (translate_x - vbminx)%Q in
                let ty := (translate_y - vbminy)%Q in
                Ok ("matrix(" +:+ repr sx +:+ ",0,0," +:+ repr sy +:+ ","
                      +:+ repr tx +:+ "," +:+ repr ty +:+ ")")
          | _, _, _, _ => Raise (ValueError "could not convert string to float")
          end
      | _ => Raise AssertionError
      end
  | None => Ok (translate_attr (repr translate_x) (repr translate_y))
  end.

(** The body of the loop at lines 324-394 for one leaf: the children of
    [root_defs] afterwards and the wrapper group appended to the root. *)
Definition wrap_leaf (fname_num : nat) (do_layout : bool) (svgfile : SVGFileBase)
           (root_defs : list Element) : Result (list Element * Element) :=
  let origelem := _root svgfile in
  let prefix := fix_id_prefix fname_num in
  let width_px := _width_px svgfile in
  let height_px := _height_px svgfile in
  let '(root_defs, cs) := copy_children prefix (children origelem) root_defs [] in
  let elem := fix_ids (Elem (svg_tag "g") [("id", "id" +:+ decimal fname_num)] cs) prefix 0 in
  c ← coord_of (_coord svgfile);
  if do_layout && negb (Qeq_bool (_orig_width_px svgfile) width_px) then
    Raise (NotImplementedError "rescaling width not implemented")
  else if do_layout && negb (Qeq_bool (_orig_height_px svgfile) height_px) then
    Raise (NotImplementedError "rescaling height not implemented")
  else
    transform ← placement_transform origelem width_px height_px (fst c) (snd c);
    Ok (root_defs, Elem (tag elem) (attrib_set "transform" transform (attrib elem))
                        (children elem)).

(** The loop at lines 324-394: [root_defs]' children and the groups appended
    to the root, in order. *)
Fixpoint wrap_leaves (work : list (nat * bool * SVGFileBase))
         (root_defs groups : list Element) : Result (list Element * list Element) :=
  match work with
  | [] => Ok (root_defs, groups)
  | (fname_num, do_layout, svgfile) :: rest =>
      '(root_defs, elem) ← wrap_leaf fname_num do_layout svgfile root_defs;
      wrap_leaves rest root_defs (groups ++ [elem])
  end.

(** The finalized root with the namespace table it was created with. *)
Definition _make_finalized_root (self : LayoutAccumulator)
  : Result (gmap (option string) string * Element) :=
  NSMAP ← collect_nsmap (_svgfiles self) NSMAP_init;
  '(root_defs, groups) ← wrap_leaves (work_list self) [] [];
  match _size self with
  | Some size =>
      let a := attrib_set "version" "1.1" [] in
      let a := attrib_set "width" (repr (width size)) a in
      let a := attrib_set "height" (repr (height size)) a in
      Ok (NSMAP,
          Elem (svg_tag "svg") a
               ([Elem (svg_tag "defs") [] root_defs] ++ groups ++ _raw_elements self))
  | None => Raise AttributeError
  end.

Definition dquote : string := String "034"%char EmptyString.

Definition header_str : string :=
  "<?xml version=" +:+ dquote +:+ "1.0" +:+ dquote
    +:+ " encoding=" +:+ dquote +:+ "UTF-8" +:+ dquote +:+ "?>".

(** [Document.save]: the text written to the file object. *)
Definition save (fuel : nat) (_layout : option Item) (debug_boxes : Z) : Result string :=
  match _layout with
  | None => Raise (ValueError "No layout, cannot save.")
  | Some layout =>
      '(_, accum) ← render fuel layout LayoutAccumulator_init None 0 debug_boxes;
      '(NSMAP, root) ← _make_finalized_root accum;
      Ok (header_str +:+ String newline EmptyString +:+ tostring NSMAP root)
  end.

End Composition.

(** ** Building layouts and leaves *)

(** The state [SVGFileBase.__init__] leaves behind for a source of the given
    size in pixels. *)
Definition SVGFileBase_init (id : nat) (fname : string) (root : Element)
           (nsmap : list (option string * string)) (width_px height_px : Q) : SVGFileBase :=
  mkSVGFileBase id fname root nsmap width_px height_px width_px height_px None.

Definition BoxLayout_init (direction : Direction) : Item :=
  BoxLayout direction [] 0 0 (0, 0)%Q None.
Definition HBoxLayout : Item := BoxLayout_init LeftToRight.
Definition VBoxLayout : Item := BoxLayout_init TopToBottom.

Definition append_item (self : Item) (e : Entry) : Item :=
  match self with
  | BoxLayout d items m s c sz => BoxLayout d (items ++ [e]) m s c sz
  | _ => self
  end.

Definition addSVG (self : Item) (svg_file : SVGFileBase) (stretch : Q) (alignment : Z)
           (xml : option Element) : Item :=
  append_item self (SVGFile svg_file, stretch, alignment, xml).

Definition addSVGNoLayout (self : Item) (svg_file : SVGFileBase) (x y : Q)
           (xml : option Element) : Item :=
  append_item self (SVGFileNoLayout svg_file x y, 0%Q, 0%Z, xml).

Definition addLayout (self : Item) (layout : Item) (stretch : Q) : Item :=
  append_item self (layout, stretch, 0%Z, None).

Definition setSpacing (self : Item) (spacing : Q) : Item :=
  match self with
  | BoxLayout d items m _ c sz => BoxLayout d items m spacing c sz
  | _ => self
  end.

(** [self._contents_margins = margins]; the class has no setter for it. *)
Definition with_contents_margins (self : Item) (margins : Q) : Item :=
  match self with
  | BoxLayout d items _ s c sz => BoxLayout d items margins s c sz
  | _ => self
  end.

Definition items_of (self : Item) : list Entry :=
  match self with
  | BoxLayout _ items _ _ _ _ => items
  | _ => []
  end.

Definition entry_item (e : Entry) : Item := fst (fst (fst e)).
Definition entry_stretch (e : Entry) : Q := snd (fst (fst e)).

(** The size fields of a leaf, [(0, 0)] for a layout. *)
Definition item_size (item : Item) : Size :=
  match item with
  | SVGFile f => mkSize (_width_px f) (_height_px f)
  | SVGFileNoLayout f _ _ => mkSize (_width_px f) (_height_px f)
  | BoxLayout _ _ _ _ _ _ => mkSize 0 0
  end.

Definition Size_eq (a b : Size) : Prop := (width a == width b /\ height a == height b)%Q.
Definition coord_eq (a b : Q * Q) : Prop := (fst a == fst b /\ snd a == snd b)%Q.

(** A leaf as parsed from an empty SVG document of the given size. *)
Definition blank_root : Element := Elem (Some (ns_svg +:+ "svg")) [] [].
Definition leaf (id : nat) (w h : Q) : SVGFileBase :=
  SVGFileBase_init id "leaf.svg" blank_root [] w h.

(** ** Quantities the properties speak about *)

(** The box pass 2 allots to entry [i] (lines 553-591), from the results of
    pass 1: [item_sizes], the total [cum_dim] with both margins, [orth_dim]. *)
Definition allotted_size (d : Direction) (items : list Entry) (item_sizes : list Size)
           (min_size : Size) (cum_dim orth_dim : Q) (i : nat) : option Size :=
  e ← items !! i;
  old_item_size ← item_sizes !! i;
  let total := total_stretch items in
  let unfilled := dim_unfilled_length d min_size cum_dim in
  Some (new_item_size d (stretch_hack unfilled total) (stretch_inc unfilled total) unfilled
                      orth_dim (length items <=? i + 1)%nat (entry_stretch e) old_item_size).

Definition opt_coord_eq (a : option (Q * Q)) (b : Q * Q) : Prop :=
  match a with Some a => coord_eq a b | None => False end.
Definition opt_Size_eq (a : option Size) (b : Size) : Prop :=
  match a with Some a => Size_eq a b | None => False end.

(** Sizes and coordinates of the direct children of a layout. *)
Definition child_sizes (self : Item) : list Size :=
  map (fun e => item_size (entry_item e)) (items_of self).
Definition child_coords (self : Item) : list (option (Q * Q)) :=
  map (fun e => item_coord (entry_item e)) (items_of self).

(** ** Layouts of the scenarios *)

(** Two leaves of 100 x 100 in a column with margin 5 and spacing 0. *)
Definition scenario_column (a1 a2 : Z) : Item :=
  with_contents_margins
    (addSVG (addSVG VBoxLayout (leaf 0 100 100) 0 a1 None) (leaf 1 100 100) 0 a2 None) 5.

(** One leaf, 100 wide and 50 high, in a column. *)
Definition column_wide_leaf : Item := addSVG VBoxLayout (leaf 0 100 50) 0 0 None.

(** One leaf, 10 wide and 100 high, in a column. *)
Definition column_tall_leaf : Item := addSVG VBoxLayout (leaf 0 10 100) 0 0 None.

(** One leaf of 100 x 100 in a row. *)
Definition row_one_leaf : Item := addSVG HBoxLayout (leaf 0 100 100) 0 0 None.

(** A row of a nested column (one leaf of 100 x 50) and a leaf of 10 x 80. *)
Definition row_with_column : Item :=
  addSVG (addLayout HBoxLayout column_wide_leaf 0) (leaf 1 10 80) 0 0 None.

(** One leaf of 100 x 100 in a layout of the given direction. *)
Definition one_leaf_in (d : Direction) : Item :=
  addSVG (BoxLayout_init d) (leaf 0 100 100) 0 0 None.

(** A row with spacing 10: a leaf of 100 x 100, then a fixed-offset leaf at (10, 20). *)
Definition row_then_no_layout : Item :=
  addSVGNoLayout (addSVG (setSpacing HBoxLayout 10) (leaf 0 100 100) 0 0 None)
                 (leaf 1 30 30) 10 20 None.
Definition row_without_no_layout : Item :=
  addSVG (setSpacing HBoxLayout 10) (leaf 0 100 100) 0 0 None.

(** A row of two leaves of 100 x 100 with stretch weights 1 and 3. *)
Definition stretch_example : Item :=
  addSVG (addSVG HBoxLayout (leaf 0 100 100) 1 0 None) (leaf 1 100 100) 3 0 None.

(** ** Static structure and fuel *)

(** A leaf with its mutable fields ([_width_px], [_height_px], [_coord]) reset. *)
Definition static_leaf (f : SVGFileBase) : SVGFileBase :=
  mkSVGFileBase (obj_id f) (_fname f) (_root f) (_root_nsmap f) 0 0
                (_orig_width_px f) (_orig_height_px f) None.

(** An item with the mutable fields of every object in it reset: what no
    method of the layout pass changes. *)
Fixpoint static (item : Item) : Item :=
  match item with
  | SVGFile f => SVGFile (static_leaf f)
  | SVGFileNoLayout f x y => SVGFileNoLayout (static_leaf f) x y
  | BoxLayout d items m s _ _ =>
      BoxLayout d
        (map (fun e : Entry => let '(it, st, al, xml) := e in (static it, st, al, xml)) items)
        m s (0, 0)%Q None
  end.

Definition static_entry (e : Entry) : Entry :=
  let '(it, st, al, xml) := e in (static it, st, al, xml).


(** [fuel] covers the nesting of [item]. *)
Fixpoint fits (fuel : nat) (item : Item) : bool :=
  match item with
  | BoxLayout _ items _ _ _ _ =>
      match fuel with
      | O => false
      | S fuel => forallb (fun e : Entry => fits fuel (entry_item e)) items
      end
  | _ => true
  end.

Definition forward (d : Direction) : bool :=
  match d with LeftToRight | TopToBottom => true | _ => false end.

Definition is_nil {A : Type} (l : list A) : bool :=
  match l with [] => true | _ => false end.

(** [fuel] covers [item] and every layout in it that has entries flows forward. *)
Fixpoint placeable (fuel : nat) (item : Item) : bool :=
  match item with
  | BoxLayout d items _ _ _ _ =>
      match fuel with
      | O => false
      | S fuel =>
          (forward d || is_nil items)
          && forallb (fun e : Entry => placeable fuel (entry_item e)) items
      end
  | _ => true
  end.

Definition is_NotImplementedError (e : Exception) : bool :=
  match e with NotImplementedError _ => true | _ => false end.

(** [cum_dim] when the loop of pass 2 (lines 578-626), started at index [i]
    with [cum_dim = cum], reaches the entry [k] places further on. *)
Fixpoint cursor_at (d : Direction) (spacing : Q) (hack : bool) (inc unfilled orth_dim : Q)
         (n_items i : nat) (items : list Entry) (item_sizes : list Size) (cum : Q) (k : nat)
  : Q :=
  match k, items, item_sizes with
  | S k, (_, stretch, _, _) :: rest, old_item_size :: sizes =>
      let is_last_item := (n_items <=? i + 1)%nat in
      let new_sz := new_item_size d hack inc unfilled orth_dim is_last_item stretch old_item_size in
      let cum := (cum + main_extent d new_sz)%Q in
      let cum := if is_last_item then cum else (cum + spacing)%Q in
      cursor_at d spacing hack inc unfilled orth_dim n_items (S i) rest sizes cum k
  | _, _, _ => cum
  end.

(** The same from the results of pass 1 ([items], [item_sizes], the total
    [cum_dim] without the last margin, [orth_dim]), as [get_size] sets pass 2 up. *)
Definition slot_cursor (d : Direction) (margins spacing : Q) (min_size : Size)
           (items : list Entry) (item_sizes : list Size) (cum_dim orth_dim : Q) (k : nat) : Q :=
  let total := total_stretch items in
  let unfilled := dim_unfilled_length d min_size (cum_dim + margins) in
  cursor_at d spacing (stretch_hack unfilled total) (stretch_inc unfilled total) unfilled
            orth_dim (length items) 0 items item_sizes (0 + margins) k.

(** [l] with [x] put in at index [k]. *)
Definition insert_at {A : Type} (k : nat) (x : A) (l : list A) : list A :=
  take k l ++ x :: drop k l.

(** The result of pass 1 with an entry and its size put back in at index [k]. *)
Definition with_entry_at (k : nat) (e : Entry) (sz : Size)
           (r : list Entry * list Size * Q * Q) : list Entry * list Size * Q * Q :=
  let '(items, sizes, cum_dim, max_orth_dim) := r in
  (insert_at k e items, insert_at k sz sizes, cum_dim, max_orth_dim).

(** A row with spacing 10: a leaf of 100 x 100, a fixed-offset leaf at
    (10, 20), a leaf of 50 x 50. *)
Definition row_before : list Entry := [(SVGFile (leaf 0 100 100), 0%Q, 0%Z, None)].
Definition row_after : list Entry := [(SVGFile (leaf 2 50 50), 0%Q, 0%Z, None)].
Definition row_around_no_layout : Item :=
  BoxLayout LeftToRight
            (row_before ++ (SVGFileNoLayout (leaf 1 30 30) 10 20, 0%Q, 0%Z, None) :: row_after)
            0 10 (0, 0)%Q None.

(** ** Namespace declarations *)

(** The bindings [_make_finalized_root] starts from, and the binding it
    checks the prefix [svg] against. *)
Definition builtin_bindings : list (option string * string) :=
  [(None, uri_svg); (Some "sodipodi", uri_sodipodi); (Some "svg", uri_svg)].

(** The declarations on the source roots of the given leaves, in order. *)
Definition declarations (svgfiles : list SVGFileBase) : list (option string * string) :=
  concat (map _root_nsmap svgfiles).

(** No prefix is bound to two different URIs. *)
Definition consistent (l : list (option string * string)) : Prop :=
  forall k v1 v2, (k, v1) ∈ l -> (k, v2) ∈ l -> v1 = v2.

(** The bindings [items] agree with the table, with the SVG namespace for
    the prefix [svg], and with one another. *)
Definition agrees (NSMAP : gmap (option string) string)
           (items : list (option string * string)) : Prop :=
  forall k v, (k, v) ∈ items ->
    (k = Some "svg" -> v = uri_svg)
    /\ (forall v', NSMAP !! k = Some v' -> v = v')
    /\ (forall v', (k, v') ∈ items -> v = v').

(** The table binds the default namespace to SVG and leaves [svg] unbound. *)
Definition table_inv (NSMAP : gmap (option string) string) : Prop :=
  NSMAP !! None = Some uri_svg /\ NSMAP !! Some "svg" = None.

(** A leaf whose root declares the given namespaces, placed at the origin. *)
Definition leaf_declaring (id : nat) (nsmap : list (option string * string)) : SVGFileBase :=
  mkSVGFileBase id "leaf.svg" blank_root nsmap 10 10 10 10 (Some (0, 0)%Q).

Definition other_uri : string := "http://example.org/other".

(** An accumulator that holds no flowed leaf and two fixed-offset leaves
    whose roots bind the prefix [a] to different URIs. *)
Definition accum_no_layout_conflict : LayoutAccumulator :=
  mkLayoutAccumulator []
    [leaf_declaring 0 [(Some "a", uri_svg)]; leaf_declaring 1 [(Some "a", other_uri)]]
    [] (Some (mkSize 10 10)).

(** ** Attribute values and reference patterns *)

Fixpoint mem_char (c : ascii) (s : string) : bool :=
  match s with
  | EmptyString => false
  | String b s' => Ascii.eqb c b || mem_char c s'
  end.

(** [needle] occurs in [s]. *)
Definition occurs (needle s : string) : Prop := exists a b, s = a +:+ needle +:+ b.

(** [value] holds a functional fragment reference: the pattern of line 49
    matches somewhere in it. *)
Definition has_relIRI (value : string) : Prop :=
  exists pre name post,
    value = pre +:+ "url(#" +:+ name +:+ ")" +:+ post /\ mem_char newline name = false.

(** What lines 97-109 leave in an attribute of the given key and value. *)
Definition rewritten_value (prefix key value : string) : string :=
  if String.prefix ns_xlink key then
    if String.prefix "#" value then "#" +:+ prefix +:+ str_tail value else value
  else relIRI_sub prefix 0 value.

(** The prefix holds no backslash, as those [_make_finalized_root] builds. *)
Definition backslash_free (prefix : string) : Prop := mem_char "\"%char prefix = false.

Definition example_rect : Element :=
  Elem (Some (ns_svg +:+ "rect"))
       [("id", "r"); ("fill", "#ff0000"); (ns_xlink +:+ "href", "#a");
        ("style", "fill:url(#g)")] [].

(** ** Stand-ins for the library functions, for running the examples *)

Definition example_repr (x : Q) : string :=
  decimal (Z.to_nat (Qnum x / Z.pos (Qden x))).
Definition example_viewBox_tokens (s : string) : list string := [].
Definition example_float (s : string) : option Q := None.
Definition example_tostring (NSMAP : gmap (option string) string) (root : Element) : string :=
  match root with
  | Elem _ a cs => "<svg children=" +:+ decimal (length cs) +:+ "/>"
  end.

(** A row of a leaf of 100 x 100 with a decoration, a fixed-offset leaf at
    (10, 20) and a leaf of 50 x 100. *)
Definition document_example : Item :=
  addSVG
    (addSVGNoLayout
       (addSVG HBoxLayout (leaf 0 100 100) 0 0 (Some (Elem (svg_tag "text") [] [])))
       (leaf 1 30 30) 10 20 None)
    (leaf 2 50 100) 0 0 None.

(** ** Units and the size of a source document *)

Definition UNITS : list string := ["pt"; "px"; "in"; "mm"; "cm"].

Definition PX_PER_INCH : Q := 96.
Definition MM_PER_INCH : Q := 254 # 10.
Definition PT2IN : Q := 1 / 72.
Definition IN2PT : Q := 72.
Definition CM2PT : Q := 72 / (254 # 100).
Definition PT2PX : Q := 125 # 100.
Definition PX2PT : Q := 1 / (125 # 100).

(** [value.endswith(suffix)] with [value[:-len(suffix)]], for a non-empty
    suffix: the text before the suffix when [s] ends with it. *)
Fixpoint strip_suffix (suffix s : string) {struct s} : option string :=
  if String.eqb s suffix then Some EmptyString
  else
    match s with
    | EmptyString => None
    | String c s' => String c <$> strip_suffix suffix s'
    end.

(** The loop at lines 55-60: the first unit [value] ends with, and the text
    before it. *)
Fixpoint find_unit (units : list string) (value : string) : option string * string :=
  match units with
  | [] => (None, value)
  | unit_name :: rest =>
      match strip_suffix unit_name value with
      | Some v => (Some unit_name, v)
      | None => find_unit rest value
      end
  end.

(** [str.split(' ')]: the pieces between single spaces, empty ones included. *)
Fixpoint split_on (sep : ascii) (s : string) : list string :=
  match s with
  | EmptyString => [EmptyString]
  | String c s' =>
      if Ascii.eqb c sep then EmptyString :: split_on sep s'
      else
        match split_on sep s' with
        | t :: ts => String c t :: ts
        | [] => [String c EmptyString]
        end
  end.

(** [convert_to_pixels] *)
Definition convert_to_pixels (val : Q) (units : option string) : Result Q :=
  match units with
  | None => Ok val
  | Some u =>
      if String.eqb u "px" then Ok val
      else if String.eqb u "pt" then Ok (val * PT2PX)%Q
      else if String.eqb u "in" then Ok (val * IN2PT * PT2PX)%Q
      else if String.eqb u "mm" then Ok (val / MM_PER_INCH * PX_PER_INCH)%Q
      else if String.eqb u "cm" then Ok (val * CM2PT * PT2PX)%Q
      else Raise (ValueError "unsupport unit conversion to pixels")
  end.

Section Parsing.

(** [float(v)]; [None] when it raises [ValueError]. *)
Variable float : string -> option Q.

(** [get_unit_attr] *)
Definition get_unit_attr (value : string) : Result (Q * option string) :=
  let '(units, value) := find_unit UNITS value in
  match float value with
  | Some val_float => Ok (val_float, units)
  | None => Raise (ValueError "could not convert string to float")
  end.

(** [get_unit_attr(self._root.get(name))]: without the attribute the
    argument is [None], which has no [endswith]. *)
Definition get_unit_attr_of (root : Element) (name : string) : Result (Q * option string) :=
  match attrib_get name (attrib root) with
  | Some value => get_unit_attr value
  | None => Raise AttributeError
  end.

(** Lines 199-208: width and height with their units. *)
Definition declared_size (root : Element)
  : Result (Q * option string * Q * option string) :=
  match attrib_get "height" (attrib root) with
  | Some _ =>
      '(height, height_units) ← get_unit_attr_of root "height";
      '(width, width_units) ← get_unit_attr_of root "width";
      Ok (width, width_units, height, height_units)
  | None =>
      match attrib_get "viewBox" (attrib root) with
      | None => Raise AttributeError
      | Some vbox =>
          match split_on " "%char vbox with
          | [_; _; width; height] =>
              match float width with
              | None => Raise (ValueError "could not convert string to float")
              | Some width =>
                  match float height with
                  | None => Raise (ValueError "could not convert string to float")
                  | Some height => Ok (width, Some "px", height, Some "px")
                  end
              end
          | _ => Raise (ValueError "not enough or too many values to unpack")
          end
      end
  end.

(** [SVGFileBase.__init__] on the root [etree.parse(fname).getroot()] hands
    over, for the object of identity [id]. *)
Definition SVGFileBase_new (id : nat) (fname : string) (root : Element)
           (nsmap : list (option string * string)) : Result SVGFileBase :=
  if negb (tag_is root (ns_svg +:+ "svg")) then
    Raise (ValueError "expected file to have root element <svg:svg>")
  else
    '(width, width_units, height, height_units) ← declared_size root;
    width_px ← convert_to_pixels width width_units;
    height_px ← convert_to_pixels height height_units;
    Ok (mkSVGFileBase id fname root nsmap width_px height_px width_px height_px None).

End Parsing.

(** A stand-in for [float] that reads unsigned decimal integers. *)
Definition example_float_nat (s : string) : option Q :=
  match NilEmpty.uint_of_string s with
  | Some d => if String.eqb s "" then None else Some (inject_Z (Z.of_nat (Nat.of_uint d)))
  | None => None
  end.

(** A root of 200pt by 1in with a view box of another size. *)
Definition sized_root : Element :=
  Elem (Some (ns_svg +:+ "svg"))
       [("width", "200pt"); ("height", "1in"); ("viewBox", "0 0 7 7")] [].

(** A root that declares its size through the view box only. *)
Definition viewBox_root : Element :=
  Elem (Some (ns_svg +:+ "svg")) [("viewBox", "0 0 640 480")] [].

(** ** Quantities of the further properties *)

Definition has_horizontal_flag (alignment : Z) : bool :=
  has_flag AlignLeft alignment || has_flag AlignRight alignment
  || has_flag AlignHCenter alignment.

Definition has_vertical_flag (alignment : Z) : bool :=
  has_flag AlignTop alignment || has_flag AlignBottom alignment
  || has_flag AlignVCenter alignment.


(** Sum of the main-axis lengths of [sizes]. *)
Definition sum_main (d : Direction) (sizes : list Size) : Q :=
  foldr (fun sz acc => (main_extent d sz + acc)%Q) 0%Q sizes.

(** Sum of the stretch weights of [items]. *)
Definition sum_stretch (items : list Entry) : Q :=
  foldr (fun e acc => (entry_stretch e + acc)%Q) 0%Q items.

(** The spacing between [n] entries: one gap fewer than entries. *)
Definition gaps (spacing : Q) (n : nat) : Q :=
  (spacing * inject_Z (Z.of_nat (Nat.pred n)))%Q.

(** Both margins, the given main-axis lengths and the gaps between them. *)
Definition natural_length (d : Direction) (margins spacing : Q) (sizes : list Size) : Q :=
  (2 * margins + sum_main d sizes + gaps spacing (length sizes))%Q.

(** No entry is a fixed-offset leaf. *)
Definition all_flowed (items : list Entry) : bool :=
  forallb (fun e => negb (isinstance_SVGFileNoLayout (entry_item e))) items.

Definition is_SVGFile (item : Item) : bool :=
  match item with SVGFile _ => true | _ => false end.

(** Every entry is a flowed leaf. *)
Definition all_leaves (items : list Entry) : bool :=
  forallb (fun e => is_SVGFile (entry_item e)) items.

(** A row with margin 5 and spacing 10 of three leaves, the second centred. *)
Definition row_of_three : Item :=
  setSpacing
    (with_contents_margins
       (addSVG (addSVG (addSVG HBoxLayout (leaf 0 100 40) 1 0 None)
                       (leaf 1 30 60) 0 AlignCenter None)
               (leaf 2 50 50) 1 0 None) 5) 10.

(** The flowed leaves of a tree, depth first in the order of the entries. *)
Fixpoint flowed_leaves (item : Item) : list SVGFileBase :=
  match item with
  | SVGFile f => [f]
  | SVGFileNoLayout _ _ _ => []
  | BoxLayout _ items _ _ _ _ =>
      flat_map (fun e : Entry => flowed_leaves (fst (fst (fst e)))) items
  end.

(** The fixed-offset leaves of a tree, in the same order. *)
Fixpoint fixed_leaves (item : Item) : list SVGFileBase :=
  match item with
  | SVGFile _ => []
  | SVGFileNoLayout f _ _ => [f]
  | BoxLayout _ items _ _ _ _ =>
      flat_map (fun e : Entry => fixed_leaves (fst (fst (fst e)))) items
  end.

(** What one accumulator has more than another: the leaves of [item], and
    with them distinct identities in each list. *)
Definition registers (accum accum' : LayoutAccumulator) (item : Item) : Prop :=
  _svgfiles accum' = _svgfiles accum ++ flowed_leaves item
  /\ _svgfiles_no_layout accum' = _svgfiles_no_layout accum ++ fixed_leaves item
  /\ (NoDup (map obj_id (_svgfiles accum)) -> NoDup (map obj_id (_svgfiles accum')))
  /\ (NoDup (map obj_id (_svgfiles_no_layout accum))
      -> NoDup (map obj_id (_svgfiles_no_layout accum'))).

(** ** Children of a source root, as the merge sorts them *)

Definition is_defs (child : Element) : bool := tag_is child (ns_svg +:+ "defs").

(** The tags of lines 347 and 350. *)
Definition is_left_out (child : Element) : bool :=
  tag_is child ("{" +:+ uri_sodipodi +:+ "}:namedview")
  || tag_is child (ns_svg +:+ "metadata").

(** The rewritten children of the [defs] children, in document order. *)
Definition hoisted (prefix : string) (cs : list Element) : list Element :=
  flat_map (fun c => map (fun subchild => fix_ids subchild prefix 0) (children c))
           (List.filter is_defs cs).

(** The children that go into the wrapper group, in document order. *)
Definition kept (cs : list Element) : list Element :=
  List.filter (fun c => negb (is_defs c) && negb (is_left_out c)) cs.

(** The current size of a leaf differs from its original size. *)
Definition resized (f : SVGFileBase) : bool :=
  negb (Qeq_bool (_orig_width_px f) (_width_px f))
  || negb (Qeq_bool (_orig_height_px f) (_height_px f)).

(** A placed leaf whose source holds a [defs], a [metadata] and a [rect]. *)
Definition placed_leaf : SVGFileBase :=
  SVGFileBase_with_coord
    (SVGFileBase_init 0 "a.svg"
       (Elem (svg_tag "svg") []
             [Elem (svg_tag "defs") [] [Elem (svg_tag "linearGradient") [("id", "g")] []];
              Elem (svg_tag "metadata") [] [];
              Elem (svg_tag "rect") [("style", "fill:url(#g)")] []])
       [] 100 100)
    (10, 20)%Q.

(** A row of two unaligned leaves of different height. *)
Definition row_uneven : Item :=
  addSVG (addSVG HBoxLayout (leaf 0 100 100) 0 0 None) (leaf 1 50 50) 0 0 None.

(** ** The shape of an element tree *)


(** The coordinate of a point along the flow axis of a layout. *)
Definition main_coord (d : Direction) (c : Q * Q) : Q :=
  if horizontal d then fst c else snd c.

(** The coordinate of a point across the flow axis. *)
Definition orth_coord (d : Direction) (c : Q * Q) : Q :=
  if horizontal d then snd c else fst c.

(** A column at (7, 9) with margin 5 and spacing 10 of two unaligned leaves
    of the same width. *)
Definition column_of_two : Item :=
  _set_coord
    (setSpacing
       (with_contents_margins
          (addSVG (addSVG VBoxLayout (leaf 0 80 30) 0 0 None) (leaf 1 80 40) 0 0 None) 5) 10)
    (7, 9)%Q.

(** The decoration groups of a tree (lines 500-505), depth first: behind
    the decorations of an entry's own subtree, the entry's decoration
    wrapped in a group that is translated to the entry's position. *)
Fixpoint decorations (repr : Q -> string) (item : Item) : list Element :=
  match item with
  | BoxLayout _ items _ _ _ _ =>
      flat_map
        (fun e : Entry =>
           decorations repr (fst (fst (fst e)))
           ++ match snd e, item_coord (fst (fst (fst e))) with
              | Some x, Some c =>
                  [Elem (svg_tag "g")
                        [("transform", translate_attr (repr (fst c)) (repr (snd c)))] [x]]
              | _, _ => []
              end)
        items
  | _ => []
  end.

(** ** Elements of a subtree *)

(** The element reached from [e] by following child indices: the empty path
    is [e] itself. *)
Fixpoint subtree_at (path : list nat) (e : Element) : option Element :=
  match path with
  | [] => Some e
  | i :: rest =>
      match children e !! i with
      | Some c => subtree_at rest c
      | None => None
      end
  end.

(** A group that holds an element of another namespace, which holds
    [example_rect]. *)
Definition example_tree : Element :=
  Elem (Some (ns_svg +:+ "g")) [("id", "top")]
       [Elem (Some (ns_svg +:+ "title")) [] [];
        Elem (Some "{http://example.org/ns}box") [("ref", "#a")] [example_rect]].

(** ** The document the merge builds *)

(** The wrapper group of the leaf numbered [n]: a group of the SVG
    namespace whose identifier is the leaf's prefix followed by [id] and the
    number, whose transform puts the leaf at its coordinate (a translation,
    or for a source with a [viewBox] the matrix that scales the view box to
    the leaf's size), and whose children are the kept children of the
    source root, rewritten with the leaf's prefix. *)
Definition wrapper_for (repr : Q -> string) (viewBox_tokens : string -> list string)
           (float : string -> option Q) (n : nat) (f : SVGFileBase) (g : Element) : Prop :=
  tag g = svg_tag "g"
  /\ children g = map (fun c => fix_ids c (fix_id_prefix n) 1) (kept (children (_root f)))
  /\ exists x y t,
      _coord f = Some (x, y)
      /\ attrib g = [("id", fix_id_prefix n +:+ "id" +:+ decimal n); ("transform", t)]
      /\ match attrib_get "viewBox" (attrib (_root f)) with
         | None => t = translate_attr (repr x) (repr y)
         | Some vb =>
             exists a b c d vbminx vbminy vbwidth vbheight,
               viewBox_tokens vb = [a; b; c; d]
               /\ float a = Some vbminx /\ float b = Some vbminy
               /\ float c = Some vbwidth /\ float d = Some vbheight
               /\ ~ (vbwidth == 0)%Q /\ ~ (vbheight == 0)%Q
               /\ t = "matrix(" +:+ repr (_width_px f / vbwidth)%Q +:+ ",0,0,"
                       +:+ repr (_height_px f / vbheight)%Q +:+ ","
                       +:+ repr (x - vbminx)%Q +:+ "," +:+ repr (y - vbminy)%Q +:+ ")"
         end.

(** The children of the shared [defs] container: for the leaves numbered
    from [n], in order, the rewritten children of the [defs] of each source. *)
Fixpoint hoisted_from (n : nat) (leaves : list SVGFileBase) : list Element :=
  match leaves with
  | [] => []
  | f :: rest => hoisted (fix_id_prefix n) (children (_root f)) ++ hoisted_from (S n) rest
  end.

(** The outline of a leaf in debug mode (lines 467-477 and 481-491). *)
Definition leaf_outline (repr : Q -> string) (style : string) (debug_boxes : Z)
           (f : SVGFileBase) : list Element :=
  if (0 <? debug_boxes)%Z then
    match _coord f with
    | Some c => [debug_box repr style c (mkSize (_width_px f) (_height_px f))]
    | None => []
    end
  else [].

(** The raw elements of a rendered tree, depth first: in debug mode the
    outline of a layout before its entries and the outline of each leaf;
    behind the raw elements of an entry's own subtree the entry's
    decoration, in a group translated to the entry's position. *)
Fixpoint raw_of (repr : Q -> string) (debug_boxes : Z) (item : Item) : list Element :=
  match item with
  | SVGFile f =>
      leaf_outline repr "fill: none; stroke: red; stroke-width: 1.000000;" debug_boxes f
  | SVGFileNoLayout f _ _ =>
      leaf_outline repr "fill: none; stroke: green; stroke-width: 1.000000;" debug_boxes f
  | BoxLayout _ items _ _ coord sz =>
      (if (0 <? debug_boxes)%Z then
         [debug_box repr "fill: none; stroke: black; stroke-width: 2.000000;" coord
                    (min_size_or_zero sz)]
       else [])
      ++ flat_map
           (fun e : Entry =>
              raw_of repr debug_boxes (fst (fst (fst e)))
              ++ match snd e, item_coord (fst (fst (fst e))) with
                 | Some x, Some c =>
                     [Elem (svg_tag "g")
                           [("transform", translate_attr (repr (fst c)) (repr (snd c)))] [x]]
                 | _, _ => []
                 end)
           items
  end.

(** * Properties *)

(** ** Arithmetic of the model *)

Lemma pymax_le_l (a b : Q) : (a <= pymax a b)%Q.
Proof.
  unfold pymax. destruct (Qle_bool b a) eqn:E.
  - apply Qle_refl.
  - apply Qlt_le_weak, Qnot_le_lt. rewrite <- Qle_bool_iff, E. discriminate.
Qed.

Lemma pymax_0_nonneg (x : Q) : (0 <= pymax 0 x)%Q.
Proof. apply pymax_le_l. Qed.

Lemma pymax_0_pos (x : Q) : (0 < x)%Q -> pymax 0 x = x.
Proof.
  intros H. unfold pymax. destruct (Qle_bool x 0) eqn:E; [|reflexivity].
  apply Qle_bool_iff in E. lra.
Qed.

Lemma Qgt_bool_true (a b : Q) : (b < a)%Q -> Qgt_bool a b = true.
Proof.
  intros H. unfold Qgt_bool. destruct (Qle_bool a b) eqn:E; [|reflexivity].
  apply Qle_bool_iff in E. lra.
Qed.

Lemma Qeq_bool_false (a b : Q) : ~ (a == b)%Q -> Qeq_bool a b = false.
Proof.
  intros H. destruct (Qeq_bool a b) eqn:E; [|reflexivity].
  apply Qeq_bool_iff in E. contradiction.
Qed.

(** When the item fills its box exactly, every alignment puts it at the
    origin of the box with the size of the box. *)
Lemma calc_box_fit in_pos in_sz item_sz alignment :
  Size_eq item_sz in_sz ->
  coord_eq (fst (_calc_box in_pos in_sz item_sz alignment)) in_pos /\
  Size_eq (snd (_calc_box in_pos in_sz item_sz alignment)) in_sz.
Proof.
  intros [Hw Hh]. unfold _calc_box, coord_eq, Size_eq.
  destruct (has_flag AlignLeft alignment), (has_flag AlignRight alignment),
    (has_flag AlignHCenter alignment), (has_flag AlignTop alignment),
    (has_flag AlignBottom alignment), (has_flag AlignVCenter alignment);
    cbn [fst snd width height]; repeat split; try assumption; try reflexivity; lra.
Qed.

Ltac fit_calc_box a :=
  match goal with
  | |- context [_calc_box ?p ?s ?i a] =>
      let Hc := fresh "Hc" in
      let Hs := fresh "Hs" in
      destruct (calc_box_fit p s i a) as [Hc Hs];
      [split; vm_compute; reflexivity|];
      destruct (_calc_box p s i a) as [[? ?] ?];
      destruct Hc as [? ?]; cbn [fst snd] in *
  end.

(** ** The concrete column scenario *)

(** C8: two flowed leaves of natural size 100 x 100 in a column layout with
    margin 5 and spacing 0, whatever their alignment flags: the canvas size
    the render pass records is 110 x 210, the first leaf is registered at
    (5, 5) and the second at (5, 105). *)
Theorem column_scenario_canvas_and_positions :
  forall (repr : Q -> string) (a1 a2 : Z),
  exists box' accum,
    render repr 1 (scenario_column a1 a2) LayoutAccumulator_init None 0 0 = Ok (box', accum)
    /\ opt_Size_eq (_size accum) (mkSize 110 210)
    /\ Forall2 opt_coord_eq (map _coord (_svgfiles accum)) [(5, 5)%Q; (5, 105)%Q].
Proof.
  intros repr a1 a2.
  unfold scenario_column.
  cbn -[_calc_box Qplus Qmult Qminus pymax stretch_hack stretch_inc dim_unfilled_length].
  fit_calc_box a1. fit_calc_box a2.
  cbn -[Qplus Qmult Qminus pymax stretch_hack stretch_inc dim_unfilled_length].
  eexists _, _. split; [reflexivity|].
  cbn -[Qplus Qmult Qminus pymax stretch_hack stretch_inc dim_unfilled_length].
  split.
  - split; vm_compute; reflexivity.
  - repeat constructor; cbn [fst snd];
      (etransitivity; [eassumption | vm_compute; reflexivity]).
Qed.

(** ** Distribution of slack *)

Lemma main_extent_new_item_size d hack inc unfilled orth_dim is_last stretch old :
  main_extent d (new_item_size d hack inc unfilled orth_dim is_last stretch old) =
  if hack && is_last then (width old + unfilled)%Q
  else (main_extent d old + stretch * inc)%Q.
Proof.
  unfold new_item_size, main_extent.
  destruct (horizontal d), (hack && is_last); reflexivity.
Qed.

Lemma orth_extent_new_item_size d hack inc unfilled orth_dim is_last stretch old :
  orth_extent d (new_item_size d hack inc unfilled orth_dim is_last stretch old) = orth_dim.
Proof. unfold new_item_size, orth_extent. destruct (horizontal d); reflexivity. Qed.

(** With positive slack [S] and weights of positive sum [W], the box
    allotted to entry [i] is longer than its pass-1 size by [S * w_i / W]. *)
Lemma allotted_share :
  forall d items item_sizes min_size cum_dim orth_dim i e old,
    items !! i = Some e ->
    item_sizes !! i = Some old ->
    (0 < main_extent d min_size - cum_dim)%Q ->
    (0 < total_stretch items)%Q ->
    exists sz,
      allotted_size d items item_sizes min_size cum_dim orth_dim i = Some sz
      /\ (main_extent d sz ==
          main_extent d old
          + (main_extent d min_size - cum_dim) * entry_stretch e / total_stretch items)%Q
      /\ ((entry_stretch e == 0)%Q -> (main_extent d sz == main_extent d old)%Q).
Proof.
  intros d items item_sizes min_size cum_dim orth_dim i e old He Hold HS HW.
  unfold allotted_size. rewrite He, Hold. cbn.
  eexists. split; [reflexivity|].
  rewrite main_extent_new_item_size.
  unfold stretch_hack, stretch_inc, dim_unfilled_length.
  rewrite (pymax_0_pos _ HS), (Qgt_bool_true _ _ HS).
  rewrite Qeq_bool_false by lra. cbn [andb].
  split.
  - field. lra.
  - intros Hz. rewrite Hz. field. lra.
Qed.

(** X16: in a row the tie-break holds as the specification words it: with all
    weights zero the last entry takes the whole slack and the others keep
    their pass-1 length. *)
Lemma row_tie_break :
  forall d items item_sizes min_size cum_dim orth_dim i e old,
    horizontal d = true ->
    items !! i = Some e ->
    item_sizes !! i = Some old ->
    (0 < main_extent d min_size - cum_dim)%Q ->
    (total_stretch items == 0)%Q ->
    exists sz,
      allotted_size d items item_sizes min_size cum_dim orth_dim i = Some sz
      /\ (main_extent d sz ==
          if (length items <=? i + 1)%nat
          then main_extent d old + (main_extent d min_size - cum_dim)
          else main_extent d old)%Q.
Proof.
  intros d items item_sizes min_size cum_dim orth_dim i e old Hd He Hold HS HW.
  unfold allotted_size. rewrite He, Hold. cbn.
  eexists. split; [reflexivity|].
  rewrite main_extent_new_item_size.
  unfold stretch_hack, stretch_inc, dim_unfilled_length.
  rewrite (pymax_0_pos _ HS), (Qgt_bool_true _ _ HS).
  apply Qeq_bool_iff in HW. rewrite HW. cbn [andb].
  unfold main_extent. rewrite Hd.
  destruct (length items <=? i + 1)%nat; [reflexivity | ring].
Qed.

(** X17: in a row no entry is allotted less than its pass-1 length. *)
Lemma row_never_shrinks :
  forall d items item_sizes min_size cum_dim orth_dim i e old sz,
    horizontal d = true ->
    items !! i = Some e ->
    item_sizes !! i = Some old ->
    (0 <= entry_stretch e)%Q ->
    (0 <= total_stretch items)%Q ->
    allotted_size d items item_sizes min_size cum_dim orth_dim i = Some sz ->
    (main_extent d old <= main_extent d sz)%Q.
Proof.
  intros d items item_sizes min_size cum_dim orth_dim i e old sz Hd He Hold Hw HW.
  unfold allotted_size. rewrite He, Hold. cbn. intros [= <-].
  rewrite main_extent_new_item_size.
  pose proof (pymax_0_nonneg (main_extent d min_size - cum_dim)) as Hu.
  fold (dim_unfilled_length d min_size cum_dim) in Hu.
  set (u := dim_unfilled_length d min_size cum_dim) in *.
  assert (0 <= stretch_inc u (total_stretch items))%Q as Hinc.
  { unfold stretch_inc. destruct (Qgt_bool u 0); [|lra].
    destruct (Qeq_bool (total_stretch items) 0) eqn:E; [lra|].
    apply Qle_shift_div_l.
    - destruct (Qlt_le_dec 0 (total_stretch items)) as [|Hle]; [assumption|].
      assert (total_stretch items == 0)%Q as Hz by lra.
      apply Qeq_bool_iff in Hz. congruence.
    - lra. }
  destruct (stretch_hack u (total_stretch items) && (length items <=? i + 1)%nat).
  - unfold main_extent. rewrite Hd. lra.
  - assert (0 <= entry_stretch e * stretch_inc u (total_stretch items))%Q
      by (apply Qmult_le_0_compat; assumption).
    lra.
Qed.

(** ** The tie-break in a column *)

(** C1: a column of one leaf, 100 wide and 50 high, asked to fill a height
    of 80.  The slack is 30 and all weights are zero; the leaf is allotted
    its width plus the slack, 130, where its pass-1 length plus the slack
    is 80. *)
Theorem column_tie_break_adds_slack_to_width :
  exists box',
    get_size 1 column_wide_leaf (Some (mkSize 100 80)) = Ok (box', mkSize 100 130)
    /\ child_sizes box' = [mkSize 100 130]
    /\ allotted_size TopToBottom (items_of column_wide_leaf) [mkSize 100 50]
                     (mkSize 100 80) 50 100 0 = Some (mkSize 100 130).
Proof.
  eexists. split; [vm_compute; reflexivity|].
  split; vm_compute; reflexivity.
Qed.

(** C10: a column of one leaf, 10 wide and 100 high, asked to fill a height
    of 105.  The slack is 5; the leaf, of pass-1 length 100, is allotted
    its width plus the slack, 15. *)
Theorem column_tie_break_shrinks_entry :
  exists box',
    get_size 1 column_tall_leaf (Some (mkSize 0 105)) = Ok (box', mkSize 10 15)
    /\ child_sizes box' = [mkSize 10 15]
    /\ allotted_size TopToBottom (items_of column_tall_leaf) [mkSize 10 100]
                     (mkSize 0 105) 100 10 0 = Some (mkSize 10 15)
    /\ (15 < 100)%Q.
Proof.
  eexists. split; [vm_compute; reflexivity|].
  repeat split; vm_compute; reflexivity.
Qed.

(** ** Measurement writes *)

(** C7: a size query on a row of one untouched leaf of 100 x 100, with a
    target of 200 x 100, writes the position (0, 0) and the width 200 onto
    the leaf; and on a row holding a column, the same query asked twice
    returns 110 x 80 and then 110 x 130. *)
Theorem get_size_writes_to_children :
  child_coords row_one_leaf = [None]
  /\ child_sizes row_one_leaf = [mkSize 100 100]
  /\ (exists box',
        get_size 1 row_one_leaf (Some (mkSize 200 100)) = Ok (box', mkSize 200 100)
        /\ child_coords box' = [Some (0, 0)%Q]
        /\ child_sizes box' = [mkSize 200 100])
  /\ (exists box' box'',
        get_size 2 row_with_column None = Ok (box', mkSize 110 80)
        /\ get_size 2 box' None = Ok (box'', mkSize 110 130)).
Proof.
  split; [reflexivity|]. split; [reflexivity|]. split.
  - eexists. split; [vm_compute; reflexivity|]. split; vm_compute; reflexivity.
  - eexists _, _. split; vm_compute; reflexivity.
Qed.

(** ** The result monad *)

Lemma bind_Ok {A B : Type} (m : Result A) (k : A -> Result B) (b : B) :
  m ≫= k = Ok b -> exists a, m = Ok a /\ k a = Ok b.
Proof. destruct m as [a|e]; cbn; [eauto | discriminate]. Qed.

Lemma bind_Raise {A B : Type} (m : Result A) (k : A -> Result B) (e : Exception) :
  m ≫= k = Raise e -> m = Raise e \/ exists a, m = Ok a /\ k a = Raise e.
Proof. destruct m as [a|e']; cbn; [eauto | intros [= ->]; auto]. Qed.

Ltac inv_bind H :=
  let a := fresh "r" in
  let Ha := fresh "Hr" in
  apply bind_Ok in H; destruct H as (a & Ha & H).

(** ** What the passes leave unchanged *)

Lemma static_set_coord item c : static (_set_coord item c) = static item.
Proof. destruct item; reflexivity. Qed.

Lemma static_set_size item sz : static (_set_size item sz) = static item.
Proof. destruct item; reflexivity. Qed.

Lemma static_BoxLayout d items m s c sz :
  static (BoxLayout d items m s c sz) = BoxLayout d (map static_entry items) m s (0, 0)%Q None.
Proof. reflexivity. Qed.

Section StepFacts.

Variable child : Item -> option Size -> Result (Item * Size).
Variable d : Direction.
Variables margins spacing : Q.

Section Static.
Hypothesis child_static :
  forall item ms item' sz, child item ms = Ok (item', sz) -> static item' = static item.

Lemma step1_static items :
  forall dim n i cum mo items' sizes cum' mo',
    step1 child d spacing dim n i items cum mo = Ok (items', sizes, cum', mo') ->
    map static_entry items' = map static_entry items /\ length sizes = length items.
Proof.
  induction items as [|[[[item st] al] xml] rest IH]; intros dim n i cum mo items' sizes cum' mo' H.
  - cbn in H. injection H as <- <- <- <-. auto.
  - cbn in H. destruct (isinstance_SVGFileNoLayout item).
    + inv_bind H. destruct r as [[[rest' sizes'] c'] m']. injection H as <- <- <- <-.
      apply IH in Hr as [Hs Hl]. cbn. rewrite Hs, Hl. auto.
    + inv_bind H. destruct r as [item' isz]. inv_bind H.
      destruct r as [[[rest' sizes'] c'] m']. injection H as <- <- <- <-.
      apply IH in Hr0 as [Hs Hl]. apply child_static in Hr.
      cbn. rewrite Hs, Hl, Hr. auto.
Qed.

Lemma step2_static items :
  forall hack inc unfilled orth coord n i sizes cum items' cum',
    step2 child d margins spacing hack inc unfilled orth coord n i items sizes cum
    = Ok (items', cum') ->
    length sizes = length items ->
    map static_entry items' = map static_entry items.
Proof.
  induction items as [|[[[item st] al] xml] rest IH];
    intros hack inc unfilled orth coord n i sizes cum items' cum' H Hlen.
  - cbn in H. injection H as <- <-. reflexivity.
  - destruct sizes as [|old sizes]; [discriminate|]. cbn in H.
    inv_bind H. destruct r as [item' isz]. inv_bind H.
    destruct (_calc_box _ _ _ _) as [pos fsz]. inv_bind H.
    destruct r0 as [rest' c']. injection H as <- <-.
    apply IH in Hr1; [|cbn in Hlen; lia].
    cbn. rewrite Hr1, static_set_size, static_set_coord.
    destruct (isinstance_SVGFileNoLayout item).
    * injection Hr as <- <-. reflexivity.
    * apply child_static in Hr. rewrite Hr. reflexivity.
Qed.
End Static.

End StepFacts.

(** A size query changes only mutable fields. *)
Lemma get_size_static fuel :
  forall item ms item' sz,
    get_size fuel item ms = Ok (item', sz) -> static item' = static item.
Proof.
  induction fuel as [|fuel IH]; intros item ms item' sz H.
  - destruct item; cbn in H; try discriminate; injection H as <- <-; reflexivity.
  - destruct item as [f|f x y|d items m s c sz0]; cbn in H;
      try (injection H as <- <-; reflexivity).
    inv_bind H. destruct r as [[[items1 sizes] cum1] mo].
    inv_bind H. destruct r as [items2 cum2]. injection H as <- <-.
    unfold measure in Hr.
    apply (step1_static _ _ _ IH) in Hr as [Hs1 Hl1].
    apply (step2_static _ _ _ _ IH) in Hr0.
    + rewrite !static_BoxLayout, Hr0, Hs1. reflexivity.
    + rewrite Hl1. rewrite <- (length_map static_entry items1), Hs1, length_map. reflexivity.
Qed.

Lemma static_entry_item e e' :
  static_entry e = static_entry e' -> static (entry_item e) = static (entry_item e').
Proof.
  destruct e as [[[it st] al] xml], e' as [[[it' st'] al'] xml']. cbn. congruence.
Qed.

Lemma forallb_static (P : Item -> bool) :
  (forall a b, static a = static b -> P a = P b) ->
  forall l l' : list Entry,
    map static_entry l = map static_entry l' ->
    forallb (fun e => P (entry_item e)) l = forallb (fun e => P (entry_item e)) l'.
Proof.
  intros HP l. induction l as [|e l IH]; intros [|e' l'] H; try discriminate; [reflexivity|].
  cbn in H. injection H as He Hl. cbn.
  rewrite (HP _ _ (static_entry_item _ _ He)), (IH _ Hl). reflexivity.
Qed.

Lemma is_nil_static (l l' : list Entry) :
  map static_entry l = map static_entry l' -> is_nil l = is_nil l'.
Proof. destruct l, l'; cbn; congruence. Qed.

Lemma fits_static fuel : forall a b, static a = static b -> fits fuel a = fits fuel b.
Proof.
  induction fuel as [|fuel IH]; intros a b H;
    destruct a, b; cbn in H; try discriminate; try reflexivity.
  injection H as -> Hl _ _. cbn. apply (forallb_static _ IH), Hl.
Qed.

Lemma placeable_static fuel : forall a b, static a = static b -> placeable fuel a = placeable fuel b.
Proof.
  induction fuel as [|fuel IH]; intros a b H;
    destruct a, b; cbn in H; try discriminate; try reflexivity.
  injection H as -> Hl _ _. cbn.
  rewrite (forallb_static _ IH _ _ Hl), (is_nil_static _ _ Hl). reflexivity.
Qed.

Lemma placeable_fits fuel : forall item, placeable fuel item = true -> fits fuel item = true.
Proof.
  induction fuel as [|fuel IH]; intros item H; destruct item; cbn in *; try assumption; try reflexivity.
  apply andb_prop in H as [_ H]. rewrite forallb_forall in *. intros e He. apply IH, H, He.
Qed.

Section StepResults.

Variable child : Item -> option Size -> Result (Item * Size).
Variable d : Direction.
Variables margins spacing : Q.
Variable f : nat.

Section Errors.
Hypothesis child_err :
  forall item ms e,
    fits f item = true -> child item ms = Raise e -> is_NotImplementedError e = true.

Lemma step1_err items :
  forall dim n i cum mo e,
    forallb (fun e => fits f (entry_item e)) items = true ->
    step1 child d spacing dim n i items cum mo = Raise e ->
    is_NotImplementedError e = true.
Proof.
  induction items as [|[[[item st] al] xml] rest IH]; intros dim n i cum mo e Hf H.
  - discriminate.
  - cbn in Hf. apply andb_prop in Hf as [Hf1 Hf2]. cbn in H.
    destruct (isinstance_SVGFileNoLayout item).
    + apply bind_Raise in H as [H|(r & Hr & H)]; [eapply IH; eassumption|].
      destruct r as [[[? ?] ?] ?]. discriminate.
    + apply bind_Raise in H as [H|(r & Hr & H)]; [eapply child_err; eassumption|].
      destruct r as [item' isz].
      apply bind_Raise in H as [H|(r & Hr' & H)]; [eapply IH; eassumption|].
      destruct r as [[[? ?] ?] ?]. discriminate.
Qed.

Lemma step2_err items :
  forall hack inc unfilled orth coord n i sizes cum e,
    forallb (fun e => fits f (entry_item e)) items = true ->
    step2 child d margins spacing hack inc unfilled orth coord n i items sizes cum = Raise e ->
    is_NotImplementedError e = true.
Proof.
  induction items as [|[[[item st] al] xml] rest IH];
    intros hack inc unfilled orth coord n i sizes cum e Hf H.
  - discriminate.
  - destruct sizes as [|old sizes]; [discriminate|].
    cbn in Hf. apply andb_prop in Hf as [Hf1 Hf2]. cbn in H.
    apply bind_Raise in H as [H|(r & Hr & H)].
    { destruct (isinstance_SVGFileNoLayout item); [discriminate|].
      eapply child_err; eassumption. }
    destruct r as [item' isz].
    apply bind_Raise in H as [H|(cbc & Hc & H)].
    { unfold child_box_coord in H. destruct d; try discriminate; injection H as <-; reflexivity. }
    destruct (_calc_box _ _ _ _) as [pos fsz].
    apply bind_Raise in H as [H|(r & Hr' & H)]; [eapply IH; eassumption|].
    destruct r. discriminate.
Qed.
End Errors.

Section Success.
Hypothesis child_ok :
  forall item ms, placeable f item = true -> exists r, child item ms = Ok r.

Lemma step1_ok items :
  forall dim n i cum mo,
    forallb (fun e => placeable f (entry_item e)) items = true ->
    exists r, step1 child d spacing dim n i items cum mo = Ok r.
Proof.
  induction items as [|[[[item st] al] xml] rest IH]; intros dim n i cum mo Hf.
  - cbn. eauto.
  - cbn in Hf. apply andb_prop in Hf as [Hf1 Hf2]. cbn.
    destruct (isinstance_SVGFileNoLayout item).
    + destruct (IH dim n (S i) cum mo Hf2) as [[[[? ?] ?] ?] ->]. cbn. eauto.
    + destruct (child_ok item (Some dim) Hf1) as [[item' isz] ->]. cbn.
      edestruct IH as [[[[? ?] ?] ?] ->]; [exact Hf2|]. cbn. eauto.
Qed.

Lemma step2_ok items :
  forall hack inc unfilled orth coord n i sizes cum,
    forward d = true ->
    forallb (fun e => placeable f (entry_item e)) items = true ->
    exists r, step2 child d margins spacing hack inc unfilled orth coord n i items sizes cum = Ok r.
Proof.
  induction items as [|[[[item st] al] xml] rest IH];
    intros hack inc unfilled orth coord n i sizes cum Hd Hf.
  - cbn. eauto.
  - destruct sizes as [|old sizes]; [cbn; eauto|].
    cbn in Hf. apply andb_prop in Hf as [Hf1 Hf2]. cbn.
    assert (exists r, (if isinstance_SVGFileNoLayout item then Ok (item, mkSize 0 0)
                       else child item (Some (new_item_size d hack inc unfilled orth
                                                (n <=? i + 1)%nat st old))) = Ok r) as [[item' isz] ->].
    { destruct (isinstance_SVGFileNoLayout item); [eauto|]. apply child_ok, Hf1. }
    cbn.
    assert (exists c, child_box_coord d margins cum = Ok c) as [c ->].
    { unfold child_box_coord. destruct d; try discriminate; eauto. }
    cbn. destruct (_calc_box _ _ _ _) as [pos fsz].
    edestruct IH as [[? ?] ->]; [exact Hd|exact Hf2|]. cbn. eauto.
Qed.
End Success.

End StepResults.

(** With fuel for the nesting, a size query raises nothing but
    [NotImplementedError]. *)
Lemma get_size_err fuel :
  forall item ms e,
    fits fuel item = true -> get_size fuel item ms = Raise e ->
    is_NotImplementedError e = true.
Proof.
  induction fuel as [|fuel IH]; intros item ms e Hf H.
  - destruct item; cbn in *; discriminate.
  - destruct item as [?|? ? ?|d items m s c sz0]; cbn in H; try discriminate.
    cbn in Hf.
    apply bind_Raise in H as [H|(r & Hr & H)].
    { eapply step1_err; [exact IH | exact Hf | exact H]. }
    destruct r as [[[items1 sizes] cum1] mo].
    apply bind_Raise in H as [H|(r & Hr' & H)]; [|destruct r; discriminate].
    apply (step1_static _ _ _ (get_size_static fuel)) in Hr as [Hs _].
    eapply step2_err; [exact IH | | exact H].
    rewrite <- Hf. apply (forallb_static _ (fits_static fuel)), Hs.
Qed.

(** With fuel for the nesting, a size query succeeds on every tree whose
    non-empty layouts flow forward. *)
Lemma get_size_ok fuel :
  forall item ms,
    placeable fuel item = true -> exists item' sz, get_size fuel item ms = Ok (item', sz).
Proof.
  induction fuel as [|fuel IH]; intros item ms Hp.
  - destruct item; cbn in *; try discriminate; eauto.
  - destruct item as [?|? ? ?|d items m s c sz0]; cbn; eauto.
    cbn in Hp. apply andb_prop in Hp as [Hd Hp].
    assert (forall item ms, placeable fuel item = true -> exists r, get_size fuel item ms = Ok r) as IH'.
    { intros it ms' H. destruct (IH it ms' H) as (? & ? & ->). eauto. }
    unfold measure.
    edestruct (step1_ok (get_size fuel) d s fuel IH' items) as [[[[items1 sizes] cum1] mo] Hr];
      [exact Hp|].
    rewrite Hr. cbn.
    pose proof Hr as Hs.
    apply (step1_static _ _ _ (get_size_static fuel)) in Hs as [Hs _].
    destruct (forward d) eqn:Ed.
    + edestruct (step2_ok (get_size fuel) d m s fuel IH' items1) as [[items2 cum2] ->];
        [exact Ed| |cbn; eauto].
      rewrite <- Hp. apply (forallb_static _ (placeable_static fuel)), Hs.
    + cbn in Hd. destruct items; [|discriminate].
      destruct items1; [|discriminate]. cbn. eauto.
Qed.

(** ** Enough fuel exists *)

Lemma Item_nested_ind (P : Item -> Prop) :
  (forall f, P (SVGFile f)) ->
  (forall f x y, P (SVGFileNoLayout f x y)) ->
  (forall d items m s c sz,
      Forall (fun e : Entry => P (entry_item e)) items -> P (BoxLayout d items m s c sz)) ->
  forall item, P item.
Proof.
  intros Hleaf Hno Hbox. fix IH 1.
  intros [f|f x y|d items m s c sz]; [apply Hleaf|apply Hno|].
  apply Hbox.
  refine ((fix go (l : list Entry) : Forall (fun e : Entry => P (entry_item e)) l :=
             match l with
             | [] => List.Forall_nil _
             | e :: r => List.Forall_cons _ e r (IH (entry_item e)) (go r)
             end) items).
Qed.




(** ** Pass 2 entry by entry *)

Section Placement.

Variable child : Item -> option Size -> Result (Item * Size).
Variable d : Direction.
Variables margins spacing : Q.

(** What pass 2 does with the entry at index [k]: it asks the child for its
    size within the allotted box (a fixed-offset leaf is not asked), and
    places it in that box at the cursor. *)
Lemma step2_entry hack inc unfilled orth coord n items :
  forall i sizes cum items' cum' k item st al xml old,
    step2 child d margins spacing hack inc unfilled orth coord n i items sizes cum
    = Ok (items', cum') ->
    items !! k = Some (item, st, al, xml) ->
    sizes !! k = Some old ->
    let new_sz := new_item_size d hack inc unfilled orth (n <=? i + k + 1)%nat st old in
    exists item' isz cbc,
      (if isinstance_SVGFileNoLayout item then Ok (item, mkSize 0 0)
       else child item (Some new_sz)) = Ok (item', isz)
      /\ child_box_coord d margins
           (cursor_at d spacing hack inc unfilled orth n i items sizes cum k) = Ok cbc
      /\ items' !! k =
         Some (let '(item_pos, final_item_size) :=
                 _calc_box (fst cbc + fst coord, snd cbc + snd coord)%Q new_sz isz al in
               (_set_size (_set_coord item' item_pos) final_item_size, st, al, xml)).
Proof.
  induction items as [|[[[item0 st0] al0] xml0] rest IH];
    intros i sizes cum items' cum' k item st al xml old H Hk Hold new_sz; [discriminate|].
  destruct sizes as [|old0 sizes]; [discriminate|].
  cbn [step2] in H. inv_bind H. destruct r as [item' isz]. inv_bind H.
  destruct (_calc_box _ _ _ _) as [pos fsz] eqn:Ecb. inv_bind H.
  destruct r0 as [rest' c']. injection H as <- <-.
  destruct k as [|k].
  - injection Hk as -> -> -> ->. injection Hold as ->. subst new_sz.
    rewrite Nat.add_0_r. exists item', isz, r. cbn [cursor_at]. rewrite Ecb. auto.
  - cbn in Hk, Hold. subst new_sz.
    destruct (IH _ _ _ _ _ k _ _ _ _ _ Hr1 Hk Hold) as (it' & isz' & cbc & H1 & H2 & H3).
    replace (S i + k + 1)%nat with (i + S k + 1)%nat in * by lia.
    exists it', isz', cbc. cbn [cursor_at]. auto.
Qed.

(** The running total pass 2 returns is the cursor behind the last entry. *)
Lemma step2_total hack inc unfilled orth coord n items :
  forall i sizes cum items' cum',
    step2 child d margins spacing hack inc unfilled orth coord n i items sizes cum
    = Ok (items', cum') ->
    length sizes = length items ->
    cum' = cursor_at d spacing hack inc unfilled orth n i items sizes cum (length items).
Proof.
  induction items as [|[[[item0 st0] al0] xml0] rest IH]; intros i sizes cum items' cum' H Hlen.
  - injection H as _ <-. reflexivity.
  - destruct sizes as [|old0 sizes]; [discriminate|].
    cbn [step2] in H. inv_bind H. destruct r as [item' isz]. inv_bind H.
    destruct (_calc_box _ _ _ _) as [pos fsz]. inv_bind H.
    destruct r0 as [rest' c']. injection H as _ <-.
    cbn [length cursor_at]. apply (IH _ _ _ _ _ Hr1). cbn in Hlen. lia.
Qed.

Lemma step1_lengths items :
  forall dim n i cum mo items1 sizes cum1 mo1,
    step1 child d spacing dim n i items cum mo = Ok (items1, sizes, cum1, mo1) ->
    length items1 = length items /\ length sizes = length items.
Proof.
  induction items as [|[[[item st] al] xml] rest IH];
    intros dim n i cum mo items1 sizes cum1 mo1 H.
  - injection H as <- <- _ _. auto.
  - cbn [step1] in H. destruct (isinstance_SVGFileNoLayout item).
    + inv_bind H. destruct r as [[[? ?] ?] ?]. injection H as <- <- _ _.
      apply IH in Hr as [E1 E2]. cbn [length]. rewrite E1, E2. auto.
    + inv_bind H. destruct r as [? ?]. inv_bind H. destruct r as [[[? ?] ?] ?].
      injection H as <- <- _ _. apply IH in Hr0 as [E1 E2]. cbn [length]. rewrite E1, E2. auto.
Qed.

End Placement.

(** A size query on a layout, entry by entry: after pass 1 every entry is
    allotted the box [allotted_size] names, a flowed child is asked for its
    size within that box, and the entry is placed in it at the cursor; the
    size returned is the cursor behind the last entry plus the margin, by
    the cross-axis maximum plus both margins. *)
Lemma get_size_entries fuel d items m s coord sz0 ms box' size :
  get_size (S fuel) (BoxLayout d items m s coord sz0) ms = Ok (box', size) ->
  let min_size := min_size_or_zero ms in
  exists items1 sizes cum1 orth,
    measure (get_size fuel) d m s items min_size = Ok (items1, sizes, cum1, orth)
    /\ (main_extent d size = slot_cursor d m s min_size items1 sizes cum1 orth (length items1) + m)%Q
    /\ (orth_extent d size = orth + 2 * m)%Q
    /\ forall k item st al xml,
        items1 !! k = Some (item, st, al, xml) ->
        exists new_sz item' isz cbc,
          allotted_size d items1 sizes min_size (cum1 + m) orth k = Some new_sz
          /\ (if isinstance_SVGFileNoLayout item then Ok (item, mkSize 0 0)
              else get_size fuel item (Some new_sz)) = Ok (item', isz)
          /\ child_box_coord d m (slot_cursor d m s min_size items1 sizes cum1 orth k) = Ok cbc
          /\ items_of box' !! k =
             Some (let '(item_pos, final_item_size) :=
                     _calc_box (fst cbc + fst coord, snd cbc + snd coord)%Q new_sz isz al in
                   (_set_size (_set_coord item' item_pos) final_item_size, st, al, xml)).
Proof.
  intros H min_size. cbn [get_size] in H. fold (min_size_or_zero ms) in H. fold min_size in H.
  inv_bind H. destruct r as [[[items1 sizes] cum1] orth].
  inv_bind H. destruct r as [items2 cum2]. injection H as <- <-.
  exists items1, sizes, cum1, orth. split; [exact Hr|].
  pose proof Hr as Hl. unfold measure in Hl. apply step1_lengths in Hl as [Hl1 Hl2].
  assert (length sizes = length items1) as Hlen by congruence.
  split; [|split].
  - pose proof Hr0 as Hc. apply step2_total in Hc; [|exact Hlen]. rewrite Hc.
    unfold main_extent, slot_cursor. destruct (horizontal d); reflexivity.
  - unfold orth_extent. destruct (horizontal d); reflexivity.
  - intros k item st al xml Hk.
    destruct (sizes !! k) as [old|] eqn:Eold.
    2:{ apply lookup_ge_None in Eold. apply lookup_lt_Some in Hk. lia. }
    eapply step2_entry in Hr0 as (item' & isz & cbc & H1 & H2 & H3); [|exact Hk|exact Eold].
    eexists _, item', isz, cbc. split; [|split; [exact H1|split; [exact H2|exact H3]]].
    unfold allotted_size. rewrite Hk, Eold. reflexivity.
Qed.

(** ** Proportional distribution *)

(** C4: a size query on a layout (row or column) whose target leaves a
    positive slack [S] over the pass-1 total, with stretch weights of
    positive sum [W].  Entry [k], of weight [w] and pass-1 size [old], is
    allotted a box whose main-axis length is that of [old] plus
    [S * w / W] (of [old] alone when [w] is 0); this is the box the child is
    asked to fill and is placed in. *)
Theorem stretch_shares_slack :
  forall fuel d items m s coord sz0 ms box' size items1 sizes cum1 orth k item w al xml old,
    let min_size := min_size_or_zero ms in
    let slack := (main_extent d min_size - (cum1 + m))%Q in
    let total := total_stretch items1 in
    get_size (S fuel) (BoxLayout d items m s coord sz0) ms = Ok (box', size) ->
    measure (get_size fuel) d m s items min_size = Ok (items1, sizes, cum1, orth) ->
    items1 !! k = Some (item, w, al, xml) ->
    sizes !! k = Some old ->
    (0 < slack)%Q ->
    (0 < total)%Q ->
    exists new_sz item' isz cbc,
      allotted_size d items1 sizes min_size (cum1 + m) orth k = Some new_sz
      /\ (main_extent d new_sz == main_extent d old + slack * w / total)%Q
      /\ ((w == 0)%Q -> (main_extent d new_sz == main_extent d old)%Q)
      /\ (if isinstance_SVGFileNoLayout item then Ok (item, mkSize 0 0)
          else get_size fuel item (Some new_sz)) = Ok (item', isz)
      /\ child_box_coord d m (slot_cursor d m s min_size items1 sizes cum1 orth k) = Ok cbc
      /\ items_of box' !! k =
         Some (let '(item_pos, final_item_size) :=
                 _calc_box (fst cbc + fst coord, snd cbc + snd coord)%Q new_sz isz al in
               (_set_size (_set_coord item' item_pos) final_item_size, w, al, xml)).
Proof.
  intros fuel d items m s coord sz0 ms box' size items1 sizes cum1 orth k item w al xml old
         min_size slack total Hget Hm Hk Hold HS HW.
  subst min_size slack total.
  destruct (get_size_entries _ _ _ _ _ _ _ _ _ _ Hget)
    as (items1' & sizes' & cum1' & orth' & Hm' & _ & _ & Hent).
  cbn zeta in Hm', Hent. rewrite Hm in Hm'. injection Hm' as <- <- <- <-.
  destruct (Hent _ _ _ _ _ Hk) as (new_sz & item' & isz & cbc & Ha & Hq & Hc & Hp).
  destruct (allotted_share d items1 sizes (min_size_or_zero ms) (cum1 + m) orth k _ old
              Hk Hold HS HW)
    as (sz & Ha' & Hlen & Hzero).
  rewrite Ha in Ha'. injection Ha' as <-.
  exists new_sz, item', isz, cbc. auto 10.
Qed.

Lemma stretch_shares_slack_witness :
  exists box' size new_sz,
    get_size 1 stretch_example (Some (mkSize 240 100)) = Ok (box', size)
    /\ Size_eq size (mkSize 240 100)
    /\ allotted_size LeftToRight (items_of stretch_example) [mkSize 100 100; mkSize 100 100]
                     (mkSize 240 100) (200 + 0) 100 1 = Some new_sz
    /\ (main_extent LeftToRight new_sz == 100 + (240 - (200 + 0)) * 3 / (0 + 1 + 3))%Q
    /\ Forall2 Size_eq (child_sizes box') [mkSize 110 100; mkSize 130 100].
Proof.
  destruct (get_size 1 stretch_example (Some (mkSize 240 100))) as [[box' size]|] eqn:Hget;
    [|vm_compute in Hget; discriminate].
  destruct (stretch_shares_slack 0 LeftToRight (items_of stretch_example) 0 0 (0, 0)%Q None
              (Some (mkSize 240 100)) box' size
              (items_of stretch_example) [mkSize 100 100; mkSize 100 100] 200 100
              1%nat (SVGFile (leaf 1 100 100)) 3 0%Z None (mkSize 100 100))
    as (new_sz & item' & isz & cbc & Ha & Hlen & _ & _ & _ & _).
  - exact Hget.
  - vm_compute. reflexivity.
  - reflexivity.
  - reflexivity.
  - vm_compute. reflexivity.
  - vm_compute. reflexivity.
  - exists box', size, new_sz.
    vm_compute in Hget. injection Hget as <- <-.
    split; [reflexivity|]. split; [split; vm_compute; reflexivity|].
    split; [exact Ha|]. split; [exact Hlen|].
    repeat constructor; vm_compute; reflexivity.
Defined.

(** ** Reversed directions *)

(** C6: a layout with a reversed flow direction (right to left, bottom to
    top) and at least one entry cannot be sized: with fuel for its nesting,
    [get_size] raises [NotImplementedError]. *)
Theorem reversed_direction_not_implemented :
  forall fuel d items m s c sz ms,
    forward d = false ->
    items <> [] ->
    fits fuel (BoxLayout d items m s c sz) = true ->
    exists msg, get_size fuel (BoxLayout d items m s c sz) ms = Raise (NotImplementedError msg).
Proof.
  intros fuel d items m s c sz ms Hd Hne Hf.
  assert (forall r, get_size fuel (BoxLayout d items m s c sz) ms <> Ok r) as Hno.
  { destruct fuel as [|fuel]; [discriminate|]. intros r H. cbn in H.
    inv_bind H. destruct r0 as [[[items1 sizes] cum1] mo].
    inv_bind H. destruct r0 as [items2 cum2].
    apply (step1_static _ _ _ (get_size_static fuel)) in Hr as [Hs Hl].
    destruct items as [|e items]; [contradiction|].
    destruct items1 as [|[[[item st] al] xml] items1]; [discriminate|].
    destruct sizes as [|old sizes]; [discriminate|].
    cbn in Hr0. inv_bind Hr0. destruct r0 as [item' isz].
    apply bind_Ok in Hr0 as (cbc & Hc & _).
    unfold child_box_coord in Hc. destruct d; discriminate. }
  destruct (get_size fuel (BoxLayout d items m s c sz) ms) as [r|e] eqn:E.
  - exfalso. exact (Hno r eq_refl).
  - apply get_size_err in E; [|exact Hf]. destruct e; try discriminate. eauto.
Qed.

Lemma reversed_direction_not_implemented_witness :
  exists msg, get_size 1 (BoxLayout RightToLeft (items_of (one_leaf_in RightToLeft))
                            0 0 (0, 0)%Q None) None
              = Raise (NotImplementedError msg).
Proof.
  apply (reversed_direction_not_implemented 1 RightToLeft (items_of (one_leaf_in RightToLeft))).
  - reflexivity.
  - discriminate.
  - reflexivity.
Defined.

(** C6, as the specification states it, fails on a row of one leaf: flowing
    left to right it is sized 100 x 100, flowing right to left the query
    raises; likewise for a column flowing bottom to top. *)
Lemma reversed_direction_rejected :
  succeeds (get_size 1 (one_leaf_in LeftToRight) None) = true
  /\ get_size 1 (one_leaf_in RightToLeft) None
     = Raise (NotImplementedError "direction RightToLeft not implemented")
  /\ succeeds (get_size 1 (one_leaf_in TopToBottom) None) = true
  /\ get_size 1 (one_leaf_in BottomToTop) None
     = Raise (NotImplementedError "direction BottomToTop not implemented").
Proof. repeat split; vm_compute; reflexivity. Qed.

(** ** Fixed-offset leaves *)

Section NoLayout.

Variable child : Item -> option Size -> Result (Item * Size).
Variable d : Direction.
Variables margins spacing : Q.

Lemma step1_shift items :
  forall dim n i cum mo,
    step1 child d spacing dim (S n) (S i) items cum mo
    = step1 child d spacing dim n i items cum mo.
Proof.
  induction items as [|[[[item st] al] xml] rest IH]; intros dim n i cum mo; [reflexivity|].
  cbn [step1]. rewrite !IH.
  destruct (isinstance_SVGFileNoLayout item); [reflexivity|].
  destruct (child item (Some dim)) as [[item' isz]|e]; [|reflexivity].
  cbn. rewrite !IH. reflexivity.
Qed.

(** Pass 1 over a list with a fixed-offset leaf that is not the last entry
    is pass 1 over the list without it. *)
Lemma step1_skips_no_layout f x y st al xml post pre :
  post <> [] ->
  forall dim n i cum mo,
    (i + length pre + length post <= n)%nat ->
    step1 child d spacing dim (S n) i (pre ++ (SVGFileNoLayout f x y, st, al, xml) :: post) cum mo
    = with_entry_at (length pre) (SVGFileNoLayout f x y, st, al, xml) (mkSize 0 0)
        <$> step1 child d spacing dim n i (pre ++ post) cum mo.
Proof.
  intros Hpost. induction pre as [|[[[item st'] al'] xml'] pre IH]; intros dim n i cum mo Hn.
  - cbn [app length step1 isinstance_SVGFileNoLayout]. rewrite step1_shift.
    destruct (step1 child d spacing dim n i post cum mo) as [[[[? ?] ?] ?]|]; reflexivity.
  - assert (1 <= length post)%nat by (destruct post; [contradiction|cbn; lia]).
    cbn [length] in Hn.
    assert ((i + 1 <? S n)%nat = true) as E1 by (apply Nat.ltb_lt; lia).
    assert ((i + 1 <? n)%nat = true) as E2 by (apply Nat.ltb_lt; lia).
    rewrite <- !app_comm_cons. cbn [length step1]. rewrite E1, E2.
    destruct (isinstance_SVGFileNoLayout item).
    + rewrite IH by lia.
      destruct (step1 child d spacing dim n (S i) (pre ++ post) cum mo) as [[[[? ?] ?] ?]|];
        reflexivity.
    + destruct (child item (Some dim)) as [[item' isz]|e]; [|reflexivity].
      cbn [mbind Result_bind bind]. rewrite IH by lia.
      destruct (step1 child d spacing dim n (S i) (pre ++ post) _ _) as [[[[? ?] ?] ?]|];
        reflexivity.
Qed.

Lemma measure_skips_no_layout f x y st al xml pre post min_size :
  post <> [] ->
  measure child d margins spacing (pre ++ (SVGFileNoLayout f x y, st, al, xml) :: post) min_size
  = with_entry_at (length pre) (SVGFileNoLayout f x y, st, al, xml) (mkSize 0 0)
      <$> measure child d margins spacing (pre ++ post) min_size.
Proof.
  intros Hpost. unfold measure.
  replace (length (pre ++ (SVGFileNoLayout f x y, st, al, xml) :: post))
    with (S (length (pre ++ post))) by (rewrite !length_app; cbn; lia).
  apply step1_skips_no_layout; [assumption|]. rewrite length_app. lia.
Qed.

(** Pass 2 puts a fixed-offset leaf at its offset from the origin of its slot. *)
Lemma step2_no_layout_position f x y st xml post hack inc unfilled orth coord n pre :
  forall i sizes cum items' cum',
    step2 child d margins spacing hack inc unfilled orth coord n i
          (pre ++ (SVGFileNoLayout f x y, st, 0%Z, xml) :: post) sizes cum = Ok (items', cum') ->
    length sizes = length (pre ++ (SVGFileNoLayout f x y, st, 0%Z, xml) :: post) ->
    exists f' cbc,
      items' !! length pre = Some (SVGFileNoLayout f' x y, st, 0%Z, xml)
      /\ child_box_coord d margins
           (cursor_at d spacing hack inc unfilled orth n i
                      (pre ++ (SVGFileNoLayout f x y, st, 0%Z, xml) :: post) sizes cum
                      (length pre)) = Ok cbc
      /\ _coord f' = Some (fst cbc + fst coord + x, snd cbc + snd coord + y)%Q.
Proof.
  induction pre as [|[[[item st'] al'] xml'] pre IH]; intros i sizes cum items' cum' H Hlen.
  - destruct sizes as [|old sizes]; [discriminate|].
    cbn [app length step2 isinstance_SVGFileNoLayout] in H.
    cbn in H. inv_bind H.
    destruct (step2 _ _ _ _ _ _ _ _ _ _ _ _ _ _) as [[rest' c']|]; [|discriminate].
    injection H as <- <-.
    exists (SVGFileBase_set_size
              (SVGFileBase_with_coord f (fst r + fst coord + x, snd r + snd coord + y)%Q)
              (new_item_size d hack inc unfilled orth (n <=? i + 1)%nat st old)), r.
    repeat split. exact Hr.
  - destruct sizes as [|old sizes]; [discriminate|].
    cbn [app length step2] in H.
    inv_bind H. destruct r as [item' isz]. inv_bind H.
    destruct (_calc_box _ _ _ _) as [pos fsz]. inv_bind H.
    destruct r0 as [rest' c']. injection H as <- <-.
    apply IH in Hr1; [|cbn in Hlen; lia].
    destruct Hr1 as (f' & cbc & Hl & Hc & Hf). exists f', cbc. cbn. auto.
Qed.

(** Pass 1 hands a fixed-offset leaf on as it found it. *)
Lemma step1_keeps_no_layout f x y st al xml post pre :
  forall dim n i cum mo items1 sizes cum1 mo1,
    step1 child d spacing dim n i (pre ++ (SVGFileNoLayout f x y, st, al, xml) :: post) cum mo
    = Ok (items1, sizes, cum1, mo1) ->
    exists pre1 post1,
      items1 = pre1 ++ (SVGFileNoLayout f x y, st, al, xml) :: post1
      /\ length pre1 = length pre /\ length sizes = length items1.
Proof.
  assert (forall l dim n i cum mo items1 sizes cum1 mo1,
             step1 child d spacing dim n i l cum mo = Ok (items1, sizes, cum1, mo1) ->
             length sizes = length items1) as Hlen.
  { induction l as [|[[[item st'] al'] xml'] l IH]; intros dim n i cum mo items1 sizes cum1 mo1 H.
    - injection H as <- <- _ _. reflexivity.
    - cbn [step1] in H. destruct (isinstance_SVGFileNoLayout item).
      + inv_bind H. destruct r as [[[? ?] ?] ?]. injection H as <- <- _ _.
        cbn. f_equal. eapply IH, Hr.
      + inv_bind H. destruct r as [? ?]. inv_bind H. destruct r as [[[? ?] ?] ?].
        injection H as <- <- _ _. cbn. f_equal. eapply IH, Hr0. }
  induction pre as [|[[[item st'] al'] xml'] pre IH];
    intros dim n i cum mo items1 sizes cum1 mo1 H.
  - cbn [app step1 isinstance_SVGFileNoLayout] in H.
    inv_bind H. destruct r as [[[rest' sizes'] ?] ?]. injection H as <- <- _ _.
    exists [], rest'. repeat split. cbn. f_equal. eapply Hlen, Hr.
  - rewrite <- app_comm_cons in H. cbn [step1] in H.
    destruct (isinstance_SVGFileNoLayout item).
    + inv_bind H. destruct r as [[[rest' sizes'] ?] ?]. injection H as <- <- _ _.
      apply IH in Hr as (pre1 & post1 & -> & Hl & Hs).
      exists ((item, st', al', xml') :: pre1), post1. cbn. auto.
    + inv_bind H. destruct r as [item' isz]. inv_bind H.
      destruct r as [[[rest' sizes'] ?] ?]. injection H as <- <- _ _.
      apply IH in Hr0 as (pre1 & post1 & -> & Hl & Hs).
      exists ((item', st', al', xml') :: pre1), post1. cbn. auto.
Qed.

End NoLayout.

(** C3: a fixed-offset leaf with offset (x, y) among arbitrary siblings in a
    layout that can be placed.  Pass 1 measures it as nothing: when it is
    not the last entry, the running main-axis total and the cross-axis
    maximum are those of the layout without it.  Pass 2 assigns it the
    position (x, y) plus the origin of its slot, which is the coordinate of
    the containing box plus (cursor, margin) in a row and (margin, cursor) in
    a column, the cursor being the margin plus the allotted lengths and the
    spacing gaps of the entries before it. *)
Theorem no_layout_leaf_placement :
  forall fuel d pre f x y st xml post m s coord sz0 ms,
    let e : Entry := (SVGFileNoLayout f x y, st, 0%Z, xml) in
    let min_size := min_size_or_zero ms in
    placeable (S fuel) (BoxLayout d (pre ++ e :: post) m s coord sz0) = true ->
    (post <> [] ->
     measure (get_size fuel) d m s (pre ++ e :: post) min_size
     = with_entry_at (length pre) e (mkSize 0 0)
         <$> measure (get_size fuel) d m s (pre ++ post) min_size)
    /\ exists items1 sizes cum1 orth box' size f',
        measure (get_size fuel) d m s (pre ++ e :: post) min_size
        = Ok (items1, sizes, cum1, orth)
        /\ get_size (S fuel) (BoxLayout d (pre ++ e :: post) m s coord sz0) ms = Ok (box', size)
        /\ items_of box' !! length pre = Some (SVGFileNoLayout f' x y, st, 0%Z, xml)
        /\ let cursor := slot_cursor d m s min_size items1 sizes cum1 orth (length pre) in
           _coord f' =
           Some (if horizontal d
                 then (cursor + fst coord + x, m + snd coord + y)%Q
                 else (m + fst coord + x, cursor + snd coord + y)%Q).
Proof.
  intros fuel d pre f x y st xml post m s coord sz0 ms e min_size Hp.
  split; [intros Hpost; apply measure_skips_no_layout, Hpost|].
  destruct (get_size_ok _ _ ms Hp) as (box' & size & Hget).
  assert (forward d = true) as Hd.
  { cbn in Hp. apply andb_prop in Hp as [Hp _].
    destruct (forward d); [reflexivity|]. destruct pre; discriminate. }
  pose proof Hget as H. cbn [get_size] in H. fold min_size in H.
  inv_bind H. destruct r as [[[items1 sizes] cum1] orth].
  inv_bind H. destruct r as [items2 cum2]. injection H as <- <-.
  pose proof Hr as Hk. unfold measure in Hk.
  apply step1_keeps_no_layout in Hk as (pre1 & post1 & -> & Hl & Hs).
  pose proof Hr0 as Hpos.
  apply step2_no_layout_position in Hpos as (f' & cbc & Hlook & Hc & Hf); [|exact Hs].
  rewrite Hl in Hlook, Hc.
  exists (pre1 ++ e :: post1), sizes, cum1, orth. eexists _, _, f'.
  split; [exact Hr|]. split; [exact Hget|]. split; [exact Hlook|].
  cbn zeta. unfold slot_cursor. rewrite Hf.
  unfold child_box_coord in Hc.
  destruct d; try discriminate; injection Hc as <-; reflexivity.
Qed.

Lemma no_layout_leaf_placement_witness :
  placeable 1 row_around_no_layout = true
  /\ exists box' size f' px py,
      get_size 1 row_around_no_layout None = Ok (box', size)
      /\ items_of box' !! 1%nat = Some (SVGFileNoLayout f' 10 20, 0%Q, 0%Z, None)
      /\ _coord f' = Some (px, py)
      /\ (px == 120)%Q /\ (py == 20)%Q.
Proof.
  split; [reflexivity|].
  destruct (no_layout_leaf_placement 0 LeftToRight row_before (leaf 1 30 30) 10 20 0 None
              row_after 0 10 (0, 0)%Q None None eq_refl)
    as [_ (items1 & sizes & cum1 & orth & box' & size & f' & Hm & Hg & Hl & Hc)].
  vm_compute in Hm. injection Hm as <- <- <- <-.
  exists box', size, f'. eexists _, _.
  split; [exact Hg|]. split; [exact Hl|]. split; [exact Hc|].
  split; vm_compute; reflexivity.
Defined.

(** C3, as the specification states it, fails on a row with spacing 10 of a
    leaf of 100 x 100 followed by a fixed-offset leaf at (10, 20): the layout
    measures 110 x 100 where the row without the fixed-offset leaf measures
    100 x 100, and the leaf is placed at (120, 20), not at (10, 20) plus the
    box coordinate (0, 0). *)
Lemma no_layout_leaf_depends_on_siblings :
  exists box' box'',
    get_size 1 row_then_no_layout None = Ok (box', mkSize 110 100)
    /\ child_coords box' = [Some (0, 0)%Q; Some (120, 20)%Q]
    /\ get_size 1 row_without_no_layout None = Ok (box'', mkSize 100 100)
    /\ ~ (110 == 100)%Q
    /\ ~ coord_eq (120, 20)%Q (0 + 10, 0 + 20)%Q.
Proof.
  eexists _, _. split; [vm_compute; reflexivity|].
  split; [vm_compute; reflexivity|].
  split; [vm_compute; reflexivity|].
  split; [intros H; vm_compute in H; discriminate|].
  intros [H _]. vm_compute in H. discriminate.
Qed.

(** ** The namespace table *)

Lemma agrees_cons_inv NSMAP key value rest :
  agrees NSMAP ((key, value) :: rest) -> agrees NSMAP rest.
Proof.
  intros H k v Hin. destruct (H k v) as (H1 & H2 & H3); [set_solver|].
  repeat split; [exact H1 | exact H2 |]. intros v' Hv'. apply H3. set_solver.
Qed.

Lemma merge_nsmap_cases items :
  forall NSMAP, table_inv NSMAP ->
    (exists m, merge_nsmap items NSMAP = Ok m /\ table_inv m /\ agrees NSMAP items
               /\ forall k v, m !! k = Some v <->
                              (NSMAP !! k = Some v \/ (k <> Some "svg" /\ (k, v) ∈ items)))
    \/ (merge_nsmap items NSMAP = Raise AssertionError /\ ~ agrees NSMAP items).
Proof.
  induction items as [|[key value] rest IH]; intros NSMAP [Hdef Hsvg].
  - left. exists NSMAP. split; [reflexivity|]. split; [split; assumption|]. split.
    + intros k v Hin. apply elem_of_nil in Hin. contradiction.
    + intros k v. split; [auto|].
      intros [H|[_ H]]; [assumption|apply elem_of_nil in H; contradiction].
  - cbn [merge_nsmap]. destruct (NSMAP !! key) as [bound|] eqn:Ekey.
    + destruct (String.eqb value bound) eqn:Eb.
      * apply String.eqb_eq in Eb. subst bound.
        destruct (IH NSMAP (conj Hdef Hsvg)) as [(m & Hm & Hinv & Hag & Hspec)|[Hm Hag]].
        -- left. exists m. split; [exact Hm|]. split; [exact Hinv|]. split.
           ++ intros k v Hin. apply elem_of_cons in Hin as [[= -> ->]|Hin].
              ** repeat split.
                 --- intros ->. congruence.
                 --- intros v'. congruence.
                 --- intros v' Hv'. apply elem_of_cons in Hv' as [[= ->]|Hv']; [reflexivity|].
                     destruct (Hag key v' Hv') as (_ & H2 & _). symmetry. apply H2, Ekey.
              ** destruct (Hag k v Hin) as (H1 & H2 & H3). repeat split; [exact H1|exact H2|].
                 intros v' Hv'. apply elem_of_cons in Hv' as [[= -> ->]|Hv']; [|apply H3, Hv'].
                 apply H2, Ekey.
           ++ intros k v. rewrite Hspec. split.
              ** intros [H|[H1 H2]]; [left; exact H|right; split; [exact H1|set_solver]].
              ** intros [H|[H1 H2]]; [left; exact H|].
                 apply elem_of_cons in H2 as [[= -> ->]|H2]; [left; exact Ekey|right; auto].
        -- right. split; [exact Hm|]. intros H. apply Hag. eapply agrees_cons_inv, H.
      * right. split; [reflexivity|]. intros H.
        destruct (H key value) as (_ & H2 & _); [set_solver|].
        specialize (H2 bound Ekey). subst bound.
        rewrite String.eqb_refl in Eb. discriminate.
    + case_bool_decide as Esvg.
      * subst key. rewrite Hdef. destruct (String.eqb value uri_svg) eqn:Eb.
        -- apply String.eqb_eq in Eb. subst value.
           destruct (IH NSMAP (conj Hdef Hsvg)) as [(m & Hm & Hinv & Hag & Hspec)|[Hm Hag]].
           ++ left. exists m. split; [exact Hm|]. split; [exact Hinv|]. split.
              ** intros k v Hin. apply elem_of_cons in Hin as [[= -> ->]|Hin].
                 --- repeat split.
                     +++ intros v'. congruence.
                     +++ intros v' Hv'. apply elem_of_cons in Hv' as [[= ->]|Hv']; [reflexivity|].
                         destruct (Hag _ v' Hv') as (H1 & _ & _). symmetry. apply H1. reflexivity.
                 --- destruct (Hag k v Hin) as (H1 & H2 & H3). repeat split; [exact H1|exact H2|].
                     intros v' Hv'. apply elem_of_cons in Hv' as [[= -> ->]|Hv']; [|apply H3, Hv'].
                     apply H1. reflexivity.
              ** intros k v. rewrite Hspec. split.
                 --- intros [H|[H1 H2]]; [left; exact H|right; split; [exact H1|set_solver]].
                 --- intros [H|[H1 H2]]; [left; exact H|].
                     apply elem_of_cons in H2 as [[= -> ->]|H2]; [contradiction|right; auto].
           ++ right. split; [exact Hm|]. intros H. apply Hag. eapply agrees_cons_inv, H.
        -- right. split; [reflexivity|]. intros H.
           destruct (H (Some "svg") value) as (H1 & _ & _); [set_solver|].
           rewrite (H1 eq_refl), String.eqb_refl in Eb. discriminate.
      * assert (key <> None) as Hnone by (intros ->; congruence).
        assert (table_inv (<[key:=value]> NSMAP)) as Hinv'.
        { split; rewrite lookup_insert_ne by congruence; assumption. }
        destruct (IH _ Hinv') as [(m & Hm & Hinv & Hag & Hspec)|[Hm Hag]].
        -- left. exists m. split; [exact Hm|]. split; [exact Hinv|]. split.
           ++ intros k v Hin. apply elem_of_cons in Hin as [[= -> ->]|Hin].
              ** repeat split.
                 --- intros ->. contradiction.
                 --- intros v'. congruence.
                 --- intros v' Hv'. apply elem_of_cons in Hv' as [[= ->]|Hv']; [reflexivity|].
                     destruct (Hag key v' Hv') as (_ & H2 & _). symmetry. apply H2.
                     apply lookup_insert_eq.
              ** destruct (Hag k v Hin) as (H1 & H2 & H3). repeat split; [exact H1| |].
                 --- intros v' Hv'. apply H2. rewrite lookup_insert_ne; [exact Hv'|].
                     intros ->. congruence.
                 --- intros v' Hv'. apply elem_of_cons in Hv' as [[= -> ->]|Hv']; [|apply H3, Hv'].
                     apply H2, lookup_insert_eq.
           ++ intros k v. rewrite Hspec. split.
              ** intros [H|[H1 H2]].
                 --- destruct (decide (key = k)) as [->|Hne].
                     +++ rewrite lookup_insert_eq in H. injection H as ->.
                         right. split; [exact Esvg|set_solver].
                     +++ rewrite lookup_insert_ne in H by exact Hne. left. exact H.
                 --- right. split; [exact H1|set_solver].
              ** intros [H|[H1 H2]].
                 --- left. rewrite lookup_insert_ne; [exact H|]. intros ->. congruence.
                 --- apply elem_of_cons in H2 as [[= -> ->]|H2]; [|right; auto].
                     left. apply lookup_insert_eq.
        -- right. split; [exact Hm|]. intros H. apply Hag.
           intros k v Hin. destruct (H k v) as (H1 & H2 & H3); [set_solver|].
           repeat split; [exact H1| |].
           ++ intros v' Hv'. destruct (decide (key = k)) as [->|Hne].
              ** rewrite lookup_insert_eq in Hv'. injection Hv' as <-. apply H3. set_solver.
              ** rewrite lookup_insert_ne in Hv' by exact Hne. apply H2, Hv'.
           ++ intros v' Hv'. apply H3. set_solver.
Qed.

Lemma merge_nsmap_app a : forall b NSMAP,
  merge_nsmap (a ++ b) NSMAP = merge_nsmap a NSMAP ≫= merge_nsmap b.
Proof.
  induction a as [|[key value] a IH]; intros b NSMAP; [reflexivity|].
  cbn [app merge_nsmap].
  destruct (NSMAP !! key); [destruct (String.eqb value s); [apply IH|reflexivity]|].
  case_bool_decide; [|apply IH].
  destruct (NSMAP !! None); [|reflexivity].
  destruct (String.eqb value s); [apply IH|reflexivity].
Qed.

Lemma collect_nsmap_merge svgfiles : forall NSMAP,
  collect_nsmap svgfiles NSMAP = merge_nsmap (declarations svgfiles) NSMAP.
Proof.
  induction svgfiles as [|f rest IH]; intros NSMAP; [reflexivity|].
  unfold declarations. cbn [collect_nsmap map concat]. rewrite merge_nsmap_app.
  destruct (merge_nsmap (_root_nsmap f) NSMAP); [apply IH|reflexivity].
Qed.

Lemma NSMAP_init_lookup k v :
  NSMAP_init !! k = Some v <-> (k, v) ∈ [(None, uri_svg); (Some "sodipodi", uri_sodipodi)].
Proof.
  unfold NSMAP_init. split.
  - intros H. destruct (decide (k = Some "sodipodi")) as [->|Hne].
    + rewrite lookup_insert_eq in H. injection H as <-. set_solver.
    + rewrite lookup_insert_ne in H by congruence.
      destruct (decide (k = None)) as [->|Hne'].
      * rewrite lookup_insert_eq in H. injection H as <-. set_solver.
      * rewrite lookup_insert_ne, lookup_empty in H by congruence. discriminate.
  - intros H. apply elem_of_cons in H as [[= -> ->]|H].
    + rewrite lookup_insert_ne by discriminate. apply lookup_insert_eq.
    + apply elem_of_cons in H as [[= -> ->]|H]; [apply lookup_insert_eq|set_solver].
Qed.

Lemma NSMAP_init_inv : table_inv NSMAP_init.
Proof. split; reflexivity. Qed.

Lemma builtin_lookup k v :
  (k, v) ∈ builtin_bindings <-> (NSMAP_init !! k = Some v \/ (k = Some "svg" /\ v = uri_svg)).
Proof.
  rewrite NSMAP_init_lookup. unfold builtin_bindings. split.
  - intros H. repeat (apply elem_of_cons in H as [[= -> ->]|H]); [set_solver|set_solver|auto|set_solver].
  - intros [H|[-> ->]]; set_solver.
Qed.

Lemma agrees_consistent decls :
  agrees NSMAP_init decls <-> consistent (builtin_bindings ++ decls).
Proof.
  split.
  - intros Hag k v1 v2 H1 H2.
    apply elem_of_app in H1 as [H1|H1]; apply elem_of_app in H2 as [H2|H2].
    + apply builtin_lookup in H1 as [H1|[-> ->]]; apply builtin_lookup in H2 as [H2|[E ->]];
        try congruence.
      * rewrite E in H1. discriminate.
      * discriminate.
    + destruct (Hag k v2 H2) as (Ha & Hb & _).
      apply builtin_lookup in H1 as [H1|[-> ->]]; [symmetry; apply Hb, H1|symmetry; apply Ha; reflexivity].
    + destruct (Hag k v1 H1) as (Ha & Hb & _).
      apply builtin_lookup in H2 as [H2|[-> ->]]; [apply Hb, H2|apply Ha; reflexivity].
    + destruct (Hag k v1 H1) as (_ & _ & Hc). apply Hc, H2.
  - intros Hc k v Hin. repeat split.
    + intros ->. apply (Hc (Some "svg")); [set_solver|].
      apply elem_of_app. left. apply builtin_lookup. auto.
    + intros v' Hv'. apply (Hc k); [set_solver|].
      apply elem_of_app. left. apply builtin_lookup. auto.
    + intros v' Hv'. apply (Hc k); set_solver.
Qed.

Lemma collect_nsmap_cases svgfiles :
  (exists m, collect_nsmap svgfiles NSMAP_init = Ok m
             /\ consistent (builtin_bindings ++ declarations svgfiles)
             /\ forall k v, m !! k = Some v <->
                            (k <> Some "svg" /\ (k, v) ∈ builtin_bindings ++ declarations svgfiles))
  \/ (collect_nsmap svgfiles NSMAP_init = Raise AssertionError
      /\ ~ consistent (builtin_bindings ++ declarations svgfiles)).
Proof.
  rewrite collect_nsmap_merge.
  destruct (merge_nsmap_cases (declarations svgfiles) NSMAP_init NSMAP_init_inv)
    as [(m & Hm & _ & Hag & Hspec)|[Hm Hag]].
  - left. exists m. split; [exact Hm|]. split; [apply agrees_consistent, Hag|].
    intros k v. rewrite Hspec, elem_of_app, builtin_lookup. split.
    + intros [H|[H1 H2]]; [|auto]. split; [|auto].
      intros ->. discriminate.
    + intros [H1 [[H|[-> _]]|H]]; [auto|contradiction|auto].
  - right. split; [exact Hm|]. rewrite <- agrees_consistent. exact Hag.
Qed.

(** C5: the merge collects the namespace declarations of the source roots of
    the flowed leaves, on top of the built-in bindings of the default prefix
    and of [sodipodi], into the table the output root is created with (the
    prefix [svg] is only checked against the SVG namespace, never entered);
    the collection fails, with an assertion error that ends the merge, if
    and only if some prefix is bound to two different URIs among the
    built-in bindings, [svg] for the SVG namespace, and those declarations. *)
Theorem merge_namespace_table :
  forall (repr : Q -> string) (viewBox_tokens : string -> list string)
         (float : string -> option Q) (self : LayoutAccumulator),
    let decls := builtin_bindings ++ declarations (_svgfiles self) in
    ((exists e, collect_nsmap (_svgfiles self) NSMAP_init = Raise e) <-> ~ consistent decls)
    /\ (~ consistent decls ->
        _make_finalized_root repr viewBox_tokens float self = Raise AssertionError)
    /\ (forall NSMAP root,
          _make_finalized_root repr viewBox_tokens float self = Ok (NSMAP, root) ->
          collect_nsmap (_svgfiles self) NSMAP_init = Ok NSMAP
          /\ consistent decls
          /\ forall k v, NSMAP !! k = Some v <-> (k <> Some "svg" /\ (k, v) ∈ decls)).
Proof.
  intros repr viewBox_tokens float self decls. subst decls.
  destruct (collect_nsmap_cases (_svgfiles self)) as [(m & Hm & Hc & Hspec)|[Hm Hc]].
  - split; [|split].
    + rewrite Hm. split; [intros [e [=]]|intros H; contradiction].
    + intros H. contradiction.
    + intros NSMAP root H. unfold _make_finalized_root in H. rewrite Hm in H.
      cbn [mbind Result_bind bind] in H.
      destruct (wrap_leaves _ _ _ _ _ _) as [[root_defs groups]|]; [|discriminate].
      cbn [mbind Result_bind bind] in H.
      destruct (_size self); [|discriminate]. injection H as <- _. auto.
  - split; [|split].
    + split; [intros _; exact Hc|eauto].
    + intros _. unfold _make_finalized_root. rewrite Hm. reflexivity.
    + intros NSMAP root H. unfold _make_finalized_root in H. rewrite Hm in H. discriminate.
Qed.

(** C5, as the specification states it, fails both ways: one flowed leaf that
    binds [sodipodi] to another URI makes the collection fail although no two
    leaves disagree, and two fixed-offset leaves that bind one prefix to
    different URIs are merged without failure, their declarations left out
    of the table. *)
Lemma namespace_conflict_not_between_two_leaves :
  collect_nsmap [leaf_declaring 0 [(Some "sodipodi", other_uri)]] NSMAP_init
  = Raise AssertionError
  /\ forall repr viewBox_tokens float,
      fst <$> _make_finalized_root repr viewBox_tokens float accum_no_layout_conflict
      = Ok NSMAP_init.
Proof.
  split; [vm_compute; reflexivity|].
  intros repr viewBox_tokens float. vm_compute. reflexivity.
Qed.

(** ** Strings *)

#[local] Arguments String.append !s1 s2 : simpl nomatch.

Lemma append_assoc (a b c : string) : (a +:+ b) +:+ c = a +:+ b +:+ c.
Proof. induction a as [|x a IH]; cbn; [reflexivity|]. rewrite IH. reflexivity. Qed.

Lemma append_length (a b : string) :
  String.length (a +:+ b) = (String.length a + String.length b)%nat.
Proof. induction a as [|x a IH]; cbn; [reflexivity|]. rewrite IH. reflexivity. Qed.

Lemma mem_char_append c (a b : string) :
  mem_char c (a +:+ b) = mem_char c a || mem_char c b.
Proof.
  induction a as [|x a IH]; cbn [append mem_char]; [reflexivity|]. rewrite IH. apply orb_assoc.
Qed.

Lemma strip_prefix_Some p : forall s r, strip_prefix p s = Some r <-> s = p +:+ r.
Proof.
  induction p as [|a p IH]; intros s r; cbn.
  - split; congruence.
  - destruct s as [|b s]; [split; discriminate|].
    destruct (Ascii.eqb_spec a b) as [->|Hne].
    + rewrite IH. split; congruence.
    + split; [discriminate|]. intros [= -> _]. contradiction.
Qed.

Lemma split_last_rparen_sound s : forall group rest,
  split_last_rparen s = Some (group, rest) ->
  s = group +:+ ")" +:+ rest /\ mem_char newline group = false.
Proof.
  induction s as [|c s IH]; intros group rest H; cbn in H; [discriminate|].
  destruct (Ascii.eqb_spec c newline) as [->|Hnl]; [discriminate|].
  destruct (split_last_rparen s) as [[g r]|].
  - injection H as <- <-. destruct (IH g r eq_refl) as [-> Hg]. split; [reflexivity|].
    cbn [mem_char]. rewrite Hg. destruct (Ascii.eqb_spec newline c); [congruence|reflexivity].
  - destruct (Ascii.eqb_spec c ")"%char) as [->|]; [|discriminate].
    injection H as <- <-. auto.
Qed.

Lemma split_last_rparen_no_rparen s :
  mem_char ")"%char s = false -> split_last_rparen s = None.
Proof.
  induction s as [|c s IH]; cbn [mem_char split_last_rparen]; [reflexivity|]. intros H.
  apply orb_false_elim in H as [Hc Hs]. rewrite (IH Hs).
  rewrite (Ascii.eqb_sym c ")"), Hc. destruct (Ascii.eqb c newline); reflexivity.
Qed.

Lemma split_last_rparen_complete name : forall post,
  mem_char newline name = false ->
  mem_char ")"%char post = false ->
  split_last_rparen (name +:+ ")" +:+ post) = Some (name, post).
Proof.
  induction name as [|c name IH]; intros post Hn Hp; cbn [append split_last_rparen].
  - rewrite (split_last_rparen_no_rparen _ Hp). reflexivity.
  - cbn [mem_char] in Hn. apply orb_false_elim in Hn as [Hc Hn].
    pose proof (IH _ Hn Hp) as E. cbn [append] in E.
    rewrite (Ascii.eqb_sym c newline), Hc, E. reflexivity.
Qed.

(** ** The substitution *)

Lemma relIRI_sub_skip prefix a : forall r,
  relIRI_sub prefix (String.length a) (a +:+ r) = relIRI_sub prefix 0 r.
Proof. induction a as [|c a IH]; intros r; cbn; [destruct r; reflexivity|apply IH]. Qed.

Lemma relIRI_sub_match prefix s group rest :
  split_last_rparen s = Some (group, rest) ->
  relIRI_sub prefix 0 ("url(#" +:+ s)
  = "url(#" +:+ prefix +:+ group +:+ ")" +:+ relIRI_sub prefix 0 rest.
Proof.
  intros H.
  assert (strip_prefix "url(#" ("url(#" +:+ s) = Some s) as Es
      by (apply strip_prefix_Some; reflexivity).
  change ("url(#" +:+ s) with (String "u" ("rl(#" +:+ s)) in *.
  cbn [relIRI_sub]. rewrite Es. cbn [mbind option_bind]. rewrite H.
  apply split_last_rparen_sound in H as [-> _].
  do 4 f_equal.
  rewrite <- (append_assoc group), <- (append_assoc "rl(#").
  replace (5 + String.length group)%nat with (String.length ("rl(#" +:+ group +:+ ")")).
  - apply relIRI_sub_skip.
  - rewrite !append_length. cbn [String.length]. lia.
Qed.

Lemma has_relIRI_cons c s : has_relIRI s -> has_relIRI (String c s).
Proof.
  intros (pre & name & post & -> & H). exists (String c pre), name, post. auto.
Qed.

(** A value in which the pattern matches nowhere is left as it is. *)
Lemma relIRI_sub_unchanged prefix value :
  ~ has_relIRI value -> relIRI_sub prefix 0 value = value.
Proof.
  induction value as [|c rest IH]; intros H; [reflexivity|].
  cbn [relIRI_sub].
  destruct (strip_prefix "url(#" (String c rest) ≫= split_last_rparen) as [[group r]|] eqn:E.
  - exfalso. apply H.
    destruct (strip_prefix "url(#" (String c rest)) as [s|] eqn:Es; [|discriminate].
    cbn in E. apply strip_prefix_Some in Es. apply split_last_rparen_sound in E as [-> Hg].
    exists "", group, r. auto.
  - rewrite IH; [reflexivity|]. intros Hr. apply H, has_relIRI_cons, Hr.
Qed.

Lemma no_rparen_no_relIRI s : mem_char ")"%char s = false -> ~ has_relIRI s.
Proof.
  intros H (pre & name & post & -> & _).
  rewrite !mem_char_append in H. cbn [mem_char] in H.
  rewrite Ascii.eqb_refl in H. cbn [orb] in H.
  rewrite !orb_true_r in H. discriminate.
Qed.

Lemma strip_prefix_in_front pre t r :
  pre <> "" ->
  strip_prefix "url(#" (pre +:+ "url(#" +:+ t) = Some r ->
  occurs "url(#" pre.
Proof.
  intros Hne H.
  destruct pre as [|c1 pre]; [contradiction|]. cbn [append strip_prefix] in H.
  destruct (Ascii.eqb_spec "u" c1) as [<-|]; [|discriminate].
  destruct pre as [|c2 pre]; [cbn in H; discriminate|]. cbn [append strip_prefix] in H.
  destruct (Ascii.eqb_spec "r" c2) as [<-|]; [|discriminate].
  destruct pre as [|c3 pre]; [cbn in H; discriminate|]. cbn [append strip_prefix] in H.
  destruct (Ascii.eqb_spec "l" c3) as [<-|]; [|discriminate].
  destruct pre as [|c4 pre]; [cbn in H; discriminate|]. cbn [append strip_prefix] in H.
  destruct (Ascii.eqb_spec "(" c4) as [<-|]; [|discriminate].
  destruct pre as [|c5 pre]; [cbn in H; discriminate|]. cbn [append strip_prefix] in H.
  destruct (Ascii.eqb_spec "#" c5) as [<-|]; [|discriminate].
  exists "", pre. reflexivity.
Qed.

(** A value with one pattern, no closing parenthesis behind it, has the
    prefix put before the fragment name. *)
Lemma relIRI_sub_single prefix name post pre :
  ~ occurs "url(#" pre ->
  mem_char newline name = false ->
  mem_char ")"%char post = false ->
  relIRI_sub prefix 0 (pre +:+ "url(#" +:+ name +:+ ")" +:+ post)
  = pre +:+ "url(#" +:+ prefix +:+ name +:+ ")" +:+ post.
Proof.
  intros Hpre Hn Hp. induction pre as [|c pre IH].
  - change ("" +:+ "url(#" +:+ name +:+ ")" +:+ post) with ("url(#" +:+ (name +:+ ")" +:+ post)).
    rewrite (relIRI_sub_match _ _ name post) by (apply split_last_rparen_complete; assumption).
    rewrite relIRI_sub_unchanged by (apply no_rparen_no_relIRI, Hp). reflexivity.
  - change (String c pre +:+ "url(#" +:+ name +:+ ")" +:+ post)
      with (String c (pre +:+ "url(#" +:+ name +:+ ")" +:+ post)).
    cbn [relIRI_sub].
    destruct (strip_prefix "url(#" (String c (pre +:+ "url(#" +:+ name +:+ ")" +:+ post)))
      as [r|] eqn:E.
    + exfalso. apply Hpre.
      apply (strip_prefix_in_front (String c pre) (name +:+ ")" +:+ post) r); [discriminate|].
      exact E.
    + cbn [mbind option_bind]. rewrite IH; [reflexivity|].
      intros (a & b & ->). apply Hpre. exists (String c a), b. reflexivity.
Qed.

(** ** Attributes *)

Lemma attrib_get_set_eq key value a :
  attrib_get key (attrib_set key value a) = Some value.
Proof.
  induction a as [|[k v] a IH]; cbn [attrib_set attrib_get].
  - rewrite String.eqb_refl. reflexivity.
  - destruct (String.eqb_spec key k) as [->|Hne]; cbn [attrib_get].
    + rewrite String.eqb_refl. reflexivity.
    + destruct (String.eqb_spec key k); [contradiction|exact IH].
Qed.

Lemma attrib_get_set_ne key key' value a :
  key <> key' -> attrib_get key' (attrib_set key value a) = attrib_get key' a.
Proof.
  intros Hne. induction a as [|[k v] a IH]; cbn [attrib_set attrib_get].
  - destruct (String.eqb_spec key' key); [congruence|reflexivity].
  - destruct (String.eqb_spec key k) as [->|Hk]; cbn [attrib_get].
    + destruct (String.eqb_spec key' k); [congruence|reflexivity].
    + destruct (String.eqb_spec key' k); [reflexivity|exact IH].
Qed.

Lemma attrib_keys_set key value a v0 :
  attrib_get key a = Some v0 -> attrib_keys (attrib_set key value a) = attrib_keys a.
Proof.
  unfold attrib_keys. induction a as [|[k v] a IH]; cbn [attrib_set attrib_get]; [discriminate|].
  destruct (String.eqb_spec key k) as [->|Hk]; [reflexivity|].
  intros H. cbn. rewrite (IH H). reflexivity.
Qed.

Lemma fix_attrib_get_eq prefix key value a :
  attrib_get key a = Some value ->
  attrib_get key (fix_attrib prefix key a) = Some (rewritten_value prefix key value).
Proof.
  intros H. unfold fix_attrib, rewritten_value. rewrite H.
  destruct (String.prefix ns_xlink key); cbn [negb andb].
  - destruct (String.prefix "#" value); [apply attrib_get_set_eq|exact H].
  - destruct (String.eqb_spec (relIRI_sub prefix 0 value) value) as [->|Hne]; cbn [negb].
    + exact H.
    + apply attrib_get_set_eq.
Qed.

Lemma fix_attrib_get_ne prefix key key' a :
  key <> key' -> attrib_get key' (fix_attrib prefix key a) = attrib_get key' a.
Proof.
  intros Hne. unfold fix_attrib. destruct (attrib_get key a) as [value|]; [|reflexivity].
  destruct (negb (negb (String.prefix ns_xlink key)) && String.prefix "#" value);
    [apply attrib_get_set_ne, Hne|].
  destruct (negb (String.prefix ns_xlink key)); [|reflexivity].
  destruct (negb _); [apply attrib_get_set_ne, Hne|reflexivity].
Qed.

Lemma fix_attribs_loop_other prefix key keys : forall a,
  key ∉ keys ->
  attrib_get key (fold_left (fun a k => fix_attrib prefix k a) keys a) = attrib_get key a.
Proof.
  induction keys as [|k keys IH]; intros a Hnot; [reflexivity|].
  cbn [fold_left]. rewrite IH by set_solver.
  apply fix_attrib_get_ne. set_solver.
Qed.

Lemma fix_attribs_loop prefix key value keys : forall a,
  NoDup keys -> key ∈ keys -> attrib_get key a = Some value ->
  attrib_get key (fold_left (fun a k => fix_attrib prefix k a) keys a)
  = Some (rewritten_value prefix key value).
Proof.
  induction keys as [|k keys IH]; intros a Hnd Hin Hget; [set_solver|].
  apply NoDup_cons in Hnd as [Hk Hnd]. cbn [fold_left].
  destruct (decide (k = key)) as [->|Hne].
  - rewrite fix_attribs_loop_other by exact Hk. apply fix_attrib_get_eq, Hget.
  - apply IH; [exact Hnd|set_solver|].
    rewrite fix_attrib_get_ne by exact Hne. exact Hget.
Qed.

Lemma attrib_get_in_keys key value a : attrib_get key a = Some value -> key ∈ attrib_keys a.
Proof.
  unfold attrib_keys. induction a as [|[k v] a IH]; cbn [attrib_get]; [discriminate|].
  destruct (String.eqb_spec key k) as [->|Hk]; cbn; [set_solver|].
  intros H. apply elem_of_cons. right. exact (IH H).
Qed.

(** Every attribute but [id] of an element of the SVG namespace ends with
    the value lines 97-109 compute from its own value. *)
Lemma fix_ids_attribute prefix level t a cs key value :
  String.prefix ns_svg t = true ->
  NoDup (attrib_keys a) ->
  attrib_get key a = Some value ->
  key <> "id" ->
  attrib_get key (attrib (fix_ids (Elem (Some t) a cs) prefix level))
  = Some (rewritten_value prefix key value).
Proof.
  intros Ht Hnd Hget Hid.
  cbn [fix_ids attrib in_svg_namespace tag]. rewrite Ht. unfold fix_attribs.
  destruct (attrib_get "id" a) as [i|] eqn:Ei.
  - rewrite (attrib_keys_set _ _ _ _ Ei).
    apply fix_attribs_loop; [exact Hnd|eapply attrib_get_in_keys, Hget|].
    rewrite attrib_get_set_ne by congruence. exact Hget.
  - apply fix_attribs_loop; [exact Hnd|eapply attrib_get_in_keys, Hget|exact Hget].
Qed.

(** The rewriter reaches every element of the tree: the element at a path
    of the result is the rewritten element at that path of the input. *)
Lemma subtree_at_fix_ids path : forall e prefix level,
  subtree_at path (fix_ids e prefix level)
  = (fun c => fix_ids c prefix (level + length path)) <$> subtree_at path e.
Proof.
  induction path as [|i rest IH]; intros [t a cs] prefix level.
  - cbn [subtree_at length fmap option_fmap option_map]. rewrite Nat.add_0_r. reflexivity.
  - cbn [subtree_at fix_ids children length]. rewrite list_lookup_fmap.
    destruct (cs !! i) as [c|]; cbn [fmap option_fmap option_map]; [|reflexivity].
    rewrite IH. replace (S level + length rest)%nat with (level + S (length rest))%nat by lia.
    reflexivity.
Qed.

(** C2: [fix_ids], for a prefix without backslash, rewrites every element
    of the subtree it is called on, at every depth and also below elements
    of other namespaces: the element at a path of the result has the tag of
    the element at that path of the input, and when that element is of the
    SVG namespace its attributes are rewritten as follows.  An attribute of
    the link (xlink) namespace whose value starts with [#] gets the prefix
    before the fragment name, and any other xlink value is left as it is;
    every other attribute (but [id]) is rewritten through the functional
    pattern only: a value in which the pattern matches nowhere is left byte
    for byte unchanged, also when it starts with [#], and a value holding one
    pattern [url(#name)], with no closing parenthesis behind it, has it
    rewritten to [url(#prefix+name)]. *)
Theorem fix_ids_rewrites_references :
  forall prefix level root path t a cs key value,
    backslash_free prefix ->
    subtree_at path root = Some (Elem (Some t) a cs) ->
    String.prefix ns_svg t = true ->
    NoDup (attrib_keys a) ->
    attrib_get key a = Some value ->
    key <> "id" ->
    exists a' cs',
      subtree_at path (fix_ids root prefix level) = Some (Elem (Some t) a' cs')
      /\ let result := attrib_get key a' in
         (String.prefix ns_xlink key = true -> String.prefix "#" value = true ->
          result = Some ("#" +:+ prefix +:+ str_tail value))
         /\ (String.prefix ns_xlink key = true -> String.prefix "#" value = false ->
             result = Some value)
         /\ (String.prefix ns_xlink key = false -> ~ has_relIRI value -> result = Some value)
         /\ (String.prefix ns_xlink key = false ->
             forall pre name post,
               value = pre +:+ "url(#" +:+ name +:+ ")" +:+ post ->
               ~ occurs "url(#" pre ->
               mem_char newline name = false ->
               mem_char ")"%char post = false ->
               result = Some (pre +:+ "url(#" +:+ prefix +:+ name +:+ ")" +:+ post)).
Proof.
  intros prefix level root path t a cs key value _ Hpath Ht Hnd Hget Hid.
  pose proof (subtree_at_fix_ids path root prefix level) as Hsub. rewrite Hpath in Hsub.
  cbn [fmap option_fmap option_map] in Hsub.
  pose proof (fix_ids_attribute prefix (level + length path) t a cs key value Ht Hnd Hget Hid)
    as Hattr.
  destruct (fix_ids (Elem (Some t) a cs) prefix (level + length path)) as [t' a' cs'] eqn:E.
  assert (t' = Some t) as -> by (cbn [fix_ids] in E; congruence).
  exists a', cs'. split; [exact Hsub|].
  cbn [attrib] in Hattr. cbn zeta. rewrite Hattr. unfold rewritten_value.
  repeat split.
  - intros -> ->. reflexivity.
  - intros -> ->. reflexivity.
  - intros -> Hno. rewrite relIRI_sub_unchanged by exact Hno. reflexivity.
  - intros -> pre name post -> Hpre Hn Hp. rewrite relIRI_sub_single by assumption. reflexivity.
Qed.

Lemma fix_ids_rewrites_references_witness :
  backslash_free "id0:"
  /\ subtree_at [1; 0]%nat example_tree = Some example_rect
  /\ exists a' cs',
      subtree_at [1; 0]%nat (fix_ids example_tree "id0:" 0)
      = Some (Elem (Some (ns_svg +:+ "rect")) a' cs')
      /\ attrib_get "style" a' = Some "fill:url(#id0:g)"
      /\ attrib_get (ns_xlink +:+ "href") a' = Some "#id0:a".
Proof.
  split; [reflexivity|]. split; [reflexivity|].
  assert (NoDup (attrib_keys (attrib example_rect))) as Hnd
      by (apply (bool_decide_unpack _); vm_compute; reflexivity).
  destruct (fix_ids_rewrites_references "id0:" 0 example_tree [1; 0]%nat
              (ns_svg +:+ "rect") (attrib example_rect) [] "style" "fill:url(#g)"
              eq_refl eq_refl eq_refl Hnd eq_refl) as (a' & cs' & Hsub & _ & _ & _ & H);
    [discriminate|].
  exists a', cs'. split; [exact Hsub|]. split.
  - apply (H eq_refl "fill:" "g" ""); try reflexivity.
    intros (x & y & Hxy). destruct x as [|c1 [|c2 [|c3 [|c4 [|c5 [|c6 x]]]]]]; discriminate.
  - vm_compute in Hsub. injection Hsub as <- _. reflexivity.
Defined.

(** C2, as the specification states it, fails on an attribute outside the
    link namespace whose value starts with [#]: the colour [#ff0000] of a
    [fill] attribute is left unchanged, not rewritten to [#id0:ff0000]. *)
Lemma fix_ids_keeps_hash_values :
  attrib (fix_ids example_rect "id0:" 0)
  = [("id", "id0:r"); ("fill", "#ff0000"); (ns_xlink +:+ "href", "#id0:a");
     ("style", "fill:url(#id0:g)")]
  /\ String.prefix ns_xlink "fill" = false
  /\ String.prefix "#" "#ff0000" = true
  /\ attrib_get "fill" (attrib (fix_ids example_rect "id0:" 0)) <> Some "#id0:ff0000".
Proof.
  split; [vm_compute; reflexivity|]. split; [reflexivity|]. split; [reflexivity|].
  vm_compute. discriminate.
Qed.

(** ** The render pass and the canvas size *)

Section RenderFacts.

Variable repr : Q -> string.

Lemma add_extra_size accum item xml accum' :
  add_extra repr accum item xml = Ok accum' -> _size accum' = _size accum.
Proof.
  unfold add_extra. destruct xml; [|intros [= <-]; reflexivity].
  destruct (coord_of (item_coord item)); cbn; [|discriminate]. intros [= <-]. reflexivity.
Qed.

Lemma render_leaf_size add style debug accum f accum' :
  (forall a g a', add a g = Ok a' -> _size a' = _size a) ->
  render_leaf repr add style debug accum f = Ok accum' -> _size accum' = _size accum.
Proof.
  intros Hadd H. unfold render_leaf in H. inv_bind H. apply Hadd in Hr.
  destruct (0 <? debug)%Z; [|injection H as <-; exact Hr].
  inv_bind H. injection H as <-. exact Hr.
Qed.

Lemma add_svg_file_size a g a' : add_svg_file a g = Ok a' -> _size a' = _size a.
Proof. unfold add_svg_file. destruct (contains_obj _ _); [discriminate|]. intros [= <-]. reflexivity. Qed.

Lemma add_svg_file_no_layout_size a g a' :
  add_svg_file_no_layout a g = Ok a' -> _size a' = _size a.
Proof.
  unfold add_svg_file_no_layout. destruct (contains_obj _ _); [discriminate|].
  intros [= <-]. reflexivity.
Qed.

Section Items.
Variable child_render :
  Item -> LayoutAccumulator -> option Size -> Result (Item * LayoutAccumulator).
Hypothesis child_keeps_size :
  forall item accum ms item' accum',
    child_render item accum ms = Ok (item', accum') -> _size accum' = _size accum.

Lemma render_items_size debug items : forall accum items' accum',
  render_items repr child_render debug items accum = Ok (items', accum') ->
  _size accum' = _size accum.
Proof.
  induction items as [|[[[item st] al] xml] rest IH]; intros accum items' accum' H.
  - injection H as <- <-. reflexivity.
  - cbn [render_items] in H. inv_bind H. destruct r as [item1 accum1].
    inv_bind H. inv_bind H. destruct r0 as [rest' accum3]. injection H as <- <-.
    apply IH in Hr1. apply add_extra_size in Hr0. rewrite Hr1, Hr0.
    destruct item as [f|f x y|d its m s c sz].
    + inv_bind Hr. injection Hr as <- <-.
      eapply render_leaf_size, Hr2. apply add_svg_file_size.
    + inv_bind Hr. injection Hr as <- <-.
      eapply render_leaf_size, Hr2. apply add_svg_file_no_layout_size.
    + eapply child_keeps_size, Hr.
Qed.
End Items.

(** Below the top level a render pass does not touch the canvas size. *)
Lemma render_nested_size debug fuel : forall item accum ms level item' accum',
  render repr fuel item accum ms (S level) debug = Ok (item', accum') ->
  _size accum' = _size accum.
Proof.
  induction fuel as [|fuel IH]; intros item accum ms level item' accum' H; [discriminate|].
  cbn [render] in H. destruct item as [| |d items m s c sz]; try discriminate.
  inv_bind H. destruct r as [self size]. destruct self as [| |d' items' m' s' c' sz']; try discriminate.
  inv_bind H. destruct r as [items2 accum2]. injection H as <- <-.
  eapply render_items_size in Hr0; [|intros ? ? ? ? ?; apply IH].
  rewrite Hr0. cbn [Nat.eqb]. destruct (0 <? debug)%Z; reflexivity.
Qed.

(** The top-level render pass records the size the root layout computes. *)
Lemma render_records_canvas_size debug fuel layout layout'' accum :
  render repr fuel layout LayoutAccumulator_init None 0 debug = Ok (layout'', accum) ->
  exists layout' size,
    get_size fuel layout None = Ok (layout', size) /\ _size accum = Some size.
Proof.
  intros H. destruct fuel as [|fuel]; [discriminate|].
  cbn [render] in H. destruct layout as [| |d items m s c sz]; try discriminate.
  inv_bind H. destruct r as [self size]. exists self, size. split; [exact Hr|].
  destruct self as [| |d' items' m' s' c' sz']; try discriminate.
  inv_bind H. destruct r as [items2 accum2]. injection H as <- <-.
  eapply render_items_size in Hr0; [|intros ? ? ? ? ?; apply render_nested_size].
  rewrite Hr0. cbn [Nat.eqb]. destruct (0 <? debug)%Z; reflexivity.
Qed.

End RenderFacts.

(** ** The finalized root *)

Lemma number_from_leaves n do_layout svgfiles :
  map snd (number_from n do_layout svgfiles) = svgfiles.
Proof.
  revert n. induction svgfiles as [|f l IH]; intros n; cbn; [reflexivity|].
  rewrite IH. reflexivity.
Qed.

(** * Further properties *)

(** ** Units *)

Lemma append_nil_r (s : string) : s +:+ "" = s.
Proof. induction s as [|c s IH]; cbn [append]; [reflexivity|]. rewrite IH. reflexivity. Qed.

Lemma strip_suffix_spec suffix s : forall r,
  strip_suffix suffix s = Some r <-> s = r +:+ suffix.
Proof.
  induction s as [|c s IH]; intros r.
  - cbn [strip_suffix]. destruct (String.eqb_spec "" suffix) as [<-|Hne].
    + split; [intros [= <-]; reflexivity|]. intros H. destruct r; [reflexivity|discriminate].
    + split; [discriminate|]. intros H. destruct r; cbn [append] in H; [congruence|discriminate].
  - cbn [strip_suffix]. destruct (String.eqb_spec (String c s) suffix) as [<-|Hne].
    + split; [intros [= <-]; reflexivity|]. intros H.
      destruct r as [|c' r]; [reflexivity|]. exfalso.
      apply (f_equal String.length) in H. cbn [append String.length] in H.
      rewrite append_length in H. cbn [String.length] in H. lia.
    + destruct (strip_suffix suffix s) as [r'|]; cbn [fmap option_fmap option_map].
      * pose proof (proj1 (IH r') eq_refl) as E. split; [intros [= <-]; subst s; reflexivity|].
        intros H. destruct r as [|c' r]; cbn [append] in H; [congruence|].
        injection H as <- H. apply IH in H. congruence.
      * split; [discriminate|]. intros H.
        destruct r as [|c' r]; cbn [append] in H; [congruence|].
        injection H as <- H. apply IH in H. discriminate.
Qed.

Lemma append_inj_same_length (a a' b b' : string) :
  a +:+ b = a' +:+ b' -> String.length b = String.length b' -> a = a' /\ b = b'.
Proof.
  revert a'. induction a as [|c a IH]; intros a' H Hlen.
  - destruct a' as [|c' a']; [auto|]. exfalso.
    apply (f_equal String.length) in H. cbn [append String.length] in H.
    rewrite append_length in H. lia.
  - destruct a' as [|c' a'].
    + exfalso. apply (f_equal String.length) in H. cbn [append String.length] in H.
      rewrite append_length in H. lia.
    + cbn [append] in H. injection H as <- H. destruct (IH _ H Hlen) as [-> ->]. auto.
Qed.

Lemma find_unit_suffix s u units :
  (forall u', u' ∈ units -> String.length u' = String.length u) ->
  u ∈ units ->
  find_unit units (s +:+ u) = (Some u, s).
Proof.
  induction units as [|u' units IH]; intros Hlen Hin; [set_solver|].
  cbn [find_unit]. destruct (strip_suffix u' (s +:+ u)) as [r|] eqn:E.
  - apply strip_suffix_spec in E. apply append_inj_same_length in E as [-> ->]; [reflexivity|].
    symmetry. apply Hlen. set_solver.
  - apply elem_of_cons in Hin as [->|Hin].
    + assert (strip_suffix u' (s +:+ u') = Some s) as E' by (apply strip_suffix_spec; reflexivity).
      congruence.
    + apply IH; [|exact Hin]. intros u'' H. apply Hlen. set_solver.
Qed.

Lemma find_unit_none value units :
  (forall u r, u ∈ units -> value <> r +:+ u) ->
  find_unit units value = (None, value).
Proof.
  induction units as [|u units IH]; intros H; [reflexivity|].
  cbn [find_unit]. destruct (strip_suffix u value) as [r|] eqn:E.
  - apply strip_suffix_spec in E. exfalso. apply (H u r); [set_solver|exact E].
  - apply IH. intros u' r Hu'. apply H. set_solver.
Qed.

Lemma find_unit_in value units u v :
  find_unit units value = (Some u, v) -> u ∈ units /\ value = v +:+ u.
Proof.
  induction units as [|u' units IH]; cbn [find_unit]; [discriminate|].
  destruct (strip_suffix u' value) as [r|] eqn:E.
  - intros [= <- <-]. apply strip_suffix_spec in E. split; [set_solver|exact E].
  - intros H. apply IH in H as [H1 H2]. split; [set_solver|exact H2].
Qed.

Lemma UNITS_length u : u ∈ UNITS -> String.length u = 2%nat.
Proof.
  unfold UNITS. intros H.
  repeat (apply elem_of_cons in H as [->|H]; [reflexivity|]). set_solver.
Qed.

Lemma get_unit_attr_suffix (float : string -> option Q) (s u : string) :
  u ∈ UNITS ->
  get_unit_attr float (s +:+ u)
  = match float s with
    | Some v => Ok (v, Some u)
    | None => Raise (ValueError "could not convert string to float")
    end.
Proof.
  intros Hu. unfold get_unit_attr.
  rewrite find_unit_suffix; [reflexivity| |exact Hu].
  intros u' Hu'. rewrite (UNITS_length _ Hu), (UNITS_length _ Hu'). reflexivity.
Qed.

(** X1: [get_unit_attr] takes a value that ends with one of the five units apart
    at the unit and hands the text before it to [float]; a value that ends
    with none of them goes to [float] whole and has no unit. *)
Theorem get_unit_attr_splits_at_unit :
  forall (float : string -> option Q) (s u value : string),
    (u ∈ UNITS ->
     get_unit_attr float (s +:+ u)
     = match float s with
       | Some v => Ok (v, Some u)
       | None => Raise (ValueError "could not convert string to float")
       end)
    /\ ((forall u' r, u' ∈ UNITS -> value <> r +:+ u') ->
        get_unit_attr float value
        = match float value with
          | Some v => Ok (v, None)
          | None => Raise (ValueError "could not convert string to float")
          end).
Proof.
  intros float s u value. split.
  - apply get_unit_attr_suffix.
  - intros H. unfold get_unit_attr. rewrite find_unit_none by exact H. reflexivity.
Qed.

Lemma convert_to_pixels_unit val u : u ∈ UNITS -> exists px, convert_to_pixels val (Some u) = Ok px.
Proof.
  unfold UNITS. intros H.
  repeat (apply elem_of_cons in H as [->|H]; [cbn; eauto|]). set_solver.
Qed.

(** X2: whatever [get_unit_attr] returns, [convert_to_pixels] converts: its
    error for an unsupported unit is not reached from a parsed attribute. *)
Theorem parsed_units_convert :
  forall (float : string -> option Q) value val units,
    get_unit_attr float value = Ok (val, units) ->
    exists px, convert_to_pixels val units = Ok px.
Proof.
  intros float value val units H. unfold get_unit_attr in H.
  destruct (find_unit UNITS value) as [[u|] v] eqn:E.
  - apply find_unit_in in E as [Hu _].
    destruct (float v); [|discriminate]. injection H as <- <-.
    apply convert_to_pixels_unit, Hu.
  - destruct (float v); [|discriminate]. injection H as <- <-. cbn. eauto.
Qed.

Lemma parsed_units_convert_witness :
  get_unit_attr example_float_nat "200pt" = Ok (200%Q, Some "pt")
  /\ exists px, convert_to_pixels 200 (Some "pt") = Ok px.
Proof.
  split; [vm_compute; reflexivity|].
  apply (parsed_units_convert example_float_nat "200pt" 200 (Some "pt")).
  vm_compute. reflexivity.
Defined.

(** X3: an inch, 72 points and 2.54 centimetres all convert to 90 pixels per
    inch, where 25.4 millimetres convert to 96: the units disagree on every
    length but zero. *)
Theorem convert_to_pixels_inch :
  forall v : Q,
  exists a b c d,
    convert_to_pixels v (Some "in") = Ok a
    /\ convert_to_pixels (72 * v) (Some "pt") = Ok b
    /\ convert_to_pixels ((254 # 100) * v) (Some "cm") = Ok c
    /\ convert_to_pixels ((254 # 10) * v) (Some "mm") = Ok d
    /\ (a == 90 * v)%Q /\ (b == 90 * v)%Q /\ (c == 90 * v)%Q /\ (d == 96 * v)%Q
    /\ (~ (v == 0)%Q -> ~ (a == d)%Q).
Proof.
  intros v. eexists _, _, _, _.
  split; [reflexivity|]. split; [reflexivity|]. split; [reflexivity|]. split; [reflexivity|].
  unfold IN2PT, PT2PX, CM2PT, MM_PER_INCH, PX_PER_INCH.
  assert (v * 72 * (125 # 100) == 90 * v)%Q as Ha by (field).
  assert ((254 # 10) * v / (254 # 10) * 96 == 96 * v)%Q as Hd by (field).
  split; [exact Ha|]. split; [field|]. split; [field|]. split; [exact Hd|].
  intros Hv H. rewrite Ha, Hd in H. apply Hv. lra.
Qed.

(** ** The size a source document declares *)

Lemma split_on_piece sep t :
  mem_char sep t = false -> split_on sep t = [t].
Proof.
  induction t as [|c t IH]; cbn [mem_char split_on]; [reflexivity|]. intros H.
  apply orb_false_elim in H as [Hc Ht]. rewrite (Ascii.eqb_sym c sep), Hc, (IH Ht). reflexivity.
Qed.

Lemma split_on_app sep t rest :
  mem_char sep t = false ->
  split_on sep (t +:+ String sep rest) = t :: split_on sep rest.
Proof.
  induction t as [|c t IH]; cbn [mem_char split_on append].
  - intros _. rewrite Ascii.eqb_refl. reflexivity.
  - intros H. apply orb_false_elim in H as [Hc Ht].
    rewrite (Ascii.eqb_sym c sep), Hc, (IH Ht). reflexivity.
Qed.

(** X4: a root without [height] attribute takes its size from the last two of
    the four space-separated numbers of [viewBox], in pixels. *)
Theorem new_leaf_size_from_viewBox :
  forall (float : string -> option Q) id fname root nsmap x y ws hs w h,
    tag_is root (ns_svg +:+ "svg") = true ->
    attrib_get "height" (attrib root) = None ->
    attrib_get "viewBox" (attrib root) = Some (x +:+ " " +:+ y +:+ " " +:+ ws +:+ " " +:+ hs) ->
    mem_char " " x = false -> mem_char " " y = false ->
    mem_char " " ws = false -> mem_char " " hs = false ->
    float ws = Some w -> float hs = Some h ->
    SVGFileBase_new float id fname root nsmap = Ok (SVGFileBase_init id fname root nsmap w h).
Proof.
  intros float id fname root nsmap x y ws hs w h Htag Hh Hvb Hx Hy Hws Hhs Hw Hfh.
  unfold SVGFileBase_new, declared_size. rewrite Htag, Hh, Hvb. cbn [negb].
  change (" " +:+ y +:+ " " +:+ ws +:+ " " +:+ hs)
    with (String " " (y +:+ String " " (ws +:+ String " " hs))).
  rewrite !split_on_app, (split_on_piece _ hs) by assumption.
  rewrite Hw, Hfh. reflexivity.
Qed.

Lemma new_leaf_size_from_viewBox_witness :
  SVGFileBase_new example_float_nat 0 "a.svg" viewBox_root []
  = Ok (SVGFileBase_init 0 "a.svg" viewBox_root [] 640 480).
Proof.
  apply (new_leaf_size_from_viewBox example_float_nat 0 "a.svg" viewBox_root [] "0" "0" "640" "480");
    reflexivity.
Defined.

(** X5: a root with [height] and [width] attributes that end with a unit gets
    the converted attribute values as its size, whatever its [viewBox]. *)
Theorem new_leaf_size_from_attributes :
  forall (float : string -> option Q) id fname root nsmap ws wu hs hu w h,
    tag_is root (ns_svg +:+ "svg") = true ->
    attrib_get "height" (attrib root) = Some (hs +:+ hu) ->
    attrib_get "width" (attrib root) = Some (ws +:+ wu) ->
    hu ∈ UNITS -> wu ∈ UNITS ->
    float hs = Some h -> float ws = Some w ->
    exists width_px height_px,
      convert_to_pixels w (Some wu) = Ok width_px
      /\ convert_to_pixels h (Some hu) = Ok height_px
      /\ SVGFileBase_new float id fname root nsmap
         = Ok (SVGFileBase_init id fname root nsmap width_px height_px).
Proof.
  intros float id fname root nsmap ws wu hs hu w h Htag Hh Hw Hhu Hwu Hfh Hfw.
  destruct (convert_to_pixels_unit w wu Hwu) as [width_px Ew].
  destruct (convert_to_pixels_unit h hu Hhu) as [height_px Eh].
  exists width_px, height_px. split; [exact Ew|]. split; [exact Eh|].
  unfold SVGFileBase_new, declared_size, get_unit_attr_of. rewrite Htag, Hh, Hw. cbn [negb].
  rewrite (get_unit_attr_suffix float hs hu Hhu), Hfh.
  cbn [mbind Result_bind bind].
  rewrite (get_unit_attr_suffix float ws wu Hwu), Hfw.
  cbn [mbind Result_bind bind]. rewrite Ew. cbn [mbind Result_bind bind]. rewrite Eh. reflexivity.
Qed.

Lemma new_leaf_size_from_attributes_witness :
  exists width_px height_px,
    convert_to_pixels 200 (Some "pt") = Ok width_px
    /\ convert_to_pixels 1 (Some "in") = Ok height_px
    /\ SVGFileBase_new example_float_nat 0 "a.svg" sized_root []
       = Ok (SVGFileBase_init 0 "a.svg" sized_root [] width_px height_px).
Proof.
  apply (new_leaf_size_from_attributes example_float_nat 0 "a.svg" sized_root []
           "200" "pt" "1" "in" 200 1); try reflexivity.
  - apply (bool_decide_unpack _). vm_compute. reflexivity.
  - apply (bool_decide_unpack _). vm_compute. reflexivity.
Defined.

(** X6: what [SVGFileBase.__init__] rejects: a root that is not [svg:svg]
    ([ValueError]); a [height] that parses without a [width] attribute
    ([AttributeError], also when a [viewBox] is there); neither [height] nor
    [viewBox] ([AttributeError]); a [viewBox] that does not split into four
    pieces at single spaces ([ValueError]). *)
Theorem new_leaf_rejections :
  forall (float : string -> option Q) id fname root nsmap,
    (tag_is root (ns_svg +:+ "svg") = false ->
     SVGFileBase_new float id fname root nsmap
     = Raise (ValueError "expected file to have root element <svg:svg>"))
    /\ (tag_is root (ns_svg +:+ "svg") = true ->
        (forall hs r, attrib_get "height" (attrib root) = Some hs ->
                      get_unit_attr float hs = Ok r ->
                      attrib_get "width" (attrib root) = None ->
                      SVGFileBase_new float id fname root nsmap = Raise AttributeError)
        /\ (attrib_get "height" (attrib root) = None ->
            attrib_get "viewBox" (attrib root) = None ->
            SVGFileBase_new float id fname root nsmap = Raise AttributeError)
        /\ (forall vbox, attrib_get "height" (attrib root) = None ->
                         attrib_get "viewBox" (attrib root) = Some vbox ->
                         length (split_on " " vbox) <> 4%nat ->
                         SVGFileBase_new float id fname root nsmap
                         = Raise (ValueError "not enough or too many values to unpack"))).
Proof.
  intros float id fname root nsmap. split.
  - intros H. unfold SVGFileBase_new. rewrite H. reflexivity.
  - intros Htag. unfold SVGFileBase_new, declared_size, get_unit_attr_of. rewrite Htag.
    cbn [negb]. split; [|split].
    + intros hs [v u] Hh Hget Hw. rewrite Hh, Hget, Hw. reflexivity.
    + intros Hh Hvb. rewrite Hh, Hvb. reflexivity.
    + intros vbox Hh Hvb Hlen. rewrite Hh, Hvb.
      destruct (split_on " " vbox) as [|a [|b [|c [|e [|g l]]]]]; try reflexivity.
      cbn in Hlen. contradiction.
Qed.

(** ** What a size query keeps, and when it succeeds *)

(** X7: a size query changes mutable fields only: the directions, margins,
    spacings, the order of the entries with their weights, alignments and
    decorations, and the identity, source and original size of every leaf
    are afterwards what they were. *)
Theorem size_query_keeps_structure :
  forall fuel item ms item' sz,
    get_size fuel item ms = Ok (item', sz) -> static item' = static item.
Proof. intros fuel item ms item' sz H. eapply get_size_static, H. Qed.

Lemma size_query_keeps_structure_witness :
  exists item' sz,
    get_size 2 row_with_column (Some (mkSize 300 300)) = Ok (item', sz)
    /\ static item' = static row_with_column.
Proof.
  destruct (get_size 2 row_with_column (Some (mkSize 300 300))) as [[item' sz]|] eqn:E;
    [|vm_compute in E; discriminate].
  exists item', sz. split; [reflexivity|].
  exact (size_query_keeps_structure 2 row_with_column (Some (mkSize 300 300)) item' sz E).
Defined.

Section StepSuccess.

Variable child : Item -> option Size -> Result (Item * Size).
Variable d : Direction.
Variables margins spacing : Q.
Variable P : Item -> bool.
Hypothesis P_no_layout : forall f x y, P (SVGFileNoLayout f x y) = true.
Hypothesis child_P : forall item ms r, child item ms = Ok r -> P item = true.

Lemma step1_Ok_children items :
  forall dim n i cum mo r,
    step1 child d spacing dim n i items cum mo = Ok r ->
    forallb (fun e => P (entry_item e)) items = true.
Proof.
  induction items as [|[[[item st] al] xml] rest IH]; intros dim n i cum mo r H; [reflexivity|].
  cbn [step1] in H. cbn [forallb]. apply andb_true_intro.
  change (entry_item (item, st, al, xml)) with item.
  destruct (isinstance_SVGFileNoLayout item) eqn:E.
  - inv_bind H. split; [|eapply IH, Hr].
    destruct item; try discriminate. apply P_no_layout.
  - inv_bind H. destruct r0 as [? ?]. inv_bind H.
    split; [eapply child_P, Hr|eapply IH, Hr0].
Qed.

End StepSuccess.

Lemma get_size_Ok_placeable fuel :
  forall item ms r, get_size fuel item ms = Ok r -> placeable fuel item = true.
Proof.
  induction fuel as [|fuel IH]; intros item ms r H.
  - destruct item; [reflexivity|reflexivity|discriminate].
  - destruct item as [f|f x y|d items m s c sz0]; [reflexivity|reflexivity|].
    cbn [get_size] in H. inv_bind H. destruct r0 as [[[items1 sizes] cum1] orth].
    inv_bind H. destruct r0 as [items2 cum2].
    cbn [placeable]. apply andb_true_intro. split.
    + destruct items as [|e items]; [apply orb_true_r|].
      pose proof Hr as Hlen. unfold measure in Hlen. apply step1_lengths in Hlen as [Hl1 Hl2].
      destruct items1 as [|[[[item st] al] xml] items1]; [discriminate|].
      destruct sizes as [|old sizes]; [discriminate|].
      cbn [step2] in Hr0. inv_bind Hr0. destruct r0 as [? ?]. inv_bind Hr0.
      unfold child_box_coord in Hr2. destruct d; try discriminate; reflexivity.
    + unfold measure in Hr.
      eapply (step1_Ok_children _ _ _ (placeable fuel)); [intros; destruct fuel; reflexivity| |exact Hr].
      intros item ms' r' H'. eapply IH, H'.
Qed.

(** X8: a size query succeeds exactly when the fuel covers the nesting and every
    layout of the tree that has entries flows left to right or top to
    bottom. *)
Theorem size_query_succeeds_iff_forward :
  forall fuel item ms,
    (exists item' sz, get_size fuel item ms = Ok (item', sz)) <-> placeable fuel item = true.
Proof.
  intros fuel item ms. split.
  - intros (item' & sz & H). eapply get_size_Ok_placeable, H.
  - apply get_size_ok.
Qed.



(** ** Alignment *)

(** X10: an item no larger than its box is placed inside the box, whatever the
    alignment flags: its result rectangle does not reach over any edge. *)
Theorem calc_box_inside :
  forall in_pos in_sz item_sz alignment,
    (0 <= width item_sz <= width in_sz)%Q ->
    (0 <= height item_sz <= height in_sz)%Q ->
    let pos := fst (_calc_box in_pos in_sz item_sz alignment) in
    let sz := snd (_calc_box in_pos in_sz item_sz alignment) in
    (fst in_pos <= fst pos)%Q /\ (fst pos + width sz <= fst in_pos + width in_sz)%Q
    /\ (snd in_pos <= snd pos)%Q /\ (snd pos + height sz <= snd in_pos + height in_sz)%Q
    /\ (0 <= width sz)%Q /\ (0 <= height sz)%Q.
Proof.
  intros in_pos in_sz item_sz alignment [Hw0 Hw] [Hh0 Hh]. unfold _calc_box.
  destruct (has_flag AlignLeft alignment), (has_flag AlignRight alignment),
    (has_flag AlignHCenter alignment), (has_flag AlignTop alignment),
    (has_flag AlignBottom alignment), (has_flag AlignVCenter alignment);
    cbn [fst snd width height]; repeat split; lra.
Qed.

Lemma calc_box_inside_witness :
  let pos := fst (_calc_box (5, 5)%Q (mkSize 100 80) (mkSize 40 20) AlignCenter) in
  let sz := snd (_calc_box (5, 5)%Q (mkSize 100 80) (mkSize 40 20) AlignCenter) in
  (5 <= fst pos)%Q /\ (fst pos + width sz <= 5 + 100)%Q
  /\ (5 <= snd pos)%Q /\ (snd pos + height sz <= 5 + 80)%Q
  /\ (0 <= width sz)%Q /\ (0 <= height sz)%Q.
Proof.
  apply (calc_box_inside (5, 5)%Q (mkSize 100 80) (mkSize 40 20) AlignCenter);
    split; vm_compute; discriminate.
Defined.

(** X11: with a centre flag and no edge flag on an axis the item keeps its size
    and the space left in the box is split evenly: the gap before the item
    equals the gap behind it.  With no flag on an axis the item takes the
    position and the length of the box. *)
Theorem calc_box_centres_and_fills :
  forall in_pos in_sz item_sz alignment,
    let pos := fst (_calc_box in_pos in_sz item_sz alignment) in
    let sz := snd (_calc_box in_pos in_sz item_sz alignment) in
    (has_flag AlignLeft alignment = false -> has_flag AlignRight alignment = false ->
     has_flag AlignHCenter alignment = true ->
     width sz = width item_sz
     /\ (fst pos - fst in_pos == (fst in_pos + width in_sz) - (fst pos + width sz))%Q)
    /\ (has_flag AlignTop alignment = false -> has_flag AlignBottom alignment = false ->
        has_flag AlignVCenter alignment = true ->
        height sz = height item_sz
        /\ (snd pos - snd in_pos == (snd in_pos + height in_sz) - (snd pos + height sz))%Q)
    /\ (has_horizontal_flag alignment = false ->
        fst pos = fst in_pos /\ width sz = width in_sz)
    /\ (has_vertical_flag alignment = false ->
        snd pos = snd in_pos /\ height sz = height in_sz).
Proof.
  intros in_pos in_sz item_sz alignment. unfold _calc_box, has_horizontal_flag, has_vertical_flag.
  destruct (has_flag AlignLeft alignment), (has_flag AlignRight alignment),
    (has_flag AlignHCenter alignment), (has_flag AlignTop alignment),
    (has_flag AlignBottom alignment), (has_flag AlignVCenter alignment);
    cbn [fst snd width height orb]; (split; [|split; [|split]]); intros;
    try discriminate; (split; [reflexivity|first [reflexivity|ring]]).
Qed.

(** ** The size a layout returns *)

Lemma gaps_S s k : (gaps s (S (S k)) == s + gaps s (S k))%Q.
Proof.
  unfold gaps. cbn [Nat.pred]. rewrite Nat2Z.inj_succ. unfold Z.succ.
  rewrite inject_Z_plus. change (inject_Z 1) with 1%Q. ring.
Qed.

Lemma gaps_1 s : (gaps s 1 == 0)%Q.
Proof. unfold gaps. change (inject_Z (Z.of_nat (Nat.pred 1))) with 0%Q. ring. Qed.

Lemma gaps_0 s : (gaps s 0 == 0)%Q.
Proof. unfold gaps. change (inject_Z (Z.of_nat (Nat.pred 0))) with 0%Q. ring. Qed.

Lemma fold_stretch_sum items :
  forall a, (fold_left (fun acc (e : Entry) => acc + snd (fst (fst e))) items a
             == a + sum_stretch items)%Q.
Proof.
  induction items as [|e rest IH]; intros a; cbn [fold_left].
  - unfold sum_stretch. cbn [foldr]. ring.
  - rewrite IH. unfold sum_stretch, entry_stretch. cbn [foldr]. ring.
Qed.

Lemma total_stretch_sum items : (total_stretch items == sum_stretch items)%Q.
Proof. unfold total_stretch. rewrite fold_stretch_sum. ring. Qed.

Lemma sum_stretch_static a :
  forall b, map static_entry a = map static_entry b -> sum_stretch a = sum_stretch b.
Proof.
  induction a as [|[[[i1 s1] a1] x1] a IH]; intros [|[[[i2 s2] a2] x2] b] H; try discriminate;
    [reflexivity|].
  cbn [map static_entry] in H. injection H as _ <- _ _ H.
  cbn [sum_stretch foldr]. fold (sum_stretch a). fold (sum_stretch b).
  rewrite (IH b H). reflexivity.
Qed.

Lemma pymax_0_nonpos (x : Q) : (x <= 0)%Q -> pymax 0 x = 0%Q.
Proof. intros H. unfold pymax. apply Qle_bool_iff in H. rewrite H. reflexivity. Qed.

Lemma Qgt_bool_false (a b : Q) : (a <= b)%Q -> Qgt_bool a b = false.
Proof. intros H. unfold Qgt_bool. apply Qle_bool_iff in H. rewrite H. reflexivity. Qed.

Section Totals.

Variable child : Item -> option Size -> Result (Item * Size).
Variable d : Direction.
Variable spacing : Q.

(** Pass 1 over flowed entries: the running total grows by every length
    and by one spacing between two entries; the cross-axis maximum is the
    running [max]. *)
Lemma step1_cum items :
  forall dim n i cum mo items1 sizes cum1 mo1,
    all_flowed items = true ->
    step1 child d spacing dim n i items cum mo = Ok (items1, sizes, cum1, mo1) ->
    n = (i + length items)%nat ->
    (cum1 == cum + sum_main d sizes + gaps spacing (length items))%Q
    /\ mo1 = fold_left pymax (map (orth_extent d) sizes) mo.
Proof.
  induction items as [|[[[item st] al] xml] rest IH];
    intros dim n i cum mo items1 sizes cum1 mo1 Hfl H Hn.
  - injection H as <- <- <- <-. split; [|reflexivity].
    cbn [sum_main foldr length]. rewrite gaps_0. ring.
  - cbn [all_flowed forallb] in Hfl. apply andb_prop in Hfl as [Hi Hfl].
    change (entry_item (item, st, al, xml)) with item in Hi.
    apply negb_true_iff in Hi. cbn [step1] in H. rewrite Hi in H.
    inv_bind H. destruct r as [item' isz]. inv_bind H. destruct r as [[[rest' sizes'] c'] m'].
    injection H as <- <- <- <-.
    apply IH in Hr0 as [Hc Hm]; [|exact Hfl|cbn [length] in Hn; lia].
    split; [|exact Hm].
    rewrite Hc. cbn [sum_main foldr length]. fold (sum_main d sizes').
    destruct rest as [|e' rest'']; cbn [length] in *.
    + replace (i + 1 <? n)%nat with false by (symmetry; apply Nat.ltb_ge; lia).
      rewrite gaps_0, gaps_1. ring.
    + replace (i + 1 <? n)%nat with true by (symmetry; apply Nat.ltb_lt; lia).
      rewrite gaps_S. ring.
Qed.

(** Pass 2 outside the tie-break: the cursor behind the last entry is the
    start plus the pass-1 lengths, the weighted shares and the gaps. *)
Lemma cursor_total inc unfilled orth items :
  forall n i sizes cum,
    length sizes = length items ->
    n = (i + length items)%nat ->
    (cursor_at d spacing false inc unfilled orth n i items sizes cum (length items)
     == cum + sum_main d sizes + inc * sum_stretch items + gaps spacing (length items))%Q.
Proof.
  induction items as [|[[[item st] al] xml] rest IH]; intros n i sizes cum Hlen Hn.
  - destruct sizes; [|discriminate]. cbn [cursor_at length sum_main sum_stretch foldr].
    rewrite gaps_0. ring.
  - destruct sizes as [|old sizes]; [discriminate|].
    cbn [length cursor_at]. rewrite main_extent_new_item_size. cbn [andb].
    rewrite IH; [|cbn [length] in Hlen; lia|cbn [length] in Hn; lia].
    cbn [sum_main sum_stretch foldr]. fold (sum_main d sizes). fold (sum_stretch rest).
    change (entry_stretch (item, st, al, xml)) with st.
    destruct rest as [|e' rest'']; cbn [length] in *.
    + replace (n <=? i + 1)%nat with true by (symmetry; apply Nat.leb_le; lia).
      rewrite gaps_0, gaps_1. ring.
    + replace (n <=? i + 1)%nat with false by (symmetry; apply Nat.leb_gt; lia).
      rewrite gaps_S. ring.
Qed.

(** Pass 1 over flowed leaves changes no entry and reads every size off
    the leaf. *)
Lemma step1_leaves items :
  forall dim n i cum mo items1 sizes cum1 mo1,
    (forall f ms, child (SVGFile f) ms = Ok (SVGFile f, mkSize (_width_px f) (_height_px f))) ->
    all_leaves items = true ->
    step1 child d spacing dim n i items cum mo = Ok (items1, sizes, cum1, mo1) ->
    items1 = items /\ sizes = map (fun e => item_size (entry_item e)) items.
Proof.
  induction items as [|[[[item st] al] xml] rest IH];
    intros dim n i cum mo items1 sizes cum1 mo1 Hch Hl H.
  - injection H as <- <- _ _. auto.
  - cbn [all_leaves forallb] in Hl. apply andb_prop in Hl as [Hi Hl].
    destruct item as [f| |]; try discriminate.
    cbn [step1 isinstance_SVGFileNoLayout] in H. rewrite Hch in H.
    inv_bind H. injection Hr as <-. inv_bind H. destruct r as [[[rest' sizes'] c'] m'].
    injection H as <- <- _ _.
    apply IH in Hr as [-> ->]; [|exact Hch|exact Hl]. auto.
Qed.

End Totals.

Lemma all_leaves_flowed items : all_leaves items = true -> all_flowed items = true.
Proof.
  unfold all_leaves, all_flowed. induction items as [|e rest IH]; [reflexivity|].
  cbn [forallb]. intros [H1 H2]%andb_prop. rewrite (IH H2), andb_true_r.
  destruct (entry_item e); try discriminate; reflexivity.
Qed.

(** The main-axis size of a layout outside the tie-break, in terms of the
    results of pass 1. *)
Lemma get_size_main_length fuel d items m s coord sz0 ms box' size items1 sizes cum1 orth :
  get_size (S fuel) (BoxLayout d items m s coord sz0) ms = Ok (box', size) ->
  measure (get_size fuel) d m s items (min_size_or_zero ms) = Ok (items1, sizes, cum1, orth) ->
  all_flowed items = true ->
  let unfilled := dim_unfilled_length d (min_size_or_zero ms) (cum1 + m) in
  stretch_hack unfilled (total_stretch items1) = false ->
  (cum1 + m == natural_length d m s sizes)%Q
  /\ (main_extent d size
      == cum1 + m + stretch_inc unfilled (total_stretch items1) * sum_stretch items1)%Q
  /\ orth_extent d size
     = (fold_left pymax (map (orth_extent d) sizes) (orth_extent d (min_size_or_zero ms))
        + 2 * m)%Q.
Proof.
  intros H Hm Hfl unfilled Hhack.
  apply get_size_entries in H as (items1' & sizes' & cum1' & orth' & Hm' & Hmain & Horth & _).
  rewrite Hm in Hm'. injection Hm' as <- <- <- <-.
  pose proof Hm as Hs. unfold measure in Hs.
  pose proof Hs as Hl. apply step1_lengths in Hl as [Hl1 Hl2].
  apply step1_cum in Hs as [Hc Ho]; [|exact Hfl|reflexivity].
  split; [|split].
  - rewrite Hc. unfold natural_length. rewrite Hl2. ring.
  - rewrite Hmain. unfold slot_cursor. fold unfilled. rewrite Hhack.
    rewrite cursor_total; [|congruence|reflexivity].
    rewrite Hc, Hl1. ring.
  - rewrite Horth, Ho. reflexivity.
Qed.

(** X12: with a non-zero total weight and no fixed-offset entry, a layout
    returns along its flow axis the larger of two lengths: its natural
    length (both margins, the pass-1 lengths of the entries and one spacing
    between two entries) and the target.  Across the flow it returns the
    largest cross-axis size of target and entries plus both margins. *)
Theorem layout_fills_target :
  forall fuel d items m s coord sz0 ms box' size items1 sizes cum1 orth,
    get_size (S fuel) (BoxLayout d items m s coord sz0) ms = Ok (box', size) ->
    measure (get_size fuel) d m s items (min_size_or_zero ms) = Ok (items1, sizes, cum1, orth) ->
    all_flowed items = true ->
    ~ (sum_stretch items == 0)%Q ->
    (main_extent d size
     == Qmax (natural_length d m s sizes) (main_extent d (min_size_or_zero ms)))%Q
    /\ orth_extent d size
       = (fold_left pymax (map (orth_extent d) sizes) (orth_extent d (min_size_or_zero ms))
          + 2 * m)%Q.
Proof.
  intros fuel d items m s coord sz0 ms box' size items1 sizes cum1 orth H Hm Hfl HW.
  assert (sum_stretch items1 = sum_stretch items) as HS.
  { pose proof Hm as Hs. unfold measure in Hs.
    apply step1_static in Hs as [Hs _]; [apply sum_stretch_static, Hs|].
    intros item ms' item' sz' H'. eapply get_size_static, H'. }
  assert (~ (total_stretch items1 == 0)%Q) as HW1.
  { rewrite total_stretch_sum, HS. exact HW. }
  eapply get_size_main_length in H as (Hn & Hmain & Horth); [|exact Hm|exact Hfl|].
  2:{ unfold stretch_hack. rewrite (Qeq_bool_false _ _ HW1). apply andb_false_r. }
  split; [|exact Horth].
  rewrite Hmain. unfold stretch_inc. rewrite (Qeq_bool_false _ _ HW1).
  unfold dim_unfilled_length.
  set (t := main_extent d (min_size_or_zero ms)) in *.
  destruct (Qlt_le_dec 0 (t - (cum1 + m))) as [Hpos|Hneg].
  - rewrite (pymax_0_pos _ Hpos), (Qgt_bool_true _ _ Hpos).
    rewrite <- Hn. rewrite Q.max_r by lra.
    rewrite <- total_stretch_sum. field. exact HW1.
  - rewrite (pymax_0_nonpos _ Hneg). rewrite Qgt_bool_false by lra.
    rewrite <- Hn. rewrite Q.max_l by lra. ring.
Qed.

Lemma layout_fills_target_witness :
  exists box' size,
    get_size 1 row_of_three (Some (mkSize 300 0)) = Ok (box', size)
    /\ (main_extent LeftToRight size
        == Qmax (natural_length LeftToRight 5 10 [mkSize 100 40; mkSize 30 60; mkSize 50 50])
                300)%Q
    /\ orth_extent LeftToRight size
       = (fold_left pymax (map (orth_extent LeftToRight)
                             [mkSize 100 40; mkSize 30 60; mkSize 50 50]) 0 + 2 * 5)%Q.
Proof.
  destruct (get_size 1 row_of_three (Some (mkSize 300 0))) as [[box' size]|] eqn:Hget;
    [|vm_compute in Hget; discriminate].
  exists box', size. split; [reflexivity|].
  apply (layout_fills_target 0 LeftToRight (items_of row_of_three) 5 10 (0, 0)%Q None
           (Some (mkSize 300 0)) box' size (items_of row_of_three)
           [mkSize 100 40; mkSize 30 60; mkSize 50 50] 205 60).
  - exact Hget.
  - vm_compute. reflexivity.
  - reflexivity.
  - vm_compute. discriminate.
Defined.

(** X13: a layout of flowed leaves that is asked for its size without a target
    returns its natural size, whatever the weights and alignments: along
    the flow both margins, the lengths of the leaves and one spacing between
    two leaves; across the flow the largest leaf plus both margins. *)
Theorem natural_size_of_leaves :
  forall fuel d items m s coord sz0 box' size,
    get_size (S fuel) (BoxLayout d items m s coord sz0) None = Ok (box', size) ->
    all_leaves items = true ->
    let sizes := map (fun e => item_size (entry_item e)) items in
    (0 <= natural_length d m s sizes)%Q ->
    (main_extent d size == natural_length d m s sizes)%Q
    /\ orth_extent d size = (fold_left pymax (map (orth_extent d) sizes) 0 + 2 * m)%Q.
Proof.
  intros fuel d items m s coord sz0 box' size H Hl sizes Hnat.
  pose proof H as H0.
  apply get_size_entries in H0 as (items1 & sizes1 & cum1 & orth & Hm & _).
  pose proof Hm as Hs. unfold measure in Hs.
  apply step1_leaves in Hs as [-> Hsz]; [|intros; destruct fuel; reflexivity|exact Hl].
  fold sizes in Hsz. subst sizes1.
  assert (dim_unfilled_length d (min_size_or_zero None) (cum1 + m) = 0%Q) as Hu.
  { unfold dim_unfilled_length. apply pymax_0_nonpos.
    pose proof Hm as Hs. unfold measure in Hs.
    apply step1_cum in Hs as [Hc _]; [|apply all_leaves_flowed, Hl|reflexivity].
    assert (cum1 + m == natural_length d m s sizes)%Q as E.
    { rewrite Hc. unfold natural_length, sizes. rewrite length_map. ring. }
    assert (main_extent d (min_size_or_zero None) = 0%Q) as ->
      by (unfold main_extent; destruct (horizontal d); reflexivity).
    lra. }
  eapply get_size_main_length in H as (Hn & Hmain & Horth);
    [|exact Hm|apply all_leaves_flowed, Hl|].
  2:{ rewrite Hu. reflexivity. }
  split.
  - rewrite Hmain, Hu. unfold stretch_inc. cbn [Qgt_bool Qle_bool]. rewrite <- Hn.
    change (Qgt_bool 0 0) with false. cbn iota. ring.
  - rewrite Horth.
    assert (orth_extent d (min_size_or_zero None) = 0%Q) as ->
      by (unfold orth_extent; destruct (horizontal d); reflexivity).
    reflexivity.
Qed.

Lemma natural_size_of_leaves_witness :
  exists box' size,
    get_size 1 row_of_three None = Ok (box', size)
    /\ (main_extent LeftToRight size
        == natural_length LeftToRight 5 10 [mkSize 100 40; mkSize 30 60; mkSize 50 50])%Q
    /\ orth_extent LeftToRight size
       = (fold_left pymax (map (orth_extent LeftToRight)
                             [mkSize 100 40; mkSize 30 60; mkSize 50 50]) 0 + 2 * 5)%Q.
Proof.
  destruct (get_size 1 row_of_three None) as [[box' size]|] eqn:Hget;
    [|vm_compute in Hget; discriminate].
  exists box', size. split; [reflexivity|].
  apply (natural_size_of_leaves 0 LeftToRight (items_of row_of_three) 5 10 (0, 0)%Q None
           box' size).
  - exact Hget.
  - reflexivity.
  - vm_compute. discriminate.
Defined.

(** ** What a size query does to a flowed leaf *)

Section LeafEntries.

Variable child : Item -> option Size -> Result (Item * Size).
Variable d : Direction.
Variable spacing : Q.
Hypothesis child_leaf :
  forall f ms, child (SVGFile f) ms = Ok (SVGFile f, mkSize (_width_px f) (_height_px f)).

(** Pass 1 leaves a flowed leaf as it is and records its size. *)
Lemma step1_lookup_leaf items :
  forall dim n i cum mo items1 sizes cum1 mo1 k f st al xml,
    step1 child d spacing dim n i items cum mo = Ok (items1, sizes, cum1, mo1) ->
    items !! k = Some (SVGFile f, st, al, xml) ->
    items1 !! k = Some (SVGFile f, st, al, xml)
    /\ sizes !! k = Some (mkSize (_width_px f) (_height_px f)).
Proof.
  induction items as [|[[[item0 st0] al0] xml0] rest IH];
    intros dim n i cum mo items1 sizes cum1 mo1 k f st al xml H Hk; [discriminate|].
  cbn [step1] in H. destruct (isinstance_SVGFileNoLayout item0) eqn:E.
  - inv_bind H. destruct r as [[[rest' sizes'] c'] m']. injection H as <- <- _ _.
    destruct k as [|k]; [injection Hk as -> _ _ _; discriminate|].
    cbn [lookup list_lookup] in *. eapply IH; [exact Hr|exact Hk].
  - inv_bind H. destruct r as [item' isz]. inv_bind H. destruct r as [[[rest' sizes'] c'] m'].
    injection H as <- <- _ _.
    destruct k as [|k].
    + injection Hk as -> -> -> ->. rewrite child_leaf in Hr. injection Hr as <- <-. auto.
    + cbn [lookup list_lookup] in *. eapply IH; [exact Hr0|exact Hk].
Qed.

End LeafEntries.

Lemma calc_box_keeps_aligned in_pos in_sz item_sz al :
  (has_horizontal_flag al = true ->
   width (snd (_calc_box in_pos in_sz item_sz al)) = width item_sz)
  /\ (has_vertical_flag al = true ->
      height (snd (_calc_box in_pos in_sz item_sz al)) = height item_sz)
  /\ (has_horizontal_flag al = false ->
      width (snd (_calc_box in_pos in_sz item_sz al)) = width in_sz)
  /\ (has_vertical_flag al = false ->
      height (snd (_calc_box in_pos in_sz item_sz al)) = height in_sz).
Proof.
  unfold _calc_box, has_horizontal_flag, has_vertical_flag.
  destruct (has_flag AlignLeft al), (has_flag AlignRight al), (has_flag AlignHCenter al),
    (has_flag AlignTop al), (has_flag AlignBottom al), (has_flag AlignVCenter al);
    cbn [fst snd width height orb]; repeat split; intros; try discriminate; reflexivity.
Qed.

(** A flowed leaf after the size query of its layout: the same leaf with a
    position and the size that [_calc_box] gave it within its allotted box. *)
Lemma leaf_entry_after_query fuel d items m s coord sz0 ms box' size items1 sizes cum1 orth
      k f st al xml :
  get_size (S fuel) (BoxLayout d items m s coord sz0) ms = Ok (box', size) ->
  measure (get_size fuel) d m s items (min_size_or_zero ms) = Ok (items1, sizes, cum1, orth) ->
  items !! k = Some (SVGFile f, st, al, xml) ->
  exists new_sz pos fsz,
    allotted_size d items1 sizes (min_size_or_zero ms) (cum1 + m) orth k = Some new_sz
    /\ snd (_calc_box pos new_sz (mkSize (_width_px f) (_height_px f)) al) = fsz
    /\ items_of box' !! k
       = Some (SVGFile (SVGFileBase_set_size
                          (SVGFileBase_with_coord f
                             (fst (_calc_box pos new_sz
                                       (mkSize (_width_px f) (_height_px f)) al)))
                          fsz), st, al, xml).
Proof.
  intros H Hm Hk.
  apply get_size_entries in H as (items1' & sizes' & cum1' & orth' & Hm' & _ & _ & Hent).
  rewrite Hm in Hm'. injection Hm' as <- <- <- <-.
  unfold measure in Hm.
  eapply step1_lookup_leaf in Hm as [Hk1 _]; [| |exact Hk].
  2:{ intros; destruct fuel; reflexivity. }
  destruct (Hent _ _ _ _ _ Hk1) as (new_sz & item' & isz & cbc & Ha & Hg & _ & Hbox).
  cbn [isinstance_SVGFileNoLayout] in Hg.
  assert (item' = SVGFile f /\ isz = mkSize (_width_px f) (_height_px f)) as [-> ->].
  { destruct fuel; cbn in Hg; injection Hg as <- <-; auto. }
  exists new_sz, (fst cbc + fst coord, snd cbc + snd coord)%Q.
  eexists. split; [exact Ha|]. split; [reflexivity|].
  rewrite Hbox. destruct (_calc_box _ _ _ _) as [pos fsz]. reflexivity.
Qed.

Lemma Qeq_bool_refl (a : Q) : Qeq_bool a a = true.
Proof. apply Qeq_bool_iff. reflexivity. Qed.

Lemma set_size_width f sz : (_width_px (SVGFileBase_set_size f sz) == width sz)%Q.
Proof.
  unfold SVGFileBase_set_size. cbn [_width_px].
  destruct (Qeq_bool (_width_px f) (width sz)) eqn:E; [|reflexivity].
  apply Qeq_bool_iff in E. exact E.
Qed.

Lemma set_size_height f sz : (_height_px (SVGFileBase_set_size f sz) == height sz)%Q.
Proof.
  unfold SVGFileBase_set_size. cbn [_height_px].
  destruct (Qeq_bool (_height_px f) (height sz)) eqn:E; [|reflexivity].
  apply Qeq_bool_iff in E. exact E.
Qed.

(** X14: a flowed leaf whose alignment has a flag on both axes comes out of the
    size query of its layout with the size it went in with, whatever the
    target, the weights and the other entries; it has a position, and its
    identity and original size are untouched. *)
Theorem aligned_leaf_keeps_size :
  forall fuel d items m s coord sz0 ms box' size k f st al xml,
    get_size (S fuel) (BoxLayout d items m s coord sz0) ms = Ok (box', size) ->
    items !! k = Some (SVGFile f, st, al, xml) ->
    has_horizontal_flag al = true ->
    has_vertical_flag al = true ->
    exists f' c,
      items_of box' !! k = Some (SVGFile f', st, al, xml)
      /\ _width_px f' = _width_px f /\ _height_px f' = _height_px f
      /\ _coord f' = Some c
      /\ static_leaf f' = static_leaf f.
Proof.
  intros fuel d items m s coord sz0 ms box' size k f st al xml H Hk Hh Hv.
  pose proof H as H0.
  apply get_size_entries in H0 as (items1 & sizes & cum1 & orth & Hm & _).
  eapply leaf_entry_after_query in H as (new_sz & pos & fsz & _ & Hf & Hbox);
    [|exact Hm|exact Hk].
  destruct (calc_box_keeps_aligned pos new_sz (mkSize (_width_px f) (_height_px f)) al)
    as (Hw & Hh' & _ & _).
  specialize (Hw Hh). specialize (Hh' Hv). rewrite Hf in Hw, Hh'. cbn [width height] in Hw, Hh'.
  eexists _, _. split; [exact Hbox|].
  unfold SVGFileBase_set_size, SVGFileBase_with_coord.
  cbn [_width_px _height_px _coord obj_id _fname _root _root_nsmap _orig_width_px
         _orig_height_px static_leaf].
  rewrite Hw, Hh', !Qeq_bool_refl. auto.
Qed.

Lemma aligned_leaf_keeps_size_witness :
  exists box' size f' c,
    get_size 1 row_of_three (Some (mkSize 300 0)) = Ok (box', size)
    /\ items_of box' !! 1%nat = Some (SVGFile f', 0%Q, AlignCenter, None)
    /\ _width_px f' = _width_px (leaf 1 30 60) /\ _height_px f' = _height_px (leaf 1 30 60)
    /\ _coord f' = Some c
    /\ static_leaf f' = static_leaf (leaf 1 30 60).
Proof.
  destruct (get_size 1 row_of_three (Some (mkSize 300 0))) as [[box' size]|] eqn:Hget;
    [|vm_compute in Hget; discriminate].
  destruct (aligned_leaf_keeps_size 0 LeftToRight (items_of row_of_three) 5 10 (0, 0)%Q None
              (Some (mkSize 300 0)) box' size 1%nat (leaf 1 30 60) 0%Q AlignCenter None)
    as (f' & c & H); [exact Hget|reflexivity|reflexivity|reflexivity|].
  exists box', size, f', c. split; [reflexivity|exact H].
Defined.

(** X15: a flowed leaf takes, on every axis where its alignment has no flag, the
    length of the box that pass 2 allots to it, and on every axis where it
    has a flag it keeps its own length. *)
Theorem leaf_size_by_alignment :
  forall fuel d items m s coord sz0 ms box' size items1 sizes cum1 orth k f st al xml,
    get_size (S fuel) (BoxLayout d items m s coord sz0) ms = Ok (box', size) ->
    measure (get_size fuel) d m s items (min_size_or_zero ms) = Ok (items1, sizes, cum1, orth) ->
    items !! k = Some (SVGFile f, st, al, xml) ->
    exists new_sz f',
      allotted_size d items1 sizes (min_size_or_zero ms) (cum1 + m) orth k = Some new_sz
      /\ items_of box' !! k = Some (SVGFile f', st, al, xml)
      /\ (_width_px f' == if has_horizontal_flag al then _width_px f else width new_sz)%Q
      /\ (_height_px f' == if has_vertical_flag al then _height_px f else height new_sz)%Q.
Proof.
  intros fuel d items m s coord sz0 ms box' size items1 sizes cum1 orth k f st al xml H Hm Hk.
  eapply leaf_entry_after_query in H as (new_sz & pos & fsz & Ha & Hf & Hbox);
    [|exact Hm|exact Hk].
  destruct (calc_box_keeps_aligned pos new_sz (mkSize (_width_px f) (_height_px f)) al)
    as (Hw1 & Hh1 & Hw0 & Hh0).
  rewrite Hf in Hw1, Hh1, Hw0, Hh0. cbn [width height] in Hw1, Hh1, Hw0, Hh0.
  eexists new_sz, _. split; [exact Ha|]. split; [exact Hbox|].
  rewrite set_size_width, set_size_height. split.
  - destruct (has_horizontal_flag al); [rewrite Hw1|rewrite Hw0]; reflexivity.
  - destruct (has_vertical_flag al); [rewrite Hh1|rewrite Hh0]; reflexivity.
Qed.

Lemma leaf_size_by_alignment_witness :
  exists box' size new_sz f',
    get_size 1 row_of_three (Some (mkSize 300 0)) = Ok (box', size)
    /\ allotted_size LeftToRight (items_of row_of_three)
                     [mkSize 100 40; mkSize 30 60; mkSize 50 50]
                     (mkSize 300 0) (205 + 5) 60 0 = Some new_sz
    /\ items_of box' !! 0%nat = Some (SVGFile f', 1%Q, 0%Z, None)
    /\ (_width_px f' == width new_sz)%Q
    /\ (_height_px f' == height new_sz)%Q.
Proof.
  destruct (get_size 1 row_of_three (Some (mkSize 300 0))) as [[box' size]|] eqn:Hget;
    [|vm_compute in Hget; discriminate].
  destruct (leaf_size_by_alignment 0 LeftToRight (items_of row_of_three) 5 10 (0, 0)%Q None
              (Some (mkSize 300 0)) box' size (items_of row_of_three)
              [mkSize 100 40; mkSize 30 60; mkSize 50 50] 205 60
              0%nat (leaf 0 100 40) 1%Q 0%Z None)
    as (new_sz & f' & H); [exact Hget|vm_compute; reflexivity|reflexivity|].
  exists box', size, new_sz, f'. split; [reflexivity|exact H].
Defined.

(** ** The tie-break in a row *)

Lemma row_tie_break_witness :
  exists sz,
    allotted_size LeftToRight (items_of row_one_leaf) [mkSize 100 100]
                  (mkSize 150 0) 100 100 0 = Some sz
    /\ (main_extent LeftToRight sz == 100 + (150 - 100))%Q.
Proof.
  apply (row_tie_break LeftToRight (items_of row_one_leaf) [mkSize 100 100]
           (mkSize 150 0) 100 100 0%nat (SVGFile (leaf 0 100 100), 0%Q, 0%Z, None)
           (mkSize 100 100)); try reflexivity.
Defined.

Lemma row_never_shrinks_witness :
  (main_extent LeftToRight (mkSize 100 100)
   <= main_extent LeftToRight (mkSize (100 + 1 * ((240 - 200) / (0 + 1 + 3))) 100))%Q.
Proof.
  apply (row_never_shrinks LeftToRight (items_of stretch_example)
           [mkSize 100 100; mkSize 100 100] (mkSize 240 100) 200 100 0%nat
           (SVGFile (leaf 0 100 100), 1%Q, 0%Z, None) (mkSize 100 100)
           (mkSize (100 + 1 * ((240 - 200) / (0 + 1 + 3))) 100));
    try reflexivity; vm_compute; discriminate.
Defined.

(** ** What a render pass registers *)

Lemma flowed_leaves_static : forall item,
  map static_leaf (flowed_leaves item) = flowed_leaves (static item).
Proof.
  induction item as [f|f x y|d items m s c sz IH] using Item_nested_ind; try reflexivity.
  cbn [flowed_leaves static]. induction IH as [|[[[it st] al] xml] rest Hit _ IHrest];
    [reflexivity|].
  cbn [flat_map map]. rewrite map_app. unfold entry_item in Hit. cbn [fst] in Hit.
  cbn [fst]. rewrite Hit, IHrest. reflexivity.
Qed.

Lemma fixed_leaves_static : forall item,
  map static_leaf (fixed_leaves item) = fixed_leaves (static item).
Proof.
  induction item as [f|f x y|d items m s c sz IH] using Item_nested_ind; try reflexivity.
  cbn [fixed_leaves static]. induction IH as [|[[[it st] al] xml] rest Hit _ IHrest];
    [reflexivity|].
  cbn [flat_map map]. rewrite map_app. unfold entry_item in Hit. cbn [fst] in Hit.
  cbn [fst]. rewrite Hit, IHrest. reflexivity.
Qed.

Lemma obj_id_static_leaf l : map obj_id (map static_leaf l) = map obj_id l.
Proof. rewrite map_map. reflexivity. Qed.

Lemma contains_obj_false f l : contains_obj f l = false -> obj_id f ∉ map obj_id l.
Proof.
  unfold contains_obj. induction l as [|g l IH]; cbn [existsb map].
  - intros _ H. inversion H.
  - intros [H1 H2]%orb_false_elim H. apply elem_of_cons in H as [H|H].
    + apply Nat.eqb_neq in H1. congruence.
    + exact (IH H2 H).
Qed.

Lemma NoDup_ids_snoc f l :
  contains_obj f l = false -> NoDup (map obj_id l) -> NoDup (map obj_id (l ++ [f])).
Proof.
  intros Hc Hn. rewrite map_app. apply NoDup_app. split; [exact Hn|]. split.
  - intros x Hx Hf. cbn in Hf. apply list_elem_of_singleton in Hf. subst x.
    exact (contains_obj_false _ _ Hc Hx).
  - cbn. apply NoDup_singleton.
Qed.

Section Registered.

Variable repr : Q -> string.

Lemma add_extra_lists accum item xml accum' :
  add_extra repr accum item xml = Ok accum' ->
  _svgfiles accum' = _svgfiles accum /\ _svgfiles_no_layout accum' = _svgfiles_no_layout accum.
Proof.
  unfold add_extra. destruct xml; [|intros [= <-]; auto].
  destruct (coord_of (item_coord item)); cbn; [|discriminate]. intros [= <-]. auto.
Qed.

Lemma render_leaf_lists add style debug accum f accum' :
  render_leaf repr add style debug accum f = Ok accum' ->
  exists a, add accum f = Ok a
            /\ _svgfiles accum' = _svgfiles a
            /\ _svgfiles_no_layout accum' = _svgfiles_no_layout a.
Proof.
  intros H. unfold render_leaf in H. inv_bind H. exists r. split; [exact Hr|].
  destruct (0 <? debug)%Z; [|injection H as <-; auto].
  inv_bind H. injection H as <-. auto.
Qed.

Section Items.
Variable child_render :
  Item -> LayoutAccumulator -> option Size -> Result (Item * LayoutAccumulator).
Hypothesis child_registers :
  forall item accum ms item' accum',
    child_render item accum ms = Ok (item', accum') ->
    registers accum accum' item' /\ static item' = static item.

Lemma render_items_registers debug items : forall accum items' accum',
  render_items repr child_render debug items accum = Ok (items', accum') ->
  (_svgfiles accum'
   = _svgfiles accum ++ flat_map (fun e : Entry => flowed_leaves (fst (fst (fst e)))) items'
   /\ _svgfiles_no_layout accum'
      = _svgfiles_no_layout accum
        ++ flat_map (fun e : Entry => fixed_leaves (fst (fst (fst e)))) items'
   /\ (NoDup (map obj_id (_svgfiles accum)) -> NoDup (map obj_id (_svgfiles accum')))
   /\ (NoDup (map obj_id (_svgfiles_no_layout accum))
       -> NoDup (map obj_id (_svgfiles_no_layout accum'))))
  /\ map static_entry items' = map static_entry items.
Proof.
  induction items as [|[[[item st] al] xml] rest IH]; intros accum items' accum' H.
  - injection H as <- <-. cbn [flat_map]. rewrite !app_nil_r. auto.
  - cbn [render_items] in H. inv_bind H. destruct r as [item1 accum1].
    inv_bind H. inv_bind H. destruct r0 as [rest' accum3]. injection H as <- <-.
    assert (registers accum accum1 item1 /\ static item1 = static item) as [(A1 & A2 & A3 & A4) As].
    { destruct item as [f|f x y|d its m s c sz].
      - inv_bind Hr. injection Hr as <- <-.
        apply render_leaf_lists in Hr2 as (a & Ha & L1 & L2). split; [|reflexivity].
        unfold add_svg_file in Ha. destruct (contains_obj f (_svgfiles accum)) eqn:Ec;
          [discriminate|]. injection Ha as <-.
        unfold registers. rewrite L1, L2. cbn [_svgfiles _svgfiles_no_layout flowed_leaves
                                                 fixed_leaves].
        rewrite app_nil_r. repeat split; auto. apply NoDup_ids_snoc, Ec.
      - inv_bind Hr. injection Hr as <- <-.
        apply render_leaf_lists in Hr2 as (a & Ha & L1 & L2). split; [|reflexivity].
        unfold add_svg_file_no_layout in Ha.
        destruct (contains_obj f (_svgfiles_no_layout accum)) eqn:Ec; [discriminate|].
        injection Ha as <-.
        unfold registers. rewrite L1, L2. cbn [_svgfiles _svgfiles_no_layout flowed_leaves
                                                 fixed_leaves].
        rewrite app_nil_r. repeat split; auto. apply NoDup_ids_snoc, Ec.
      - eapply child_registers, Hr. }
    apply IH in Hr1 as [(R1 & R2 & R3 & R4) Rs]. apply add_extra_lists in Hr0 as [E1 E2].
    rewrite E1 in R1, R3. rewrite E2 in R2, R4.
    split; [|cbn [map static_entry]; rewrite As, Rs; reflexivity].
    cbn [flat_map fst]. split; [|split; [|split]].
    + rewrite R1, A1, app_assoc. reflexivity.
    + rewrite R2, A2, app_assoc. reflexivity.
    + intros Hn. apply R3, A3, Hn.
    + intros Hn. apply R4, A4, Hn.
Qed.
End Items.

(** A render pass appends to the accumulator the leaves of the tree it
    returns, in depth-first order, and keeps the static structure. *)
Lemma render_registers debug fuel : forall item accum ms level item' accum',
  render repr fuel item accum ms level debug = Ok (item', accum') ->
  registers accum accum' item' /\ static item' = static item.
Proof.
  induction fuel as [|fuel IH]; intros item accum ms level item' accum' H; [discriminate|].
  cbn [render] in H. destruct item as [| |d items m s c sz]; try discriminate.
  inv_bind H. destruct r as [self size].
  pose proof (get_size_static _ _ _ _ _ Hr) as Hst.
  destruct self as [| |d' items' m' s' c' sz']; try discriminate.
  inv_bind H. destruct r as [items2 accum2]. injection H as <- <-.
  eapply render_items_registers in Hr0 as [(R1 & R2 & R3 & R4) Rs];
    [|intros ? ? ? ? ?; apply IH].
  assert (forall a : LayoutAccumulator,
             _svgfiles (if (0 <? debug)%Z
                        then add_raw_element
                               (if (level =? 0)%nat then accum_set_size a size else a)
                               (debug_box repr "fill: none; stroke: black; stroke-width: 2.000000;"
                                          c' size)
                        else if (level =? 0)%nat then accum_set_size a size else a)
             = _svgfiles a
             /\ _svgfiles_no_layout
                  (if (0 <? debug)%Z
                   then add_raw_element
                          (if (level =? 0)%nat then accum_set_size a size else a)
                          (debug_box repr "fill: none; stroke: black; stroke-width: 2.000000;"
                                     c' size)
                   else if (level =? 0)%nat then accum_set_size a size else a)
                = _svgfiles_no_layout a) as Hpre.
  { intros a. destruct (0 <? debug)%Z, (level =? 0)%nat; auto. }
  destruct (Hpre accum) as [P1 P2]. rewrite P1 in R1, R3. rewrite P2 in R2, R4.
  split; [unfold registers; cbn [flowed_leaves fixed_leaves]; auto|].
  rewrite <- Hst, !static_BoxLayout, Rs. reflexivity.
Qed.

(** X19: after a successful render pass from an empty accumulator, the
    accumulator lists the flowed leaves of the tree the pass returns, depth
    first in the order of the entries, and its fixed-offset leaves likewise;
    they are the leaves of the layout that was rendered, in the same
    order. *)
Theorem render_registers_leaves_in_order :
  forall fuel layout ms level debug layout' accum,
    render repr fuel layout LayoutAccumulator_init ms level debug = Ok (layout', accum) ->
    _svgfiles accum = flowed_leaves layout'
    /\ _svgfiles_no_layout accum = fixed_leaves layout'
    /\ map obj_id (_svgfiles accum) = map obj_id (flowed_leaves layout)
    /\ map obj_id (_svgfiles_no_layout accum) = map obj_id (fixed_leaves layout).
Proof.
  intros fuel layout ms level debug layout' accum H.
  apply render_registers in H as [(R1 & R2 & _ & _) Hs]. cbn in R1, R2.
  rewrite R1, R2. repeat split.
  - rewrite <- (obj_id_static_leaf (flowed_leaves layout')),
      <- (obj_id_static_leaf (flowed_leaves layout)), !flowed_leaves_static, Hs. reflexivity.
  - rewrite <- (obj_id_static_leaf (fixed_leaves layout')),
      <- (obj_id_static_leaf (fixed_leaves layout)), !fixed_leaves_static, Hs. reflexivity.
Qed.

(** X20: a render pass from an empty accumulator succeeds only on a layout
    whose flowed leaves are pairwise distinct objects, and whose
    fixed-offset leaves are: a leaf that occurs twice in one of the two
    groups makes the pass fail. *)
Theorem render_needs_distinct_leaves :
  forall fuel layout ms level debug layout' accum,
    render repr fuel layout LayoutAccumulator_init ms level debug = Ok (layout', accum) ->
    NoDup (map obj_id (flowed_leaves layout)) /\ NoDup (map obj_id (fixed_leaves layout)).
Proof.
  intros fuel layout ms level debug layout' accum H.
  apply render_registers in H as [(R1 & R2 & R3 & R4) Hs]. cbn in R1, R2.
  specialize (R3 NoDup_nil_2). specialize (R4 NoDup_nil_2).
  rewrite R1 in R3. rewrite R2 in R4.
  rewrite <- (obj_id_static_leaf (flowed_leaves layout)),
    <- (obj_id_static_leaf (fixed_leaves layout)), flowed_leaves_static, fixed_leaves_static,
    <- Hs, <- flowed_leaves_static, <- fixed_leaves_static, !obj_id_static_leaf.
  auto.
Qed.

End Registered.

Lemma render_registers_leaves_in_order_witness :
  exists layout' accum,
    render example_repr 1 document_example LayoutAccumulator_init None 0 0 = Ok (layout', accum)
    /\ _svgfiles accum = flowed_leaves layout'
    /\ _svgfiles_no_layout accum = fixed_leaves layout'
    /\ map obj_id (_svgfiles accum) = map obj_id (flowed_leaves document_example)
    /\ map obj_id (_svgfiles_no_layout accum) = map obj_id (fixed_leaves document_example).
Proof.
  destruct (render example_repr 1 document_example LayoutAccumulator_init None 0 0)
    as [[layout' accum]|] eqn:H; [|vm_compute in H; discriminate].
  exists layout', accum. split; [reflexivity|].
  exact (render_registers_leaves_in_order example_repr 1 document_example None 0%nat 0%Z
           layout' accum H).
Defined.

Lemma render_needs_distinct_leaves_witness :
  NoDup (map obj_id (flowed_leaves document_example))
  /\ NoDup (map obj_id (fixed_leaves document_example)).
Proof.
  destruct (render example_repr 1 document_example LayoutAccumulator_init None 0 0)
    as [[layout' accum]|] eqn:H; [|vm_compute in H; discriminate].
  exact (render_needs_distinct_leaves example_repr 1 document_example None 0%nat 0%Z
           layout' accum H).
Defined.

(** ** Merging the sources *)

Lemma copy_children_spec prefix cs : forall root_defs elem,
  copy_children prefix cs root_defs elem = (root_defs ++ hoisted prefix cs, elem ++ kept cs).
Proof.
  induction cs as [|child rest IH]; intros root_defs elem.
  - unfold hoisted, kept. cbn. rewrite !app_nil_r. reflexivity.
  - cbn [copy_children]. unfold hoisted, kept. cbn [List.filter]. unfold is_defs, is_left_out.
    destruct (tag_is child (ns_svg +:+ "defs")).
    + rewrite IH. cbn [negb andb flat_map]. unfold hoisted, kept.
      rewrite <- app_assoc. reflexivity.
    + cbn [negb andb].
      destruct (tag_is child ("{" +:+ uri_sodipodi +:+ "}:namedview")); [apply IH|].
      destruct (tag_is child (ns_svg +:+ "metadata")); [apply IH|].
      cbn [orb negb]. rewrite IH. unfold hoisted, kept. rewrite <- app_assoc. reflexivity.
Qed.

(** X22: the loop over the children of a source root sorts them: the children
    of every [defs] child are rewritten and appended to the shared [defs]
    container, in document order; a [metadata] child and a child tagged
    [{sodipodi}:namedview] are left out; every other child goes into the
    wrapper group, in document order and not yet rewritten.  The tag of a
    real [sodipodi:namedview] element has no colon behind the brace, so such
    an element is copied into the group. *)
Theorem copy_children_sorts_children :
  forall prefix cs root_defs elem,
    copy_children prefix cs root_defs elem = (root_defs ++ hoisted prefix cs, elem ++ kept cs)
    /\ forall a cs0,
        kept [Elem (Some ("{" +:+ uri_sodipodi +:+ "}namedview")) a cs0]
        = [Elem (Some ("{" +:+ uri_sodipodi +:+ "}namedview")) a cs0].
Proof.
  intros prefix cs root_defs elem. split; [apply copy_children_spec|intros; reflexivity].
Qed.

Section MergeFacts.

Variable repr : Q -> string.
Variable viewBox_tokens : string -> list string.
Variable float : string -> option Q.

Lemma wrap_leaf_resized n f defs :
  resized f = true -> exists e, wrap_leaf repr viewBox_tokens float n true f defs = Raise e.
Proof.
  intros Hr. unfold wrap_leaf. destruct (copy_children _ _ _ _) as [defs' cs].
  destruct (coord_of (_coord f)) as [c|e]; [|exists e; reflexivity].
  cbn [mbind Result_bind bind andb]. unfold resized in Hr.
  destruct (negb (Qeq_bool (_orig_width_px f) (_width_px f))); [eauto|].
  cbn [orb] in Hr. rewrite Hr. eauto.
Qed.

Lemma wrap_leaves_resized work : forall n f defs groups,
  (n, true, f) ∈ work -> resized f = true ->
  exists e, wrap_leaves repr viewBox_tokens float work defs groups = Raise e.
Proof.
  induction work as [|[[n0 l0] f0] work IH]; intros n f defs groups Hin Hr.
  - inversion Hin.
  - cbn [wrap_leaves]. apply elem_of_cons in Hin as [[= <- <- <-]|Hin].
    + destruct (wrap_leaf_resized n f defs Hr) as [e ->]. exists e. reflexivity.
    + destruct (wrap_leaf repr viewBox_tokens float n0 l0 f0 defs) as [[defs1 g]|e];
        [|exists e; reflexivity].
      cbn [mbind Result_bind bind]. eapply IH; [exact Hin|exact Hr].
Qed.

Lemma number_from_elem f svgfiles : forall n do_layout,
  f ∈ svgfiles -> exists k, (k, do_layout, f) ∈ number_from n do_layout svgfiles.
Proof.
  induction svgfiles as [|g l IH]; intros n do_layout Hin; [inversion Hin|].
  cbn [number_from]. apply elem_of_cons in Hin as [->|Hin].
  - exists n. apply elem_of_cons. auto.
  - destruct (IH (S n) do_layout Hin) as [k Hk]. exists k. apply elem_of_cons. auto.
Qed.

(** The merge fails whenever one of the registered flowed leaves has a
    current size that differs from its original size. *)
Lemma make_finalized_root_resized self f :
  f ∈ _svgfiles self ->
  resized f = true ->
  exists e, _make_finalized_root repr viewBox_tokens float self = Raise e.
Proof.
  intros Hin Hr. unfold _make_finalized_root.
  destruct (collect_nsmap (_svgfiles self) NSMAP_init) as [NSMAP|e]; [|exists e; reflexivity].
  cbn [mbind Result_bind bind].
  destruct (number_from_elem f (_svgfiles self) 0 true Hin) as [k Hk].
  destruct (wrap_leaves_resized (work_list self) k f [] []) as [e He]; [|exact Hr|].
  - unfold work_list. apply elem_of_app. left. exact Hk.
  - rewrite He. exists e. reflexivity.
Qed.

End MergeFacts.

(** ** Identifier prefixes *)

Lemma string_of_uint_no_colon d : mem_char ":"%char (NilEmpty.string_of_uint d) = false.
Proof. induction d; cbn [NilEmpty.string_of_uint mem_char]; try rewrite IHd; reflexivity. Qed.

Lemma string_of_uint_no_rparen d : mem_char ")"%char (NilEmpty.string_of_uint d) = false.
Proof. induction d; cbn [NilEmpty.string_of_uint mem_char]; try rewrite IHd; reflexivity. Qed.

Lemma string_of_uint_inj d d' :
  NilEmpty.string_of_uint d = NilEmpty.string_of_uint d' -> d = d'.
Proof.
  intros H. pose proof (NilEmpty.usu d) as E. rewrite H, NilEmpty.usu in E. congruence.
Qed.

Lemma decimal_inj n m : decimal n = decimal m -> n = m.
Proof. intros H. apply Unsigned.to_uint_inj, string_of_uint_inj, H. Qed.

(** Two strings cut at their first occurrence of a character. *)
Lemma split_at_first c (s1 : string) : forall s2 a b,
  mem_char c s1 = false -> mem_char c s2 = false ->
  s1 +:+ String c a = s2 +:+ String c b -> s1 = s2 /\ a = b.
Proof.
  induction s1 as [|x s1 IH]; intros [|y s2] a b H1 H2 H; cbn [append] in H.
  - injection H as <-. auto.
  - injection H as <- _. cbn [mem_char] in H2. rewrite Ascii.eqb_refl in H2. discriminate.
  - injection H as -> _. cbn [mem_char] in H1. rewrite Ascii.eqb_refl in H1. discriminate.
  - injection H as <- H. cbn [mem_char] in H1, H2.
    apply orb_false_elim in H1 as [_ H1]. apply orb_false_elim in H2 as [_ H2].
    destruct (IH _ _ _ H1 H2 H) as [-> ->]. auto.
Qed.

(** X23: the prefixes of two leaves never produce the same identifier: a
    prefixed name determines the number of its leaf and the name. *)
Theorem fix_id_prefix_separates_leaves :
  forall n m a b,
    fix_id_prefix n +:+ a = fix_id_prefix m +:+ b -> n = m /\ a = b.
Proof.
  intros n m a b H. unfold fix_id_prefix in H.
  cbn [append] in H. injection H as H. rewrite !append_assoc in H.
  change (":" +:+ a) with (String ":" a) in H. change (":" +:+ b) with (String ":" b) in H.
  apply split_at_first in H as [Hd ->];
    [|apply string_of_uint_no_colon|apply string_of_uint_no_colon].
  split; [apply decimal_inj, Hd|reflexivity].
Qed.

Lemma fix_id_prefix_separates_leaves_witness : 3%nat = 3%nat /\ "g1" = "g1".
Proof. apply (fix_id_prefix_separates_leaves 3 3 "g1" "g1"). reflexivity. Defined.

Lemma fix_attribs_single_id prefix v :
  ~ has_relIRI (prefix +:+ v) -> fix_attribs prefix [("id", v)] = [("id", prefix +:+ v)].
Proof.
  intros Hno. unfold fix_attribs. cbn [attrib_get]. rewrite String.eqb_refl.
  cbn [attrib_set]. rewrite String.eqb_refl. cbn [attrib_keys map fst fold_left].
  unfold fix_attrib. cbn [attrib_get]. rewrite String.eqb_refl.
  change (String.prefix ns_xlink "id") with false. cbn [negb andb].
  rewrite relIRI_sub_unchanged by exact Hno. rewrite String.eqb_refl. reflexivity.
Qed.

Section WrapperFacts.

Variable repr : Q -> string.
Variable viewBox_tokens : string -> list string.
Variable float : string -> option Q.

(** X24: the wrapper group of a placed leaf whose root has no [viewBox], and
    which is not resized when it is flowed: its identifier is the leaf's
    prefix followed by [id] and the leaf's number (the rewriter prefixes the
    identifier the group was given), its transform is a translation to the
    leaf's position, and its children are the kept children of the source
    root, rewritten with the leaf's prefix; the rewritten children of the
    source's [defs] are appended to the shared container. *)
Theorem wrapper_of_plain_leaf :
  forall n do_layout f root_defs x y,
    attrib_get "viewBox" (attrib (_root f)) = None ->
    _coord f = Some (x, y) ->
    (do_layout = true -> resized f = false) ->
    wrap_leaf repr viewBox_tokens float n do_layout f root_defs
    = Ok (root_defs ++ hoisted (fix_id_prefix n) (children (_root f)),
          Elem (svg_tag "g")
               [("id", fix_id_prefix n +:+ "id" +:+ decimal n);
                ("transform", translate_attr (repr x) (repr y))]
               (map (fun c => fix_ids c (fix_id_prefix n) 1)
                    (kept (children (_root f))))).
Proof.
  intros n do_layout f root_defs x y Hvb Hc Hres.
  unfold wrap_leaf. rewrite copy_children_spec, Hc. cbn [coord_of mbind Result_bind bind].
  assert (do_layout && negb (Qeq_bool (_orig_width_px f) (_width_px f)) = false
          /\ do_layout && negb (Qeq_bool (_orig_height_px f) (_height_px f)) = false)
    as [-> ->].
  { destruct do_layout; [|auto]. specialize (Hres eq_refl). unfold resized in Hres.
    apply orb_false_elim in Hres as [-> ->]. auto. }
  unfold placement_transform. rewrite Hvb. cbn [mbind Result_bind bind fst snd app].
  cbn [fix_ids tag attrib children in_svg_namespace svg_tag].
  change (String.prefix ns_svg (ns_svg +:+ "g")) with true. cbn iota.
  rewrite fix_attribs_single_id.
  2:{ apply no_rparen_no_relIRI. unfold fix_id_prefix, decimal.
      rewrite !mem_char_append, !string_of_uint_no_rparen. reflexivity. }
  cbn [attrib_set]. change (String.eqb "transform" "id") with false. cbn iota.
  reflexivity.
Qed.

End WrapperFacts.

Lemma wrapper_of_plain_leaf_witness :
  wrap_leaf example_repr example_viewBox_tokens example_float 0 true placed_leaf []
  = Ok ([] ++ hoisted (fix_id_prefix 0) (children (_root placed_leaf)),
        Elem (svg_tag "g")
             [("id", fix_id_prefix 0 +:+ "id" +:+ decimal 0);
              ("transform", translate_attr (example_repr 10) (example_repr 20))]
             (map (fun c => fix_ids c (fix_id_prefix 0) 1)
                  (kept (children (_root placed_leaf))))).
Proof.
  apply (wrapper_of_plain_leaf example_repr example_viewBox_tokens example_float
           0 true placed_leaf [] 10 20); reflexivity.
Defined.

(** ** Saving a layout that stretches a leaf *)

Section SaveFacts.

Variable repr : Q -> string.
Variable viewBox_tokens : string -> list string.
Variable float : string -> option Q.
Variable tostring : gmap (option string) string -> Element -> string.

Section Items.
Variable child_render :
  Item -> LayoutAccumulator -> option Size -> Result (Item * LayoutAccumulator).
Hypothesis child_registers :
  forall item accum ms item' accum',
    child_render item accum ms = Ok (item', accum') ->
    registers accum accum' item' /\ static item' = static item.

(** The loop of a render pass registers every flowed leaf among the entries. *)
Lemma render_items_has_leaf debug items : forall accum items' accum' k f st al xml,
  render_items repr child_render debug items accum = Ok (items', accum') ->
  items !! k = Some (SVGFile f, st, al, xml) ->
  f ∈ _svgfiles accum'.
Proof.
  induction items as [|[[[item0 st0] al0] xml0] rest IH];
    intros accum items' accum' k f st al xml H Hk; [discriminate|].
  cbn [render_items] in H. inv_bind H. destruct r as [item1 accum1].
  inv_bind H. inv_bind H. destruct r0 as [rest' accum3]. injection H as <- <-.
  destruct k as [|k].
  - injection Hk as -> _ _ _.
    inv_bind Hr. injection Hr as <- <-.
    apply render_leaf_lists in Hr2 as (a & Ha & L1 & _).
    unfold add_svg_file in Ha. destruct (contains_obj f (_svgfiles accum)); [discriminate|].
    injection Ha as <-. cbn [_svgfiles] in L1.
    apply add_extra_lists in Hr0 as [E1 _].
    eapply render_items_registers in Hr1 as [(R1 & _) _]; [|exact child_registers].
    rewrite R1, E1, L1. apply elem_of_app. left. apply elem_of_app. right.
    apply list_elem_of_singleton. reflexivity.
  - cbn [lookup list_lookup] in Hk. eapply IH; [exact Hr1|exact Hk].
Qed.
End Items.

(** X25: saving fails whenever the root layout allots to one of its flowed
    leaves, on an axis where the leaf's alignment has no flag, a length that
    differs from the leaf's original length: the leaf takes the allotted
    length and the merge refuses to rescale it. *)
Theorem save_rejects_stretched_leaf :
  forall fuel d items m s coord sz0 debug items1 sizes cum1 orth k f st al xml new_sz,
    measure (get_size fuel) d m s items (mkSize 0 0) = Ok (items1, sizes, cum1, orth) ->
    items !! k = Some (SVGFile f, st, al, xml) ->
    allotted_size d items1 sizes (mkSize 0 0) (cum1 + m) orth k = Some new_sz ->
    (has_horizontal_flag al = false /\ ~ (_orig_width_px f == width new_sz)%Q)
    \/ (has_vertical_flag al = false /\ ~ (_orig_height_px f == height new_sz)%Q) ->
    exists e,
      save repr viewBox_tokens float tostring (S fuel)
           (Some (BoxLayout d items m s coord sz0)) debug = Raise e.
Proof.
  intros fuel d items m s coord sz0 debug items1 sizes cum1 orth k f st al xml new_sz
         Hm Hk Ha Hdiff.
  unfold save.
  destruct (render repr (S fuel) (BoxLayout d items m s coord sz0) LayoutAccumulator_init
                   None 0 debug) as [[layout'' accum]|e] eqn:Hrender;
    [|exists e; reflexivity].
  cbn [mbind Result_bind bind].
  cbn [render] in Hrender. inv_bind Hrender. destruct r as [self size].
  pose proof Hr as Hget.
  eapply leaf_entry_after_query in Hget as (new_sz' & pos & fsz & Ha' & Hf & Hbox);
    [|exact Hm|exact Hk].
  cbn [min_size_or_zero] in Ha'. rewrite Ha in Ha'. injection Ha' as <-.
  destruct self as [| |d' items' m' s' c' sz']; try discriminate.
  inv_bind Hrender. destruct r as [items2 accum2]. injection Hrender as _ <-.
  cbn [items_of] in Hbox.
  eapply render_items_has_leaf in Hr0; [| |exact Hbox].
  2:{ intros ? ? ? ? ?. apply render_registers. }
  destruct (make_finalized_root_resized repr viewBox_tokens float accum2 _ Hr0) as [e He].
  - destruct (calc_box_keeps_aligned pos new_sz (mkSize (_width_px f) (_height_px f)) al)
      as (_ & _ & Hw0 & Hh0).
    rewrite Hf in Hw0, Hh0. unfold resized. apply orb_true_iff.
    destruct Hdiff as [[Hfl Hne]|[Hfl Hne]]; [left|right]; apply negb_true_iff, Qeq_bool_false.
    + rewrite set_size_width, (Hw0 Hfl). exact Hne.
    + rewrite set_size_height, (Hh0 Hfl). exact Hne.
  - rewrite He. exists e. reflexivity.
Qed.

End SaveFacts.

Lemma save_rejects_stretched_leaf_witness :
  exists e,
    save example_repr example_viewBox_tokens example_float example_tostring 1
         (Some row_uneven) 0 = Raise e.
Proof.
  apply (save_rejects_stretched_leaf example_repr example_viewBox_tokens example_float
           example_tostring 0 LeftToRight (items_of row_uneven) 0 0 (0, 0)%Q None 0%Z
           (items_of row_uneven) [mkSize 100 100; mkSize 50 50] 150 100
           1%nat (leaf 1 50 50) 0%Q 0%Z None (mkSize 50 100)).
  - vm_compute. reflexivity.
  - reflexivity.
  - vm_compute. reflexivity.
  - right. split; [reflexivity|]. vm_compute. discriminate.
Defined.

(** ** The identifier rewriter on whole trees *)

Lemma Element_nested_ind (P : Element -> Prop) :
  (forall t a cs, Forall P cs -> P (Elem t a cs)) -> forall e, P e.
Proof.
  intros H. fix IH 1. intros [t a cs]. apply H.
  refine ((fix go (l : list Element) : Forall P l :=
             match l with
             | [] => List.Forall_nil _
             | e :: r => List.Forall_cons _ e r (IH e) (go r)
             end) cs).
Qed.







(** X27: for a prefix without backslash (the substitution is modelled for
    those only), the identifier of an element of the SVG namespace gets the
    prefix, and is then passed through the pattern substitution like every
    other attribute: it ends as the prefixed identifier whenever that holds
    no functional reference. *)
Theorem fix_ids_prefixes_id :
  forall prefix level t a cs i,
    backslash_free prefix ->
    String.prefix ns_svg t = true ->
    NoDup (attrib_keys a) ->
    attrib_get "id" a = Some i ->
    let result := attrib_get "id" (attrib (fix_ids (Elem (Some t) a cs) prefix level)) in
    result = Some (relIRI_sub prefix 0 (prefix +:+ i))
    /\ (~ has_relIRI (prefix +:+ i) -> result = Some (prefix +:+ i)).
Proof.
  intros prefix level t a cs i _ Ht Hnd Hid result. subst result.
  cbn [fix_ids attrib in_svg_namespace tag]. rewrite Ht. unfold fix_attribs. rewrite Hid.
  rewrite (attrib_keys_set _ _ _ _ Hid).
  rewrite (fix_attribs_loop prefix "id" (prefix +:+ i));
    [|exact Hnd|eapply attrib_get_in_keys, Hid|apply attrib_get_set_eq].
  unfold rewritten_value. change (String.prefix ns_xlink "id") with false. cbn iota.
  split; [reflexivity|]. intros Hno. rewrite relIRI_sub_unchanged by exact Hno. reflexivity.
Qed.

Lemma fix_ids_prefixes_id_witness :
  backslash_free "id0:"
  /\ attrib_get "id" (attrib (fix_ids example_rect "id0:" 0))
  = Some (relIRI_sub "id0:" 0 ("id0:" +:+ "r"))
  /\ (~ has_relIRI ("id0:" +:+ "r")
      -> attrib_get "id" (attrib (fix_ids example_rect "id0:" 0)) = Some ("id0:" +:+ "r")).
Proof.
  split; [reflexivity|].
  apply (fix_ids_prefixes_id "id0:" 0 (ns_svg +:+ "rect") (attrib example_rect) [] "r").
  - reflexivity.
  - reflexivity.
  - apply (bool_decide_unpack _). vm_compute. reflexivity.
  - reflexivity.
Defined.

(** Rewriting with the empty prefix *)

Lemma relIRI_sub_empty_prefix : forall n value,
  (String.length value <= n)%nat -> relIRI_sub "" 0 value = value.
Proof.
  induction n as [|n IH]; intros [|c rest] Hlen; try reflexivity; cbn [String.length] in Hlen;
    [lia|].
  destruct (strip_prefix "url(#" (String c rest)) as [s|] eqn:Es.
  - destruct (split_last_rparen s) as [[group r]|] eqn:Eg.
    + apply strip_prefix_Some in Es. rewrite Es.
      rewrite (relIRI_sub_match _ _ _ _ Eg).
      apply split_last_rparen_sound in Eg as [-> _].
      rewrite IH; [reflexivity|].
      apply (f_equal String.length) in Es. cbn [String.length] in Es.
      rewrite !append_length in Es. cbn [String.length] in Es. lia.
    + cbn [relIRI_sub]. rewrite Es. cbn [mbind option_bind]. rewrite Eg.
      rewrite IH by lia. reflexivity.
  - cbn [relIRI_sub]. rewrite Es. cbn [mbind option_bind].
    rewrite IH by lia. reflexivity.
Qed.

Lemma attrib_set_same key value a : attrib_get key a = Some value -> attrib_set key value a = a.
Proof.
  induction a as [|[k v] a IH]; cbn [attrib_get attrib_set]; [discriminate|].
  destruct (String.eqb_spec key k) as [->|Hk].
  - intros [= ->]. reflexivity.
  - intros H. rewrite (IH H). reflexivity.
Qed.

Lemma fix_attrib_empty_prefix key a : fix_attrib "" key a = a.
Proof.
  unfold fix_attrib. destruct (attrib_get key a) as [value|] eqn:E; [|reflexivity].
  destruct (String.prefix ns_xlink key); cbn [negb andb].
  - destruct (String.prefix "#" value) eqn:Ep; [|reflexivity].
    apply attrib_set_same. rewrite E. f_equal.
    destruct value as [|c value]; [discriminate|]. cbn [String.prefix] in Ep.
    destruct (ascii_dec "#" c) as [<-|]; [reflexivity|discriminate].
  - rewrite (relIRI_sub_empty_prefix (String.length value)) by lia.
    rewrite String.eqb_refl. reflexivity.
Qed.

Lemma fix_attribs_empty_prefix a : fix_attribs "" a = a.
Proof.
  unfold fix_attribs.
  assert (match attrib_get "id" a with
          | Some i => attrib_set "id" ("" +:+ i) a
          | None => a
          end = a) as ->.
  { destruct (attrib_get "id" a) as [i|] eqn:E; [|reflexivity]. apply attrib_set_same, E. }
  generalize (attrib_keys a) as keys. intros keys.
  induction keys as [|k keys IH]; [reflexivity|].
  cbn [fold_left]. rewrite fix_attrib_empty_prefix. exact IH.
Qed.

(** X28: with the empty prefix the rewriter returns the tree it was given:
    it changes an attribute only by putting the prefix somewhere. *)
Theorem fix_ids_empty_prefix :
  forall elem level, fix_ids elem "" level = elem.
Proof.
  induction elem as [t a cs IH] using Element_nested_ind; intros level.
  cbn [fix_ids]. f_equal.
  - destruct (in_svg_namespace (Elem t a cs)); [apply fix_attribs_empty_prefix|reflexivity].
  - induction IH as [|c cs' Hc _ IHcs]; [reflexivity|].
    cbn [map]. rewrite Hc, IHcs. reflexivity.
Qed.

(** ** Positions along the flow *)

Lemma cursor_at_S d s hack inc unfilled orth n items :
  forall i sizes cum k it st al xml old,
    items !! k = Some (it, st, al, xml) ->
    sizes !! k = Some old ->
    cursor_at d s hack inc unfilled orth n i items sizes cum (S k)
    = let c := (cursor_at d s hack inc unfilled orth n i items sizes cum k
                + main_extent d (new_item_size d hack inc unfilled orth
                                               (n <=? i + k + 1)%nat st old))%Q in
      if (n <=? i + k + 1)%nat then c else (c + s)%Q.
Proof.
  induction items as [|[[[it0 st0] al0] xml0] rest IH];
    intros i sizes cum k it st al xml old Hk Hs; [discriminate|].
  destruct sizes as [|old0 sizes]; [discriminate|].
  destruct k as [|k].
  - injection Hk as -> -> -> ->. injection Hs as ->.
    cbn [cursor_at]. rewrite Nat.add_0_r. destruct rest, sizes; reflexivity.
  - cbn [lookup list_lookup] in Hk, Hs.
    change (cursor_at d s hack inc unfilled orth n i ((it0, st0, al0, xml0) :: rest)
                      (old0 :: sizes) cum (S (S k)))
      with (cursor_at d s hack inc unfilled orth n (S i) rest sizes
              (if (n <=? i + 1)%nat
               then (cum + main_extent d (new_item_size d hack inc unfilled orth
                                                        (n <=? i + 1)%nat st0 old0))%Q
               else (cum + main_extent d (new_item_size d hack inc unfilled orth
                                                        (n <=? i + 1)%nat st0 old0) + s)%Q)
              (S k)).
    rewrite (IH _ _ _ _ _ _ _ _ _ Hk Hs).
    replace (S i + k + 1)%nat with (i + S k + 1)%nat by lia. reflexivity.
Qed.

Lemma cursor_at_0 d s hack inc unfilled orth n i items sizes cum :
  cursor_at d s hack inc unfilled orth n i items sizes cum 0 = cum.
Proof. destruct items as [|[[[? ?] ?] ?] ?], sizes; reflexivity. Qed.

Lemma calc_box_unaligned in_pos in_sz item_sz al :
  has_horizontal_flag al = false -> has_vertical_flag al = false ->
  _calc_box in_pos in_sz item_sz al = (in_pos, in_sz).
Proof.
  unfold _calc_box, has_horizontal_flag, has_vertical_flag.
  destruct (has_flag AlignLeft al), (has_flag AlignRight al), (has_flag AlignHCenter al),
    (has_flag AlignTop al), (has_flag AlignBottom al), (has_flag AlignVCenter al);
    cbn [orb]; try discriminate.
  intros _ _. destruct in_pos, in_sz. reflexivity.
Qed.

(** An unaligned flowed leaf after the size query of its layout: it sits
    at the origin of its slot and has the size of its allotted box. *)
Lemma unaligned_leaf_after_query fuel d items m s coord sz0 ms box' size items1 sizes cum1 orth
      k f st al xml :
  get_size (S fuel) (BoxLayout d items m s coord sz0) ms = Ok (box', size) ->
  measure (get_size fuel) d m s items (min_size_or_zero ms) = Ok (items1, sizes, cum1, orth) ->
  items !! k = Some (SVGFile f, st, al, xml) ->
  has_horizontal_flag al = false -> has_vertical_flag al = false ->
  exists new_sz cbc f',
    allotted_size d items1 sizes (min_size_or_zero ms) (cum1 + m) orth k = Some new_sz
    /\ child_box_coord d m (slot_cursor d m s (min_size_or_zero ms) items1 sizes cum1 orth k)
       = Ok cbc
    /\ items_of box' !! k = Some (SVGFile f', st, al, xml)
    /\ _coord f' = Some (fst cbc + fst coord, snd cbc + snd coord)%Q
    /\ Size_eq (mkSize (_width_px f') (_height_px f')) new_sz.
Proof.
  intros H Hm Hk Hh Hv.
  apply get_size_entries in H as (items1' & sizes' & cum1' & orth' & Hm' & _ & _ & Hent).
  rewrite Hm in Hm'. injection Hm' as <- <- <- <-.
  unfold measure in Hm.
  eapply step1_lookup_leaf in Hm as [Hk1 _]; [| |exact Hk].
  2:{ intros; destruct fuel; reflexivity. }
  destruct (Hent _ _ _ _ _ Hk1) as (new_sz & item' & isz & cbc & Ha & Hg & Hc & Hbox).
  cbn [isinstance_SVGFileNoLayout] in Hg.
  assert (item' = SVGFile f /\ isz = mkSize (_width_px f) (_height_px f)) as [-> ->].
  { destruct fuel; cbn in Hg; injection Hg as <- <-; auto. }
  rewrite calc_box_unaligned in Hbox by assumption. cbn [_set_coord _set_size] in Hbox.
  exists new_sz, cbc. eexists. split; [exact Ha|]. split; [exact Hc|]. split; [exact Hbox|].
  split; [reflexivity|]. split; cbn [width height].
  - apply set_size_width.
  - apply set_size_height.
Qed.

(** X18: two unaligned flowed leaves that follow one another in a layout are
    placed back to back: along the flow the second starts where the first
    ends plus the spacing, and across the flow both start at the layout's
    own position plus the margin.  The first entry of a layout starts at
    the margin. *)
Theorem unaligned_leaves_back_to_back :
  forall fuel d items m s coord sz0 ms box' size k f1 st1 al1 xml1 f2 st2 al2 xml2,
    get_size (S fuel) (BoxLayout d items m s coord sz0) ms = Ok (box', size) ->
    items !! k = Some (SVGFile f1, st1, al1, xml1) ->
    items !! S k = Some (SVGFile f2, st2, al2, xml2) ->
    has_horizontal_flag al1 = false -> has_vertical_flag al1 = false ->
    has_horizontal_flag al2 = false -> has_vertical_flag al2 = false ->
    exists f1' f2' c1 c2,
      items_of box' !! k = Some (SVGFile f1', st1, al1, xml1)
      /\ items_of box' !! S k = Some (SVGFile f2', st2, al2, xml2)
      /\ _coord f1' = Some c1 /\ _coord f2' = Some c2
      /\ (main_coord d c2
          == main_coord d c1 + main_extent d (mkSize (_width_px f1') (_height_px f1')) + s)%Q
      /\ (orth_coord d c1 == m + orth_coord d coord)%Q
      /\ (orth_coord d c2 == m + orth_coord d coord)%Q
      /\ (k = 0%nat -> main_coord d c1 == m + main_coord d coord)%Q.
Proof.
  intros fuel d items m s coord sz0 ms box' size k f1 st1 al1 xml1 f2 st2 al2 xml2
         H Hk1 Hk2 Hh1 Hv1 Hh2 Hv2.
  pose proof H as H0.
  apply get_size_entries in H0 as (items1 & sizes & cum1 & orth & Hm & _).
  pose proof Hm as Hl. unfold measure in Hl. apply step1_lengths in Hl as [Hl1 Hl2].
  destruct (unaligned_leaf_after_query _ _ _ _ _ _ _ _ _ _ _ _ _ _ _ _ _ _ _ H Hm Hk1 Hh1 Hv1)
    as (nsz1 & cbc1 & f1' & Ha1 & Hc1 & Hb1 & Hp1 & [Hw1 Hhh1]).
  destruct (unaligned_leaf_after_query _ _ _ _ _ _ _ _ _ _ _ _ _ _ _ _ _ _ _ H Hm Hk2 Hh2 Hv2)
    as (nsz2 & cbc2 & f2' & Ha2 & Hc2 & Hb2 & Hp2 & _).
  exists f1', f2'. eexists _, _.
  split; [exact Hb1|]. split; [exact Hb2|]. split; [exact Hp1|]. split; [exact Hp2|].
  cbn [width height] in Hw1, Hhh1.
  unfold allotted_size in Ha1.
  destruct (items1 !! k) as [[[[it1 st1'] al1'] xml1']|] eqn:E1; [|discriminate].
  destruct (sizes !! k) as [old1|] eqn:Es1; [|discriminate].
  cbn [mbind option_bind entry_stretch fst snd] in Ha1. injection Ha1 as <-.
  assert ((length items1 <=? 0 + k + 1)%nat = false) as Hlast.
  { apply Nat.leb_gt. apply lookup_lt_Some in Hk2. lia. }
  unfold slot_cursor in Hc1, Hc2.
  rewrite (cursor_at_S _ _ _ _ _ _ _ _ _ _ _ _ _ _ _ _ _ E1 Es1) in Hc2.
  cbn zeta in Hc2. rewrite Hlast in Hc2. cbn [Nat.add] in Hlast. rewrite Hlast in Hw1, Hhh1.
  remember (new_item_size d
              (stretch_hack (dim_unfilled_length d (min_size_or_zero ms) (cum1 + m))
                            (total_stretch items1))
              (stretch_inc (dim_unfilled_length d (min_size_or_zero ms) (cum1 + m))
                           (total_stretch items1))
              (dim_unfilled_length d (min_size_or_zero ms) (cum1 + m)) orth false st1' old1)
    as nsz1 eqn:En. clear En.
  unfold child_box_coord in Hc1, Hc2. unfold main_coord, orth_coord, main_extent in *.
  destruct d; try discriminate; injection Hc1 as <-; injection Hc2 as <-;
    cbn [horizontal fst snd width height] in *; rewrite ?Hw1, ?Hhh1;
    (split; [ring|]); (split; [ring|]); (split; [ring|]).
  all: intros ->; rewrite cursor_at_0; ring.
Qed.

Lemma unaligned_leaves_back_to_back_witness :
  exists box' size f1' f2' c1 c2,
    get_size 1 column_of_two None = Ok (box', size)
    /\ items_of box' !! 0%nat = Some (SVGFile f1', 0%Q, 0%Z, None)
    /\ items_of box' !! 1%nat = Some (SVGFile f2', 0%Q, 0%Z, None)
    /\ _coord f1' = Some c1 /\ _coord f2' = Some c2
    /\ (main_coord TopToBottom c2
        == main_coord TopToBottom c1
           + main_extent TopToBottom (mkSize (_width_px f1') (_height_px f1')) + 10)%Q
    /\ (orth_coord TopToBottom c1 == 5 + orth_coord TopToBottom (7, 9)%Q)%Q
    /\ (orth_coord TopToBottom c2 == 5 + orth_coord TopToBottom (7, 9)%Q)%Q
    /\ (0%nat = 0%nat -> main_coord TopToBottom c1 == 5 + main_coord TopToBottom (7, 9)%Q)%Q.
Proof.
  destruct (get_size 1 column_of_two None) as [[box' size]|] eqn:Hget;
    [|vm_compute in Hget; discriminate].
  destruct (unaligned_leaves_back_to_back 0 TopToBottom (items_of column_of_two) 5 10
              (7, 9)%Q None None box' size 0%nat
              (leaf 0 80 30) 0%Q 0%Z None (leaf 1 80 40) 0%Q 0%Z None)
    as (f1' & f2' & c1 & c2 & H); [exact Hget|reflexivity..|].
  exists box', size, f1', f2', c1, c2. split; [reflexivity|exact H].
Defined.

(** ** Decorations *)

Section Decorations.

Variable repr : Q -> string.

Lemma add_extra_raw accum item xml accum' :
  add_extra repr accum item xml = Ok accum' ->
  _raw_elements accum'
  = _raw_elements accum
    ++ match xml, item_coord item with
       | Some x, Some c =>
           [Elem (svg_tag "g")
                 [("transform", translate_attr (repr (fst c)) (repr (snd c)))] [x]]
       | _, _ => []
       end.
Proof.
  unfold add_extra. destruct xml as [x|]; [|intros [= <-]; rewrite app_nil_r; reflexivity].
  destruct (item_coord item) as [c|]; cbn; [|discriminate]. intros [= <-]. reflexivity.
Qed.

Lemma render_leaf_raw add style debug accum f accum' :
  (debug <= 0)%Z ->
  (forall a g a', add a g = Ok a' -> _raw_elements a' = _raw_elements a) ->
  render_leaf repr add style debug accum f = Ok accum' ->
  _raw_elements accum' = _raw_elements accum.
Proof.
  intros Hd Hadd H. unfold render_leaf in H. inv_bind H. apply Hadd in Hr.
  replace (0 <? debug)%Z with false in H by (symmetry; apply Z.ltb_ge; exact Hd).
  injection H as <-. exact Hr.
Qed.

Lemma add_svg_file_raw a g a' : add_svg_file a g = Ok a' -> _raw_elements a' = _raw_elements a.
Proof.
  unfold add_svg_file. destruct (contains_obj _ _); [discriminate|]. intros [= <-]. reflexivity.
Qed.

Lemma add_svg_file_no_layout_raw a g a' :
  add_svg_file_no_layout a g = Ok a' -> _raw_elements a' = _raw_elements a.
Proof.
  unfold add_svg_file_no_layout. destruct (contains_obj _ _); [discriminate|].
  intros [= <-]. reflexivity.
Qed.

Section Items.
Variable child_render :
  Item -> LayoutAccumulator -> option Size -> Result (Item * LayoutAccumulator).
Hypothesis child_raw :
  forall item accum ms item' accum',
    child_render item accum ms = Ok (item', accum') ->
    _raw_elements accum' = _raw_elements accum ++ decorations repr item'.

Lemma render_items_raw debug items : forall accum items' accum',
  (debug <= 0)%Z ->
  render_items repr child_render debug items accum = Ok (items', accum') ->
  _raw_elements accum'
  = _raw_elements accum
    ++ flat_map
         (fun e : Entry =>
            decorations repr (fst (fst (fst e)))
            ++ match snd e, item_coord (fst (fst (fst e))) with
               | Some x, Some c =>
                   [Elem (svg_tag "g")
                         [("transform", translate_attr (repr (fst c)) (repr (snd c)))] [x]]
               | _, _ => []
               end)
         items'.
Proof.
  induction items as [|[[[item st] al] xml] rest IH]; intros accum items' accum' Hd H.
  - injection H as <- <-. cbn [flat_map]. rewrite app_nil_r. reflexivity.
  - cbn [render_items] in H. inv_bind H. destruct r as [item1 accum1].
    inv_bind H. inv_bind H. destruct r0 as [rest' accum3]. injection H as <- <-.
    assert (_raw_elements accum1 = _raw_elements accum ++ decorations repr item1) as E1.
    { destruct item as [f|f x y|d its m s c sz].
      - inv_bind Hr. injection Hr as <- <-. cbn [decorations]. rewrite app_nil_r.
        eapply render_leaf_raw; [exact Hd|apply add_svg_file_raw|exact Hr2].
      - inv_bind Hr. injection Hr as <- <-. cbn [decorations]. rewrite app_nil_r.
        eapply render_leaf_raw; [exact Hd|apply add_svg_file_no_layout_raw|exact Hr2].
      - eapply child_raw, Hr. }
    apply add_extra_raw in Hr0. apply IH in Hr1; [|exact Hd].
    cbn [flat_map fst snd]. rewrite Hr1, Hr0, E1, <- !app_assoc. reflexivity.
Qed.
End Items.

Lemma render_raw debug fuel : forall item accum ms level item' accum',
  (debug <= 0)%Z ->
  render repr fuel item accum ms level debug = Ok (item', accum') ->
  _raw_elements accum' = _raw_elements accum ++ decorations repr item'.
Proof.
  induction fuel as [|fuel IH]; intros item accum ms level item' accum' Hd H; [discriminate|].
  cbn [render] in H. destruct item as [| |d items m s c sz]; try discriminate.
  inv_bind H. destruct r as [self size].
  destruct self as [| |d' items' m' s' c' sz']; try discriminate.
  inv_bind H. destruct r as [items2 accum2]. injection H as <- <-.
  replace (0 <? debug)%Z with false in Hr0 by (symmetry; apply Z.ltb_ge; exact Hd).
  eapply render_items_raw in Hr0; [| |exact Hd].
  2:{ intros ? ? ? ? ? H'. eapply IH; [exact Hd|exact H']. }
  rewrite Hr0. cbn [decorations]. destruct (level =? 0)%nat; reflexivity.
Qed.

(** X21: without debug boxes, a render pass appends to the raw elements one
    group per decorated entry of the tree it returns and nothing else: depth
    first in the order of the entries, the decoration of a nested layout
    behind those of its entries, each group holding the decoration and
    translated to the position of its entry. *)
Theorem render_places_decorations :
  forall fuel layout ms level debug layout' accum,
    (debug <= 0)%Z ->
    render repr fuel layout LayoutAccumulator_init ms level debug = Ok (layout', accum) ->
    _raw_elements accum = decorations repr layout'.
Proof.
  intros fuel layout ms level debug layout' accum Hd H.
  apply render_raw in H; [|exact Hd]. exact H.
Qed.

End Decorations.

Lemma render_places_decorations_witness :
  exists layout' accum,
    render example_repr 1 document_example LayoutAccumulator_init None 0 0 = Ok (layout', accum)
    /\ _raw_elements accum = decorations example_repr layout'
    /\ _raw_elements accum
       = [Elem (svg_tag "g") [("transform", "translate(0,0)")] [Elem (svg_tag "text") [] []]].
Proof.
  destruct (render example_repr 1 document_example LayoutAccumulator_init None 0 0)
    as [[layout' accum]|] eqn:H; [|vm_compute in H; discriminate].
  exists layout', accum. split; [reflexivity|]. split.
  - apply (render_places_decorations example_repr 1 document_example None 0%nat 0%Z);
      [discriminate|exact H].
  - vm_compute in H. injection H as _ <-. reflexivity.
Defined.

(** * The saved document *)

Lemma get_size_size_field fuel d items m s c sz0 ms d' items' m' s' c' sz' size :
  get_size fuel (BoxLayout d items m s c sz0) ms = Ok (BoxLayout d' items' m' s' c' sz', size) ->
  sz' = Some size.
Proof.
  destruct fuel as [|fuel]; [discriminate|]. cbn [get_size]. intros H.
  inv_bind H. destruct r as [[[items1 sizes] cum1] orth].
  inv_bind H. destruct r as [items2 cum2]. injection H as _ _ _ _ _ <- <-. reflexivity.
Qed.

Lemma hoisted_from_app a : forall n b,
  hoisted_from n (a ++ b) = hoisted_from n a ++ hoisted_from (n + length a) b.
Proof.
  induction a as [|f a IH]; intros n b; cbn [app hoisted_from length].
  - rewrite Nat.add_0_r. reflexivity.
  - rewrite IH, <- app_assoc. replace (S n + length a)%nat with (n + S (length a))%nat by lia.
    reflexivity.
Qed.

Lemma number_from_hoisted do_layout l : forall n,
  flat_map (fun w : nat * bool * SVGFileBase =>
              hoisted (fix_id_prefix (fst (fst w))) (children (_root (snd w))))
           (number_from n do_layout l)
  = hoisted_from n l.
Proof.
  induction l as [|f l IH]; intros n; cbn [number_from flat_map hoisted_from fst snd];
    [reflexivity|].
  rewrite IH. reflexivity.
Qed.

Lemma number_from_lookup do_layout l : forall n i,
  number_from n do_layout l !! i = (fun f => (n + i, do_layout, f)%nat) <$> (l !! i).
Proof.
  induction l as [|f l IH]; intros n i; [destruct i; reflexivity|].
  destruct i as [|i]; cbn [number_from lookup list_lookup].
  - rewrite Nat.add_0_r. reflexivity.
  - rewrite IH. replace (S n + i)%nat with (n + S i)%nat by lia. reflexivity.
Qed.

Lemma number_from_length n do_layout l : length (number_from n do_layout l) = length l.
Proof. rewrite <- (number_from_leaves n do_layout l) at 2. rewrite length_map. reflexivity. Qed.

(** The work list holds at index [n] the [n]-th registered leaf with the
    number [n]; the flowed leaves come first. *)
Lemma work_list_lookup accum n f :
  (_svgfiles accum ++ _svgfiles_no_layout accum) !! n = Some f ->
  work_list accum !! n = Some (n, bool_decide (n < length (_svgfiles accum))%nat, f).
Proof.
  intros H. unfold work_list.
  destruct (decide (n < length (_svgfiles accum))%nat) as [Hlt|Hge].
  - rewrite bool_decide_eq_true_2 by exact Hlt.
    rewrite lookup_app_l in H by exact Hlt.
    rewrite lookup_app_l by (rewrite number_from_length; exact Hlt).
    rewrite number_from_lookup, H. reflexivity.
  - rewrite bool_decide_eq_false_2 by exact Hge.
    rewrite lookup_app_r in H by lia.
    rewrite lookup_app_r by (rewrite number_from_length; lia).
    rewrite number_from_length, number_from_lookup, H. cbn [fmap option_fmap option_map].
    do 3 f_equal. lia.
Qed.

Section SavedDocument.

Variable repr : Q -> string.
Variable viewBox_tokens : string -> list string.
Variable float : string -> option Q.
Variable tostring : gmap (option string) string -> Element -> string.

(** One pass of the loop at lines 324-394. *)
Lemma wrap_leaf_spec n do_layout f defs defs' g :
  wrap_leaf repr viewBox_tokens float n do_layout f defs = Ok (defs', g) ->
  defs' = defs ++ hoisted (fix_id_prefix n) (children (_root f))
  /\ wrapper_for repr viewBox_tokens float n f g
  /\ (do_layout = true -> resized f = false).
Proof.
  unfold wrap_leaf. rewrite copy_children_spec. cbn [app].
  destruct (_coord f) as [[x y]|] eqn:Hc; [|discriminate].
  cbn [coord_of mbind Result_bind bind fst snd].
  destruct (do_layout && negb (Qeq_bool (_orig_width_px f) (_width_px f))) eqn:Ew;
    [discriminate|].
  destruct (do_layout && negb (Qeq_bool (_orig_height_px f) (_height_px f))) eqn:Eh;
    [discriminate|].
  intros H. inv_bind H. rename r into t. injection H as <- <-.
  split; [reflexivity|]. split.
  - cbn [fix_ids tag attrib children in_svg_namespace svg_tag].
    change (String.prefix ns_svg (ns_svg +:+ "g")) with true. cbn iota.
    rewrite fix_attribs_single_id.
    2:{ apply no_rparen_no_relIRI. unfold fix_id_prefix, decimal.
        rewrite !mem_char_append. cbn [mem_char]. rewrite !string_of_uint_no_rparen.
        reflexivity. }
    cbn [attrib_set]. change (String.eqb "transform" "id") with false. cbn iota.
    split; [reflexivity|]. split; [reflexivity|].
    exists x, y, t. split; [exact Hc|]. split; [reflexivity|].
    unfold placement_transform in Hr.
    destruct (attrib_get "viewBox" (attrib (_root f))) as [vb|]; [|congruence].
    destruct (viewBox_tokens vb) as [|a [|b [|c [|d [|]]]]] eqn:Et; try discriminate.
    destruct (float a) as [vbminx|] eqn:Fa; [|destruct (float b), (float c), (float d); discriminate].
    destruct (float b) as [vbminy|] eqn:Fb; [|destruct (float c), (float d); discriminate].
    destruct (float c) as [vbwidth|] eqn:Fc; [|destruct (float d); discriminate].
    destruct (float d) as [vbheight|] eqn:Fd; [|discriminate].
    destruct (Qeq_bool vbwidth 0) eqn:E1; [discriminate|].
    destruct (Qeq_bool vbheight 0) eqn:E2; [discriminate|].
    cbn [orb] in Hr. injection Hr as <-.
    exists a, b, c, d, vbminx, vbminy, vbwidth, vbheight.
    split; [reflexivity|]. split; [exact Fa|]. split; [exact Fb|]. split; [exact Fc|].
    split; [exact Fd|].
    split; [apply Qeq_bool_neq, E1|]. split; [apply Qeq_bool_neq, E2|]. reflexivity.
  - intros ->. cbn [andb] in Ew, Eh. unfold resized. rewrite Ew, Eh. reflexivity.
Qed.

(** The loop at lines 324-394 over a work list. *)
Lemma wrap_leaves_spec work : forall defs0 groups0 defs groups,
  wrap_leaves repr viewBox_tokens float work defs0 groups0 = Ok (defs, groups) ->
  exists new_groups,
    groups = groups0 ++ new_groups
    /\ defs = defs0
              ++ flat_map (fun w : nat * bool * SVGFileBase =>
                             hoisted (fix_id_prefix (fst (fst w))) (children (_root (snd w))))
                          work
    /\ Forall2 (fun (w : nat * bool * SVGFileBase) g =>
                  wrapper_for repr viewBox_tokens float (fst (fst w)) (snd w) g
                  /\ (snd (fst w) = true -> resized (snd w) = false))
               work new_groups.
Proof.
  induction work as [|[[n do_layout] f] work IH]; intros defs0 groups0 defs groups H.
  - injection H as <- <-. exists []. rewrite !app_nil_r. repeat split. constructor.
  - cbn [wrap_leaves] in H. inv_bind H. destruct r as [defs1 g].
    apply wrap_leaf_spec in Hr as (-> & Hw & Hres).
    apply IH in H as (new_groups & -> & -> & Hall).
    exists (g :: new_groups). rewrite <- !app_assoc. split; [reflexivity|].
    split; [reflexivity|]. constructor; [|exact Hall]. split; assumption.
Qed.

Lemma render_leaf_raw_of add style debug accum f accum' :
  (forall a g a', add a g = Ok a' -> _raw_elements a' = _raw_elements a) ->
  render_leaf repr add style debug accum f = Ok accum' ->
  _raw_elements accum' = _raw_elements accum ++ leaf_outline repr style debug f.
Proof.
  intros Hadd H. unfold render_leaf in H. inv_bind H. apply Hadd in Hr.
  unfold leaf_outline. destruct (0 <? debug)%Z.
  - destruct (_coord f) as [c|]; [|discriminate]. cbn in H. injection H as <-.
    cbn [_raw_elements add_raw_element]. rewrite Hr. reflexivity.
  - injection H as <-. rewrite app_nil_r. exact Hr.
Qed.

Section Items.
Variable debug : Z.
Variable child_render :
  Item -> LayoutAccumulator -> option Size -> Result (Item * LayoutAccumulator).
Hypothesis child_raw :
  forall d its m s c sz accum ms item' accum',
    child_render (BoxLayout d its m s c sz) accum ms = Ok (item', accum') ->
    _raw_elements accum' = _raw_elements accum ++ raw_of repr debug item'.

Lemma render_items_raw_of items : forall accum items' accum',
  render_items repr child_render debug items accum = Ok (items', accum') ->
  _raw_elements accum'
  = _raw_elements accum
    ++ flat_map
         (fun e : Entry =>
            raw_of repr debug (fst (fst (fst e)))
            ++ match snd e, item_coord (fst (fst (fst e))) with
               | Some x, Some c =>
                   [Elem (svg_tag "g")
                         [("transform", translate_attr (repr (fst c)) (repr (snd c)))] [x]]
               | _, _ => []
               end)
         items'.
Proof.
  induction items as [|[[[item st] al] xml] rest IH]; intros accum items' accum' H.
  - injection H as <- <-. cbn [flat_map]. rewrite app_nil_r. reflexivity.
  - cbn [render_items] in H. inv_bind H. destruct r as [item1 accum1].
    inv_bind H. inv_bind H. destruct r0 as [rest' accum3]. injection H as <- <-.
    assert (_raw_elements accum1 = _raw_elements accum ++ raw_of repr debug item1) as E1.
    { destruct item as [f|f x y|d its m s c sz].
      - inv_bind Hr. injection Hr as <- <-. cbn [raw_of].
        eapply render_leaf_raw_of; [apply add_svg_file_raw|exact Hr2].
      - inv_bind Hr. injection Hr as <- <-. cbn [raw_of].
        eapply render_leaf_raw_of; [apply add_svg_file_no_layout_raw|exact Hr2].
      - eapply child_raw, Hr. }
    apply add_extra_raw in Hr0. apply IH in Hr1.
    cbn [flat_map fst snd]. rewrite Hr1, Hr0, E1, <- !app_assoc. reflexivity.
Qed.
End Items.

(** A render pass appends the raw elements of the tree it returns. *)
Lemma render_raw_of debug fuel : forall item accum ms level item' accum',
  render repr fuel item accum ms level debug = Ok (item', accum') ->
  _raw_elements accum' = _raw_elements accum ++ raw_of repr debug item'.
Proof.
  induction fuel as [|fuel IH]; intros item accum ms level item' accum' H; [discriminate|].
  cbn [render] in H. destruct item as [| |d items m s c sz]; try discriminate.
  inv_bind H. destruct r as [self size].
  destruct self as [| |d' items' m' s' c' sz']; try discriminate.
  pose proof Hr as Hsz. apply get_size_size_field in Hsz. subst sz'.
  inv_bind H. destruct r as [items2 accum2]. injection H as <- <-.
  eapply render_items_raw_of in Hr0.
  2:{ intros ? ? ? ? ? ? ? ? ? ? H'. eapply IH, H'. }
  rewrite Hr0. cbn [raw_of min_size_or_zero].
  destruct (0 <? debug)%Z, (level =? 0)%nat; cbn [_raw_elements add_raw_element accum_set_size];
    rewrite <- ?app_assoc; reflexivity.
Qed.

(** C9: the text [Document.save] writes is the fixed XML declaration, a
    newline and the serialized root.  The root's [width] and [height] are
    the [repr] of the size the root layout computes.  Its children are, in
    this order: the one [defs] container, which holds the rewritten [defs]
    children of every source in the order of the leaves; one wrapper group
    per leaf of the layout, the flowed leaves first in depth-first order of
    the entries and then the fixed-offset leaves, the [n]-th group carrying
    the number [n] in its identifier, the leaf's position in its transform
    and the leaf's rewritten content; then the raw elements of the rendered
    tree (decorations, and outlines in debug mode).  The leaves are those of
    the layout that was saved, as placed by the render pass; no flowed leaf
    is resized. *)
Theorem saved_document_structure :
  forall fuel layout debug out,
    save repr viewBox_tokens float tostring fuel (Some layout) debug = Ok out ->
    exists layout' size placed accum NSMAP root_defs groups,
      get_size fuel layout None = Ok (layout', size)
      /\ render repr fuel layout LayoutAccumulator_init None 0 debug = Ok (placed, accum)
      /\ static placed = static layout
      /\ collect_nsmap (flowed_leaves placed) NSMAP_init = Ok NSMAP
      /\ out = header_str +:+ String newline "" +:+
               tostring NSMAP
                 (Elem (svg_tag "svg")
                       [("version", "1.1"); ("width", repr (width size));
                        ("height", repr (height size))]
                       (Elem (svg_tag "defs") [] root_defs :: groups
                          ++ raw_of repr debug placed))
      /\ root_defs = hoisted_from 0 (flowed_leaves placed ++ fixed_leaves placed)
      /\ length groups = length (flowed_leaves placed ++ fixed_leaves placed)
      /\ forall n f,
          (flowed_leaves placed ++ fixed_leaves placed) !! n = Some f ->
          exists g,
            groups !! n = Some g
            /\ wrapper_for repr viewBox_tokens float n f g
            /\ ((n < length (flowed_leaves placed))%nat -> resized f = false).
Proof.
  intros fuel layout debug out H.
  unfold save in H. inv_bind H. destruct r as [placed accum].
  inv_bind H. destruct r as [NSMAP root]. injection H as <-.
  destruct (render_records_canvas_size _ _ _ _ _ _ Hr) as (layout' & size & Hget & Hsize).
  pose proof (render_registers _ _ _ _ _ _ _ _ _ Hr) as [(R1 & R2 & _ & _) Hst].
  pose proof (render_raw_of _ _ _ _ _ _ _ _ Hr) as Hraw.
  cbn [LayoutAccumulator_init _svgfiles _svgfiles_no_layout _raw_elements app] in R1, R2, Hraw.
  unfold _make_finalized_root in Hr0. inv_bind Hr0. rename r into NSMAP'.
  inv_bind Hr0. destruct r as [root_defs groups]. rewrite Hsize in Hr0.
  injection Hr0 as <- <-.
  apply wrap_leaves_spec in Hr2 as (new_groups & -> & -> & Hall).
  cbn [app] in *.
  exists layout', size, placed, accum, NSMAP', (hoisted_from 0 (flowed_leaves placed ++ fixed_leaves placed)), new_groups.
  split; [exact Hget|]. split; [exact Hr|]. split; [exact Hst|].
  split; [rewrite <- R1; exact Hr1|].
  split.
  { rewrite Hraw. unfold work_list. rewrite flat_map_app, !number_from_hoisted.
    rewrite hoisted_from_app, R1, R2. reflexivity. }
  split; [reflexivity|].
  split.
  { apply Forall2_length in Hall. rewrite <- Hall. unfold work_list.
    rewrite !length_app, !number_from_length, R1, R2. reflexivity. }
  intros n f Hn. rewrite <- R1, <- R2 in Hn.
  pose proof (work_list_lookup accum n f Hn) as Hw.
  destruct (Forall2_lookup_l _ _ _ _ _ Hall Hw) as (g & Hg & Hwrap & Hres).
  exists g. split; [exact Hg|]. split; [exact Hwrap|].
  intros Hlt. apply Hres. cbn [fst snd]. apply bool_decide_eq_true_2.
  rewrite R1. exact Hlt.
Qed.

End SavedDocument.

Lemma saved_document_structure_witness :
  exists out,
    save example_repr example_viewBox_tokens example_float example_tostring 1
         (Some document_example) 0 = Ok out
    /\ exists layout' size placed accum NSMAP root_defs groups,
        get_size 1 document_example None = Ok (layout', size)
        /\ render example_repr 1 document_example LayoutAccumulator_init None 0 0
           = Ok (placed, accum)
        /\ static placed = static document_example
        /\ collect_nsmap (flowed_leaves placed) NSMAP_init = Ok NSMAP
        /\ out = header_str +:+ String newline "" +:+
                 example_tostring NSMAP
                   (Elem (svg_tag "svg")
                         [("version", "1.1"); ("width", example_repr (width size));
                          ("height", example_repr (height size))]
                         (Elem (svg_tag "defs") [] root_defs :: groups
                            ++ raw_of example_repr 0 placed))
        /\ root_defs = hoisted_from 0 (flowed_leaves placed ++ fixed_leaves placed)
        /\ length groups = length (flowed_leaves placed ++ fixed_leaves placed)
        /\ forall n f,
            (flowed_leaves placed ++ fixed_leaves placed) !! n = Some f ->
            exists g,
              groups !! n = Some g
              /\ wrapper_for example_repr example_viewBox_tokens example_float n f g
              /\ ((n < length (flowed_leaves placed))%nat -> resized f = false).
Proof.
  eexists. split; [vm_compute; reflexivity|].
  apply (saved_document_structure example_repr example_viewBox_tokens example_float
           example_tostring 1 document_example 0).
  vm_compute. reflexivity.
Defined.
